(** * Finance gateway client: a shallow embedding of [src/Client.py]

    The development follows the layout of the Python module:
    - Python strings and values ([pystr], [pyval]);
    - the part of CPython's [json] encoder that [Serializer.to_json] drives
      ([json.dumps(self, default=lambda o: o.__dict__, sort_keys=True, indent=4)]);
    - SHA-256, HMAC and [generate_hmac];
    - the object store, the request classes and their constructors;
    - the JSON decoder with [json_object_hook] ([json_to_object]);
    - [post_http_request], [process_gateway_request] and the [fetch_*] wrappers.

    The definitions come first, in the order of the module, then the
    notions that the statements use, then the lemmas and the theorems. *)

From Stdlib Require Import ZArith NArith List String Ascii Bool Lia Permutation Sorted.
From Stdlib Require DecimalString DecimalPos DecimalFacts.
From stdpp Require Import base option list gmap relations.
Import ListNotations.

Set Warnings "-register-all".

Local Open Scope N_scope.
Local Open Scope list_scope.

(* ===================================================================== *)
(** * Python strings *)
(* ===================================================================== *)

(** A Python [str] is a sequence of Unicode code points. *)
Definition pystr := list N.

(** A string literal of the source, code point by code point. *)
Definition str (s : string) : pystr :=
  List.map N_of_ascii (list_ascii_of_string s).

(** The double quote, which a Rocq literal cannot hold undoubled. *)
Definition dquote : N := 34.

(** [str] with every apostrophe standing for a double quote, to write JSON
    texts readably. *)
Definition jstr (s : string) : pystr :=
  List.map (fun c => if c =? 39 then dquote else c) (str s).

(** [a < b] on [str]: lexicographic on code points. *)
Fixpoint str_ltb (a b : pystr) : bool :=
  match a, b with
  | _, [] => false
  | [], _ :: _ => true
  | x :: a', y :: b' =>
      if x <? y then true else if y <? x then false else str_ltb a' b'
  end.

Definition str_eqb (a b : pystr) : bool := bool_decide (a = b).

(** [' ' * n] *)
Definition spaces (n : nat) : pystr := repeat 32 n.

(** [s.isascii()] *)
Definition isascii (s : pystr) : bool := forallb (fun c => c <? 128) s.

(** A [str] with a surrogate code point, which the strict UTF-8 codec
    refuses. *)
Definition has_surrogate (s : pystr) : bool :=
  existsb (fun c => (0xD800 <=? c) && (c <=? 0xDFFF)) s.

(** A Unicode scalar value: a code point that is no surrogate. *)
Definition is_scalar (c : N) : bool :=
  (c <? 0xD800) || ((0xDFFF <? c) && (c <? 0x110000)).

(** A [str] of scalar values, as every [str] that was decoded from bytes
    is. *)
Definition scalar_str (s : pystr) : bool := forallb is_scalar s.

(* ===================================================================== *)
(** * Python values *)
(* ===================================================================== *)

(** A [float] is identified by what [float.__repr__] prints for it; the three
    non-finite values are kept apart because the [json] module treats them
    apart. *)
Inductive pyfloat :=
| FNan
| FInf
| FNegInf
| FFinite (repr : pystr).

(** The values that reach the encoder or leave the decoder, as trees.
    [PDict] is a [dict] with [str] keys and [PObj] an instance seen through
    its [__dict__]; both keep their items in insertion order.  [PTuple] is an
    instance of a class made by [namedtuple]: its field names and its items. *)
Inductive pyval :=
| PNone
| PBool (b : bool)
| PInt (z : Z)
| PFloat (f : pyfloat)
| PStr (s : pystr)
| PList (l : list pyval)
| PTuple (fields : list pystr) (l : list pyval)
| PDict (d : list (pystr * pyval))
| PObj (d : list (pystr * pyval)).

(** Python exceptions the module can raise. *)
Inductive exn :=
| NameError
| AttributeError
| TypeError
| ValueError
| UnicodeEncodeError
| JSONDecodeError
| RecursionError
| SyntaxError
| RequestException.

Inductive result (A : Type) :=
| Ok (a : A)
| Raise (e : exn).
Arguments Ok {A} a.
Arguments Raise {A} e.

(** ** Dictionaries in insertion order *)

Section Items.
Context {A : Type}.

(** [d.get(k)] *)
Fixpoint dict_get (k : pystr) (d : list (pystr * A)) : option A :=
  match d with
  | [] => None
  | (k', v) :: d' => if str_eqb k k' then Some v else dict_get k d'
  end.

(** [d[k] = v]: an existing key keeps its place, a new one goes last. *)
Fixpoint dict_set (k : pystr) (v : A) (d : list (pystr * A)) : list (pystr * A) :=
  match d with
  | [] => [(k, v)]
  | (k', v') :: d' =>
      if str_eqb k k' then (k, v) :: d' else (k', v') :: dict_set k v d'
  end.

(** [dict(pairs)] *)
Definition dict_of_pairs (pairs : list (pystr * A)) : list (pystr * A) :=
  fold_left (fun d kv => dict_set (fst kv) (snd kv) d) pairs [].

Definition keys (d : list (pystr * A)) : list pystr := List.map fst d.
Definition values (d : list (pystr * A)) : list A := List.map snd d.

(** One step of [sorted(dct.items())]: the keys of a dict are distinct, so
    the comparison of two items is decided by their keys. *)
Fixpoint insert_item (kv : pystr * A) (l : list (pystr * A)) : list (pystr * A) :=
  match l with
  | [] => [kv]
  | kv' :: l' =>
      if str_ltb (fst kv') (fst kv) then kv' :: insert_item kv l' else kv :: l
  end.

(** [sorted(dct.items())], as a stable insertion sort. *)
Definition sorted_items (d : list (pystr * A)) : list (pystr * A) :=
  fold_right insert_item [] d.
End Items.

(* ===================================================================== *)
(** * The JSON encoder *)
(* ===================================================================== *)

Module Encoder.

Definition hex_digit (n : N) : N := if n <? 10 then 48 + n else 87 + n.

(** ['\\u{0:04x}'.format(n)] *)
Definition u_escape (n : N) : pystr :=
  str "\u" ++ [hex_digit (n / 4096 mod 16); hex_digit (n / 256 mod 16);
               hex_digit (n / 16 mod 16); hex_digit (n mod 16)].

(** The replacement [encode_basestring_ascii] makes for one code point:
    [ESCAPE_DCT], then [\uXXXX], then a surrogate pair. *)
Definition escape_char (c : N) : pystr :=
  if c =? 34 then [92; 34]
  else if c =? 92 then [92; 92]
  else if c =? 10 then str "\n"
  else if c =? 13 then str "\r"
  else if c =? 9 then str "\t"
  else if c =? 8 then str "\b"
  else if c =? 12 then str "\f"
  else if (32 <=? c) && (c <=? 126) then [c]
  else if c <? 65536 then u_escape c
  else
    let n := c - 65536 in
    u_escape (N.lor 55296 (N.land (N.shiftr n 10) 1023))
      ++ u_escape (N.lor 56320 (N.land n 1023)).

(** [encode_basestring_ascii(s)], the [_encoder] of an encoder with
    [ensure_ascii=True]. *)
Definition encode_basestring_ascii (s : pystr) : pystr :=
  [dquote] ++ List.concat (List.map escape_char s) ++ [dquote].

(** [int.__repr__] *)
Definition intstr (z : Z) : pystr :=
  str (DecimalString.NilZero.string_of_int (Z.to_int z)).

(** [floatstr] with [allow_nan=True]. *)
Definition floatstr (f : pyfloat) : pystr :=
  match f with
  | FNan => str "NaN"
  | FInf => str "Infinity"
  | FNegInf => str "-Infinity"
  | FFinite r => r
  end.

(** [_indent = ' ' * 4] and ['\n' + _indent * _current_indent_level]. *)
Definition indent : nat := 4.
Definition newline_indent (lvl : nat) : pystr := 10 :: spaces (indent * lvl).

(** [item_separator] is [','] since [indent] is given;
    [key_separator] is [': ']. *)
Definition item_separator : pystr := str ",".
Definition key_separator : pystr := str ": ".

(** The chunks of a sequence whose elements are already rendered, joined
    by [separator]. *)
Fixpoint join (sep : pystr) (chunks : list pystr) : pystr :=
  match chunks with
  | [] => []
  | [c] => c
  | c :: rest => c ++ sep ++ join sep rest
  end.

(** [_iterencode_list] at [_current_indent_level = lvl], over the renderings
    of the elements at level [lvl + 1]. *)
Definition iterencode_list (lvl : nat) (chunks : list pystr) : pystr :=
  match chunks with
  | [] => str "[]"
  | _ => str "[" ++ newline_indent (S lvl)
           ++ join (item_separator ++ newline_indent (S lvl)) chunks
           ++ newline_indent lvl ++ str "]"
  end.

(** [_iterencode_dict] at level [lvl], over items whose values are already
    rendered at level [lvl + 1]; [_sort_keys] is set. *)
Definition iterencode_dict (lvl : nat) (items : list (pystr * pystr)) : pystr :=
  match items with
  | [] => str "{}"
  | _ => str "{" ++ newline_indent (S lvl)
           ++ join (item_separator ++ newline_indent (S lvl))
                (List.map (fun kv => encode_basestring_ascii (fst kv)
                                       ++ key_separator ++ snd kv)
                   (sorted_items items))
           ++ newline_indent lvl ++ str "}"
  end.

(** [_iterencode(o, lvl)].  An instance is not a type the encoder knows, so
    it goes through [default], which is [lambda o: o.__dict__], and the
    resulting dict is encoded in its place.  The values of a dict are
    rendered before its items are ordered; the order depends on the keys
    only, see [iterencode_dict_items]. *)
Fixpoint iterencode (lvl : nat) (o : pyval) : pystr :=
  match o with
  | PStr s => encode_basestring_ascii s
  | PNone => str "null"
  | PBool true => str "true"
  | PBool false => str "false"
  | PInt z => intstr z
  | PFloat f => floatstr f
  | PList l => iterencode_list lvl (List.map (iterencode (S lvl)) l)
  | PTuple _ l => iterencode_list lvl (List.map (iterencode (S lvl)) l)
  | PDict d =>
      iterencode_dict lvl (List.map (fun kv => (fst kv, iterencode (S lvl) (snd kv))) d)
  | PObj d =>
      iterencode_dict lvl (List.map (fun kv => (fst kv, iterencode (S lvl) (snd kv))) d)
  end.

(** [json.dumps(o, default=lambda o: o.__dict__, sort_keys=True, indent=4)] *)
Definition dumps (o : pyval) : pystr := iterencode 0 o.

End Encoder.

(** [Serializer.to_json(self)] on the tree of [self]. *)
Definition to_json (self : pyval) : pystr := Encoder.dumps self.

(* ===================================================================== *)
(** * Bytes, UTF-8 and hexadecimal *)
(* ===================================================================== *)

(** A [bytes] object: a sequence of numbers below 256. *)
Definition pybytes := list N.

Module Codec.

(** The UTF-8 encoding of one code point.  The codec is strict: a surrogate
    has no encoding.  The code points of a [str] are at most [0x10FFFF]. *)
Definition utf8_char (c : N) : result pybytes :=
  if c <? 0x80 then Ok [c]
  else if c <? 0x800 then
    Ok [N.lor 0xC0 (N.shiftr c 6); N.lor 0x80 (N.land c 0x3F)]
  else if (0xD800 <=? c) && (c <=? 0xDFFF) then Raise UnicodeEncodeError
  else if c <? 0x10000 then
    Ok [N.lor 0xE0 (N.shiftr c 12); N.lor 0x80 (N.land (N.shiftr c 6) 0x3F);
        N.lor 0x80 (N.land c 0x3F)]
  else
    Ok [N.lor 0xF0 (N.land (N.shiftr c 18) 0x07);
        N.lor 0x80 (N.land (N.shiftr c 12) 0x3F);
        N.lor 0x80 (N.land (N.shiftr c 6) 0x3F); N.lor 0x80 (N.land c 0x3F)].

(** [s.encode('utf-8')] *)
Fixpoint encode_utf8 (s : pystr) : result pybytes :=
  match s with
  | [] => Ok []
  | c :: s' =>
      match utf8_char c with
      | Raise e => Raise e
      | Ok b =>
          match encode_utf8 s' with
          | Raise e => Raise e
          | Ok bs => Ok (b ++ bs)
          end
      end
  end.

Definition hex_digit (n : N) : N := if n <? 10 then 48 + n else 87 + n.

(** [bytes.hex()]: two lowercase digits a byte. *)
Definition hexlify (bs : pybytes) : pystr :=
  List.concat (List.map (fun b => [hex_digit (b / 16); hex_digit (b mod 16)]) bs).

(** A character of [0-9a-f]. *)
Definition is_lower_hex (c : N) : bool :=
  ((48 <=? c) && (c <=? 57)) || ((97 <=? c) && (c <=? 102)).

End Codec.

(* ===================================================================== *)
(** * SHA-256 ([hashlib.sha256]) *)
(* ===================================================================== *)

Module SHA256.

Definition mask32 : N := 0xFFFFFFFF.
Definition add32 (a b : N) : N := (a + b) mod 0x100000000.
Definition rotr (n x : N) : N :=
  N.lor (N.shiftr x n) (N.land (N.shiftl x (32 - n)) mask32).
Definition shr (n x : N) : N := N.shiftr x n.
Definition not32 (x : N) : N := N.lxor x mask32.

Definition Ch (x y z : N) : N := N.lxor (N.land x y) (N.land (not32 x) z).
Definition Maj (x y z : N) : N :=
  N.lxor (N.lxor (N.land x y) (N.land x z)) (N.land y z).
Definition Sigma0 (x : N) : N := N.lxor (N.lxor (rotr 2 x) (rotr 13 x)) (rotr 22 x).
Definition Sigma1 (x : N) : N := N.lxor (N.lxor (rotr 6 x) (rotr 11 x)) (rotr 25 x).
Definition sigma0 (x : N) : N := N.lxor (N.lxor (rotr 7 x) (rotr 18 x)) (shr 3 x).
Definition sigma1 (x : N) : N := N.lxor (N.lxor (rotr 17 x) (rotr 19 x)) (shr 10 x).

(** The first 64 primes. *)
Definition is_prime (n : nat) : bool :=
  forallb (fun d => negb (n mod d =? 0)%nat) (seq 2 (n - 2)).
Definition primes : list N :=
  List.map N.of_nat (filter is_prime (seq 2 310)).

(** The largest [r] below [2 ^ bits] whose cube is at most [x]. *)
Fixpoint cube_root (bits : nat) (x r : N) : N :=
  match bits with
  | O => r
  | S b =>
      let r' := r + 2 ^ N.of_nat b in
      cube_root b x (if r' * r' * r' <=? x then r' else r)
  end.

(** The round constants: the first 32 bits of the fractional parts of the
    cube roots of the first 64 primes. *)
Definition K : list N :=
  Eval vm_compute in
    List.map (fun p => cube_root 36 (p * 2 ^ 96) 0 mod 2 ^ 32) primes.

(** The initial hash value: the first 32 bits of the fractional parts of the
    square roots of the first 8 primes. *)
Definition H0 : list N :=
  Eval vm_compute in
    List.map (fun p => N.sqrt (p * 2 ^ 64) mod 2 ^ 32) (firstn 8 primes).

(** Big-endian bytes of a number, [n] of them. *)
Fixpoint be_bytes (n : nat) (x : N) : pybytes :=
  match n with
  | O => []
  | S n' => be_bytes n' (x / 256) ++ [x mod 256]
  end.

Definition be_word (bs : pybytes) : N :=
  fold_left (fun acc b => acc * 256 + b) bs 0.

(** The message followed by the bit [1], zeros, and its length in bits on
    eight bytes, to a multiple of 64 bytes. *)
Definition pad (msg : pybytes) : pybytes :=
  let len := length msg in
  let zeros := ((64 - ((len + 9) mod 64)) mod 64)%nat in
  msg ++ [0x80] ++ repeat 0 zeros ++ be_bytes 8 (8 * N.of_nat len).

Fixpoint chunks (fuel n : nat) (l : list N) : list (list N) :=
  match fuel with
  | O => []
  | S fuel' =>
      match l with
      | [] => []
      | _ => firstn n l :: chunks fuel' n (skipn n l)
      end
  end.

(** The message schedule, most recent word first: [w] holds
    [W(t-1), W(t-2), ...]. *)
Fixpoint extend (n : nat) (w : list N) : list N :=
  match n with
  | O => w
  | S n' =>
      let x := add32 (add32 (sigma1 (nth 1 w 0)) (nth 6 w 0))
                     (add32 (sigma0 (nth 14 w 0)) (nth 15 w 0)) in
      extend n' (x :: w)
  end.

Definition schedule (block : pybytes) : list N :=
  rev (extend 48 (rev (List.map be_word (chunks 16 4 block)))).

Definition round (s : list N) (kw : N * N) : list N :=
  match s with
  | [a; b; c; d; e; f; g; h] =>
      let T1 := add32 (add32 (add32 h (Sigma1 e)) (add32 (Ch e f g) (fst kw))) (snd kw) in
      let T2 := add32 (Sigma0 a) (Maj a b c) in
      [add32 T1 T2; a; b; c; add32 d T1; e; f; g]
  | _ => s
  end.

Definition compress (h : list N) (block : pybytes) : list N :=
  let s := fold_left round (combine K (schedule block)) h in
  List.map (fun p => add32 (fst p) (snd p)) (combine h s).

(** [hashlib.sha256(msg).digest()] *)
Definition digest (msg : pybytes) : pybytes :=
  let p := pad msg in
  List.concat (List.map (be_bytes 4) (fold_left compress (chunks (length p) 64 p) H0)).

End SHA256.

(* ===================================================================== *)
(** * HMAC ([hmac.new(key, msg, hashlib.sha256)]) *)
(* ===================================================================== *)

Module HMAC.

(** A hash object is the bytes it has been fed. *)
Definition hashobj := pybytes.
Definition sha256_new : hashobj := [].
Definition update (h : hashobj) (data : pybytes) : hashobj := h ++ data.
Definition hash_digest (h : hashobj) : pybytes := SHA256.digest h.

Definition blocksize : nat := 64.

(** [key.translate(bytes((x ^ c) for x in range(256)))] *)
Definition translate (c : N) (key : pybytes) : pybytes := List.map (fun x => N.lxor x c) key.

(** [key.ljust(blocksize, a zero byte)] *)
Definition ljust (n : nat) (key : pybytes) : pybytes :=
  key ++ repeat 0 (n - length key).

Record t := { inner : hashobj; outer : hashobj }.

(** [hmac.new(key, msg, digestmod=hashlib.sha256)], as [hmac.py] sets the two
    hash objects up. *)
Definition new (key msg : pybytes) : t :=
  let key := if (blocksize <? length key)%nat then hash_digest (update sha256_new key) else key in
  let key := ljust blocksize key in
  let o := update sha256_new (translate 0x5C key) in
  let i := update sha256_new (translate 0x36 key) in
  {| inner := update i msg; outer := o |}.

(** [h.digest()] and [h.hexdigest()] *)
Definition digest (h : t) : pybytes := hash_digest (update (outer h) (hash_digest (inner h))).
Definition hexdigest (h : t) : pystr := Codec.hexlify (digest h).

(** HMAC-SHA-256 as RFC 2104 words it: [H(K0 xor opad, H(K0 xor ipad, text))]
    with [K0] the key brought to the block size. *)
Definition xor_bytes (a b : pybytes) : pybytes :=
  List.map (fun p => N.lxor (fst p) (snd p)) (combine a b).
Definition ipad : pybytes := repeat 0x36 64.
Definition opad : pybytes := repeat 0x5C 64.
Definition K0 (key : pybytes) : pybytes :=
  if (64 <? length key)%nat then SHA256.digest key ++ repeat 0 32
  else key ++ repeat 0 (64 - length key).
Definition hmac_sha256 (key text : pybytes) : pybytes :=
  SHA256.digest (xor_bytes (K0 key) opad ++ SHA256.digest (xor_bytes (K0 key) ipad ++ text)).

End HMAC.

(* ===================================================================== *)
(** * Enumerations *)
(* ===================================================================== *)

(** A member of an [Enum] class has a symbolic name and a value; the module
    only ever reads [.value]. *)
Inductive ApiVersion := v2_10_0.

Inductive ActionType :=
| PEOPLE_PROFILE
| DRIVER_PROFILE
| TAXI_PROFILE
| TAXI_DRIVER_MAPPING
| VEHICLE_MODEL_PROFILE
| DRIVER_TRIP_TRANSACTION
| DRIVER_TRIP_SUMMARY
| DRIVER_RECENT_TRIP_SUMMARY
| DRIVER_BLOCK_REASON
| DRIVER_CANCEL_REASON
| DRIVER_CREDIT_DEBIT.

Inductive DateType := CREATE_TIME | CREATE_DATE.
Inductive TransactionType := CREDIT | DEBIT.
Inductive HttpHeader := HMAC_ | AUTH | CSRF.

Definition ApiVersion_value (v : ApiVersion) : pystr :=
  match v with v2_10_0 => str "v2_10_0" end.

Definition ActionType_name (a : ActionType) : pystr :=
  match a with
  | PEOPLE_PROFILE => str "PEOPLE_PROFILE"
  | DRIVER_PROFILE => str "DRIVER_PROFILE"
  | TAXI_PROFILE => str "TAXI_PROFILE"
  | TAXI_DRIVER_MAPPING => str "TAXI_DRIVER_MAPPING"
  | VEHICLE_MODEL_PROFILE => str "VEHICLE_MODEL_PROFILE"
  | DRIVER_TRIP_TRANSACTION => str "DRIVER_TRIP_TRANSACTION"
  | DRIVER_TRIP_SUMMARY => str "DRIVER_TRIP_SUMMARY"
  | DRIVER_RECENT_TRIP_SUMMARY => str "DRIVER_RECENT_TRIP_SUMMARY"
  | DRIVER_BLOCK_REASON => str "DRIVER_BLOCK_REASON"
  | DRIVER_CANCEL_REASON => str "DRIVER_CANCEL_REASON"
  | DRIVER_CREDIT_DEBIT => str "DRIVER_CREDIT_DEBIT"
  end.

(** Every member of [ActionType] is declared as [NAME = "NAME"]. *)
Definition ActionType_value (a : ActionType) : pystr :=
  match a with
  | PEOPLE_PROFILE => str "PEOPLE_PROFILE"
  | DRIVER_PROFILE => str "DRIVER_PROFILE"
  | TAXI_PROFILE => str "TAXI_PROFILE"
  | TAXI_DRIVER_MAPPING => str "TAXI_DRIVER_MAPPING"
  | VEHICLE_MODEL_PROFILE => str "VEHICLE_MODEL_PROFILE"
  | DRIVER_TRIP_TRANSACTION => str "DRIVER_TRIP_TRANSACTION"
  | DRIVER_TRIP_SUMMARY => str "DRIVER_TRIP_SUMMARY"
  | DRIVER_RECENT_TRIP_SUMMARY => str "DRIVER_RECENT_TRIP_SUMMARY"
  | DRIVER_BLOCK_REASON => str "DRIVER_BLOCK_REASON"
  | DRIVER_CANCEL_REASON => str "DRIVER_CANCEL_REASON"
  | DRIVER_CREDIT_DEBIT => str "DRIVER_CREDIT_DEBIT"
  end.

Definition DateType_value (d : DateType) : pystr :=
  match d with
  | CREATE_TIME => str "CREATE_TIME"
  | CREATE_DATE => str "CREATE_DATE"
  end.

Definition TransactionType_value (t : TransactionType) : pystr :=
  match t with
  | CREDIT => str "CREDIT"
  | DEBIT => str "DEBIT"
  end.

Definition HttpHeader_value (h : HttpHeader) : pystr :=
  match h with
  | HMAC_ => str "HMAC"
  | AUTH => str "AUTH"
  | CSRF => str "CSRF"
  end.

(* ===================================================================== *)
(** * The object store *)
(* ===================================================================== *)

(** [id(o)] of an object of the store. *)
Definition loc := positive.

(** What a variable or an attribute holds: an immutable datum, a reference
    to a mutable object, or one of the classes, functions and modules bound
    to a name ([VGlobal], which the module never stores). *)
Inductive value :=
| VNone
| VBool (b : bool)
| VInt (z : Z)
| VFloat (f : pyfloat)
| VStr (s : pystr)
| VRef (l : loc)
| VGlobal (name : pystr).

(** A mutable object: an instance with its class and [__dict__], or a list. *)
Inductive cell :=
| Instance (cls : pystr) (dict : list (pystr * value))
| ListObj (items : list value).

(** What the program does to the outside. *)
Inductive event :=
| EPrint (line : pystr)
| EPost (url body : pystr) (headers : list (pystr * pystr)).

(** What the interpreter brings and the module does not define: the
    conversion of a decimal literal to a [float], the Unicode tables behind
    [str.isidentifier] for code points outside ASCII, and the normal form
    NFKC, to which the parser brings an identifier that is not ASCII. *)
Record Runtime := {
  float_of_literal : pystr -> pyfloat;
  xid_start : N -> bool;
  xid_continue : N -> bool;
  nfkc : pystr -> pystr
}.

(** The outside: what the [n]-th call to it answers.  [requests_post] gives
    the text of the response, or raises. *)
Record Env := {
  runtime : Runtime;
  uuid4 : nat -> pystr;
  now_isoformat : nat -> pystr;
  requests_post : nat -> pystr -> pystr -> list (pystr * pystr) -> result pystr
}.

Record World := {
  heap : gmap loc cell;
  env : Env;
  calls : nat;
  trace : list event
}.

(** ** The monad of the interpreter: state, and exceptions that keep it *)

Definition M (A : Type) : Type := World -> result A * World.

Definition ret {A} (a : A) : M A := fun w => (Ok a, w).
Definition raise {A} (e : exn) : M A := fun w => (Raise e, w).
Definition bind {A B} (m : M A) (k : A -> M B) : M B :=
  fun w => match m w with
           | (Ok a, w') => k a w'
           | (Raise e, w') => (Raise e, w')
           end.
Definition lift {A} (r : result A) : M A := fun w => (r, w).

Notation "'let*' x ':=' c 'in' k" := (bind c (fun x => k))
  (at level 10, x name, c at level 100, k at level 200).
Notation "c ';;' k" := (bind c (fun _ => k))
  (at level 100, k at level 200, right associativity).

Definition set_heap (h : gmap loc cell) (w : World) : World :=
  {| heap := h; env := env w; calls := calls w; trace := trace w |}.
Definition log (e : event) (w : World) : World :=
  {| heap := heap w; env := env w; calls := S (calls w); trace := trace w ++ [e] |}.
Definition tick (w : World) : World :=
  {| heap := heap w; env := env w; calls := S (calls w); trace := trace w |}.

(** A new object gets an identity no live object has. *)
Definition alloc (c : cell) : M value :=
  fun w => let l := fresh (dom (heap w)) in
           (Ok (VRef l), set_heap (<[l := c]> (heap w)) w).

(** [o.name] *)
Definition getattr (o : value) (name : pystr) : M value :=
  fun w => match o with
           | VRef l =>
               match heap w !! l with
               | Some (Instance _ d) =>
                   match dict_get name d with
                   | Some v => (Ok v, w)
                   | None => (Raise AttributeError, w)
                   end
               | _ => (Raise AttributeError, w)
               end
           | _ => (Raise AttributeError, w)
           end.

(** [o.name = v] *)
Definition setattr (o : value) (name : pystr) (v : value) : M unit :=
  fun w => match o with
           | VRef l =>
               match heap w !! l with
               | Some (Instance c d) =>
                   (Ok tt, set_heap (<[l := Instance c (dict_set name v d)]> (heap w)) w)
               | _ => (Raise AttributeError, w)
               end
           | _ => (Raise AttributeError, w)
           end.

(** [o.append(x)] *)
Definition list_append (o : value) (x : value) : M unit :=
  fun w => match o with
           | VRef l =>
               match heap w !! l with
               | Some (ListObj items) =>
                   (Ok tt, set_heap (<[l := ListObj (items ++ [x])]> (heap w)) w)
               | _ => (Raise AttributeError, w)
               end
           | _ => (Raise AttributeError, w)
           end.

(** [print(line)] on a standard output that is a UTF-8 stream with strict
    errors, as it is by default: a line with a surrogate cannot be encoded,
    and nothing of it is written. *)
Definition print (line : pystr) : M unit :=
  fun w => if has_surrogate line then (Raise UnicodeEncodeError, w)
           else (Ok tt, log (EPrint line) w).

(** ['literal' + v] *)
Definition str_add (a : pystr) (v : value) : M pystr :=
  match v with
  | VStr b => ret (a ++ b)
  | _ => raise TypeError
  end.

(** ** Names *)

(** The names the top-level statements of the module bind: its imports, its
    classes and its functions, and [clientConfig]. *)
Definition module_names : list pystr :=
  List.map str
    ["namedtuple"; "Enum"; "datetime"; "hashlib"; "hmac"; "json"; "requests"; "uuid";
     "ApiVersion"; "ActionType"; "DateType"; "TransactionType"; "HttpHeader";
     "json_object_hook"; "json_to_object"; "generate_hmac"; "post_http_request";
     "ClientConfig"; "Sorter"; "Serializer"; "GatewayRequest"; "BaseReportRequest";
     "PeopleProfileReportRequest"; "TaxiProfileReportRequest";
     "VehicleModelProfileReportRequest"; "DriverProfileReportRequest";
     "DriverTripTransactionReportRequest"; "DriverTripSummaryReportRequest";
     "DriverBlockReasonSummaryReportRequest"; "DriverCancelReasonProfileReportRequest";
     "DriverCreditDebitReportRequest"; "process_gateway_request";
     "fetch_people_profile"; "fetch_driver_profile"; "fetch_taxi_profile";
     "fetch_taxi_driver_mapping"; "fetch_vehicle_model_profile";
     "fetch_driver_trip_transaction"; "fetch_driver_trip_summary";
     "fetch_driver_recent_trip_summary"; "fetch_driver_block_reason";
     "fetch_driver_cancel_reason"; "fetch_driver_credit_debit";
     "build_uat_client_config"; "build_stage_client_config"; "build_prod_client_config";
     "clientConfig"; "test_fetch_people_profile"; "test_fetch_driver_profile";
     "test_fetch_driver_trip_transaction"; "test_fetch_driver_trip_summary";
     "test_fetch_driver_block_reason"]%string.

(** The functions and types of [builtins].  [None], [True] and [False] are
    keywords, not names. *)
Definition builtin_names : list pystr :=
  List.map str
    ["abs"; "aiter"; "all"; "anext"; "any"; "ascii"; "bin"; "bool"; "breakpoint";
     "bytearray"; "bytes"; "callable"; "chr"; "classmethod"; "compile"; "complex";
     "delattr"; "dict"; "dir"; "divmod"; "enumerate"; "eval"; "exec"; "exit";
     "filter"; "float"; "format"; "frozenset"; "getattr"; "globals"; "hasattr";
     "hash"; "help"; "hex"; "id"; "input"; "int"; "isinstance"; "issubclass";
     "iter"; "len"; "list"; "locals"; "map"; "max"; "memoryview"; "min"; "next";
     "object"; "oct"; "open"; "ord"; "pow"; "print"; "property"; "quit"; "range";
     "repr"; "reversed"; "round"; "set"; "setattr"; "slice"; "sorted";
     "staticmethod"; "str"; "sum"; "super"; "tuple"; "type"; "vars"; "zip";
     "__import__"; "__build_class__"; "__debug__"; "__name__"; "__doc__";
     "Ellipsis"; "NotImplemented"; "copyright"; "credits"; "license";
     "BaseException"; "Exception"; "ArithmeticError"; "AssertionError";
     "AttributeError"; "BlockingIOError"; "BrokenPipeError"; "BufferError";
     "BytesWarning"; "ChildProcessError"; "ConnectionAbortedError";
     "ConnectionError"; "ConnectionRefusedError"; "ConnectionResetError";
     "DeprecationWarning"; "EOFError"; "EncodingWarning"; "EnvironmentError";
     "FileExistsError"; "FileNotFoundError"; "FloatingPointError"; "FutureWarning";
     "GeneratorExit"; "IOError"; "ImportError"; "ImportWarning"; "IndentationError";
     "IndexError"; "InterruptedError"; "IsADirectoryError"; "KeyError";
     "KeyboardInterrupt"; "LookupError"; "MemoryError"; "ModuleNotFoundError";
     "NameError"; "NotADirectoryError"; "NotImplementedError"; "OSError";
     "OverflowError"; "PendingDeprecationWarning"; "PermissionError";
     "ProcessLookupError"; "RecursionError"; "ReferenceError"; "ResourceWarning";
     "RuntimeError"; "RuntimeWarning"; "StopAsyncIteration"; "StopIteration";
     "SyntaxError"; "SyntaxWarning"; "SystemError"; "SystemExit"; "TabError";
     "TimeoutError"; "TypeError"; "UnboundLocalError"; "UnicodeDecodeError";
     "UnicodeEncodeError"; "UnicodeError"; "UnicodeTranslateError";
     "UnicodeWarning"; "UserWarning"; "ValueError"; "Warning";
     "ZeroDivisionError"; "BaseExceptionGroup"; "ExceptionGroup"]%string.

(** A name that is not a local of the function is looked up in the module's
    globals, then in the builtins; a name bound in neither raises. *)
Definition load_global (name : pystr) : M value :=
  if bool_decide (name ∈ module_names ++ builtin_names)
  then ret (VGlobal name) else raise NameError.

(* ===================================================================== *)
(** * Gateway utils: [generate_hmac] *)
(* ===================================================================== *)

(** [v.encode('utf-8')]: only a [str] has the method. *)
Definition encode (v : value) : result pybytes :=
  match v with
  | VStr s => Codec.encode_utf8 s
  | _ => Raise AttributeError
  end.

(** [generate_hmac(secretKey, rawJson)]: the key is encoded first, then the
    message. *)
Definition generate_hmac (secretKey rawJson : value) : result pystr :=
  match encode secretKey with
  | Raise e => Raise e
  | Ok key =>
      match encode rawJson with
      | Raise e => Raise e
      | Ok msg => Ok (HMAC.hexdigest (HMAC.new key msg))
      end
  end.

(* ===================================================================== *)
(** * Gateway components and requests *)
(* ===================================================================== *)

(** [Cls(args)]: a new instance with an empty [__dict__], then [__init__]. *)
Definition new (cls : pystr) (init : value -> M unit) : M value :=
  let* self := alloc (Instance cls []) in
  init self ;;
  ret self.

Module ClientConfig.
Definition __init__ (self serviceEndpoint hmacSecret authToken csrfToken : value) : M unit :=
  setattr self (str "serviceEndpoint") serviceEndpoint ;;
  setattr self (str "hmacSecret") hmacSecret ;;
  setattr self (str "authToken") authToken ;;
  setattr self (str "csrfToken") csrfToken.
Definition new (serviceEndpoint hmacSecret authToken csrfToken : value) : M value :=
  new (str "ClientConfig")
    (fun self => __init__ self serviceEndpoint hmacSecret authToken csrfToken).
End ClientConfig.

Module Sorter.
Definition __init__ (self field DESC : value) : M unit :=
  setattr self (str "field") field ;;
  setattr self (str "DESC") DESC.
Definition new (field DESC : value) : M value :=
  new (str "Sorter") (fun self => __init__ self field DESC).
End Sorter.

(** The classes that inherit [to_json] from [Serializer]. *)
Definition serializer_classes : list pystr :=
  List.map str
    ["Serializer"; "GatewayRequest"; "BaseReportRequest"; "PeopleProfileReportRequest";
     "TaxiProfileReportRequest"; "VehicleModelProfileReportRequest";
     "DriverProfileReportRequest"; "DriverTripTransactionReportRequest";
     "DriverTripSummaryReportRequest"; "DriverBlockReasonSummaryReportRequest";
     "DriverCancelReasonProfileReportRequest"; "DriverCreditDebitReportRequest"]%string.

(** The tree below a value: what the encoder sees when it walks the store,
    an instance through its [__dict__].  [fuel] bounds the references
    followed on one path; walking a path longer than the store is large
    means an object that contains itself. *)
Fixpoint snapshot (fuel : nat) (h : gmap loc cell) (v : value) : option pyval :=
  match v with
  | VNone => Some PNone
  | VBool b => Some (PBool b)
  | VInt z => Some (PInt z)
  | VFloat f => Some (PFloat f)
  | VStr s => Some (PStr s)
  | VGlobal _ => None
  | VRef l =>
      match fuel with
      | O => None
      | S fuel' =>
          match h !! l with
          | Some (Instance _ d) =>
              PObj <$> mapM (fun kv => pair (fst kv) <$> snapshot fuel' h (snd kv)) d
          | Some (ListObj items) => PList <$> mapM (snapshot fuel' h) items
          | None => None
          end
      end
  end.

(** The tree below a value of the store, with fuel enough for every path
    that does not come back on itself. *)
Definition tree_of (w : World) (v : value) : option pyval :=
  snapshot (S (size (heap w))) (heap w) v.

Module Serializer.
(** [json.dumps(self, default=lambda o: o.__dict__, sort_keys=True, indent=4)].
    The encoder raises [ValueError] on a circular reference. *)
Definition to_json (self : value) : M value :=
  fun w => match tree_of w self with
           | Some t => (Ok (VStr (to_json t)), w)
           | None => (Raise ValueError, w)
           end.
End Serializer.

(** [o.to_json()]: the method is found on the class of [o], unless the
    instance hides it behind a datum of that name, which cannot be called. *)
Definition call_to_json (o : value) : M value :=
  fun w => match o with
           | VRef l =>
               match heap w !! l with
               | Some (Instance cls d) =>
                   match dict_get (str "to_json") d with
                   | Some _ => (Raise TypeError, w)
                   | None =>
                       if bool_decide (cls ∈ serializer_classes)
                       then Serializer.to_json o w
                       else (Raise AttributeError, w)
                   end
               | _ => (Raise AttributeError, w)
               end
           | _ => (Raise AttributeError, w)
           end.

(** [str(uuid.uuid4())] and [datetime.datetime.now().isoformat()] *)
Definition str_uuid4 : M value :=
  fun w => (Ok (VStr (uuid4 (env w) (calls w))), tick w).
Definition datetime_now_isoformat : M value :=
  fun w => (Ok (VStr (now_isoformat (env w) (calls w))), tick w).

Module GatewayRequest.
Definition __init__ (self : value) (actionType : ActionType) (requestData : value) : M unit :=
  setattr self (str "apiVersion") (VStr (ApiVersion_value v2_10_0)) ;;
  let* messageId := str_uuid4 in
  setattr self (str "messageId") messageId ;;
  let* requestDate := datetime_now_isoformat in
  setattr self (str "requestDate") requestDate ;;
  setattr self (str "validateOnly") (VBool false) ;;
  setattr self (str "actionType") (VStr (ActionType_value actionType)) ;;
  setattr self (str "requestData") requestData.
Definition new (actionType : ActionType) (requestData : value) : M value :=
  new (str "GatewayRequest") (fun self => __init__ self actionType requestData).
End GatewayRequest.

Module BaseReportRequest.
Definition __init__ (self : value) : M unit :=
  setattr self (str "fromStaff") (VBool false) ;;
  setattr self (str "fromPortal") (VBool false) ;;
  setattr self (str "pagingEnabled") (VBool true) ;;
  setattr self (str "pageSize") (VInt 10) ;;
  setattr self (str "pageIndex") (VInt 0) ;;
  setattr self (str "exportEnabled") (VBool false) ;;
  let* sorters := alloc (ListObj []) in
  setattr self (str "sorters") sorters.
Definition new : M value := new (str "BaseReportRequest") __init__.
End BaseReportRequest.

Module PeopleProfileReportRequest.
Definition __init__ (self : value) : M unit :=
  BaseReportRequest.__init__ self ;;
  setattr self (str "peopleId") VNone ;;
  setattr self (str "withDriverTripSummary") (VBool false) ;;
  setattr self (str "withoutEmptyDriverTripSummary") (VBool false).
Definition new : M value := new (str "PeopleProfileReportRequest") __init__.
End PeopleProfileReportRequest.

Module TaxiProfileReportRequest.
Definition __init__ (self : value) : M unit :=
  BaseReportRequest.__init__ self ;;
  setattr self (str "taxiId") VNone.
Definition new : M value := new (str "TaxiProfileReportRequest") __init__.
End TaxiProfileReportRequest.

Module VehicleModelProfileReportRequest.
Definition __init__ (self : value) : M unit :=
  BaseReportRequest.__init__ self ;;
  setattr self (str "modelId") VNone.
Definition new : M value := new (str "VehicleModelProfileReportRequest") __init__.
End VehicleModelProfileReportRequest.

Module DriverProfileReportRequest.
Definition __init__ (self : value) : M unit :=
  BaseReportRequest.__init__ self ;;
  setattr self (str "driverId") VNone ;;
  setattr self (str "withDriverTripSummary") (VBool false) ;;
  setattr self (str "withoutEmptyDriverTripSummary") (VBool false).
Definition new : M value := new (str "DriverProfileReportRequest") __init__.
End DriverProfileReportRequest.

Module DriverTripTransactionReportRequest.
Definition __init__ (self : value) : M unit :=
  BaseReportRequest.__init__ self ;;
  setattr self (str "transactionId") VNone ;;
  setattr self (str "driverId") VNone ;;
  setattr self (str "tripId") VNone ;;
  (let* transactionTypes := alloc (ListObj []) in
   setattr self (str "transactionTypes") transactionTypes) ;;
  (let* transactionCategories := alloc (ListObj []) in
   setattr self (str "transactionCategories") transactionCategories) ;;
  setattr self (str "minAmountInRupee") VNone ;;
  setattr self (str "maxAmountInRupee") VNone ;;
  setattr self (str "minAmountInCents") VNone ;;
  setattr self (str "maxAmountInCents") VNone ;;
  setattr self (str "description") VNone ;;
  setattr self (str "dateType") (VStr (DateType_value CREATE_TIME)) ;;
  setattr self (str "fromDate") VNone ;;
  setattr self (str "toDate") VNone ;;
  setattr self (str "createdBy") VNone ;;
  setattr self (str "withDriverProfile") (VBool false).
Definition new : M value := new (str "DriverTripTransactionReportRequest") __init__.
End DriverTripTransactionReportRequest.

Module DriverTripSummaryReportRequest.
Definition __init__ (self : value) : M unit :=
  DriverTripTransactionReportRequest.__init__ self.
Definition new : M value := new (str "DriverTripSummaryReportRequest") __init__.
End DriverTripSummaryReportRequest.

Module DriverBlockReasonSummaryReportRequest.
Definition __init__ (self : value) : M unit :=
  BaseReportRequest.__init__ self ;;
  setattr self (str "driverId") VNone.
Definition new : M value := new (str "DriverBlockReasonSummaryReportRequest") __init__.
End DriverBlockReasonSummaryReportRequest.

Module DriverCancelReasonProfileReportRequest.
Definition __init__ (self : value) : M unit :=
  BaseReportRequest.__init__ self ;;
  setattr self (str "reasonId") VNone.
Definition new : M value := new (str "DriverCancelReasonProfileReportRequest") __init__.
End DriverCancelReasonProfileReportRequest.

Module DriverCreditDebitReportRequest.
(** The right-hand side of the last assignment is the bare name [false]. *)
Definition __init__ (self : value) : M unit :=
  DriverTripTransactionReportRequest.__init__ self ;;
  let* false_ := load_global (str "false") in
  setattr self (str "withTaxiDriverMapping") false_.
Definition new : M value := new (str "DriverCreditDebitReportRequest") __init__.
End DriverCreditDebitReportRequest.

(* ===================================================================== *)
(** * The JSON decoder ([json.loads]) *)
(* ===================================================================== *)

(** The decoder as CPython runs it for a [str]: [JSONDecoder.decode] over
    the scanner of the [_json] accelerator, with its strict [scanstring].
    The recursion of the scanner and its loops take a measure that the
    length of the text bounds (see [loads_raises]); the limits of the
    interpreter on the depth of recursion and on the digits of an integer
    are left out. *)
Module Decoder.

(** [WHITESPACE]: space, tab, line feed, carriage return. *)
Definition is_ws (c : N) : bool :=
  (c =? 32) || (c =? 9) || (c =? 10) || (c =? 13).

Fixpoint skip_ws (s : pystr) : pystr :=
  match s with
  | c :: s' => if is_ws c then skip_ws s' else s
  | [] => []
  end.

Definition is_digit (c : N) : bool := (48 <=? c) && (c <=? 57).

Definition hex_value (c : N) : option N :=
  if (48 <=? c) && (c <=? 57) then Some (c - 48)
  else if (97 <=? c) && (c <=? 102) then Some (c - 87)
  else if (65 <=? c) && (c <=? 70) then Some (c - 55)
  else None.

(** The four digits of a [\uXXXX] escape. *)
Definition hex4 (a b c d : N) : option N :=
  match hex_value a, hex_value b, hex_value c, hex_value d with
  | Some x, Some y, Some z, Some t => Some (((x * 16 + y) * 16 + z) * 16 + t)
  | _, _, _, _ => None
  end.

(** [BACKSLASH]: the one-letter escapes. *)
Definition backslash (c : N) : option N :=
  if c =? 34 then Some 34
  else if c =? 92 then Some 92
  else if c =? 47 then Some 47
  else if c =? 98 then Some 8
  else if c =? 102 then Some 12
  else if c =? 110 then Some 10
  else if c =? 114 then Some 13
  else if c =? 116 then Some 9
  else None.

Definition cons_char (c : N) (r : result (pystr * pystr)) : result (pystr * pystr) :=
  match r with
  | Ok (content, rest) => Ok (c :: content, rest)
  | Raise e => Raise e
  end.

(** [scanstring(s, end, strict=True)] from just after the opening quote:
    the content of the string and what follows the closing quote.  The
    accelerator also asks for a character after the digits of an escape;
    where there is none the string has no closing quote, and the outcome
    is the decode error in both readings. *)
Fixpoint scanstring (s : pystr) : result (pystr * pystr) :=
  match s with
  | [] => Raise JSONDecodeError
  | c :: s1 =>
      if c =? 34 then Ok ([], s1)
      else if c =? 92 then
        match s1 with
        | [] => Raise JSONDecodeError
        | e :: s2 =>
            if e =? 117 then
              match s2 with
              | h1 :: h2 :: h3 :: h4 :: s3 =>
                  match hex4 h1 h2 h3 h4 with
                  | None => Raise JSONDecodeError
                  | Some uni =>
                      if (0xD800 <=? uni) && (uni <=? 0xDBFF) then
                        match s3 with
                        | b :: u :: g1 :: g2 :: g3 :: g4 :: s4 =>
                            if (b =? 92) && (u =? 117) then
                              match hex4 g1 g2 g3 g4 with
                              | None => Raise JSONDecodeError
                              | Some uni2 =>
                                  if (0xDC00 <=? uni2) && (uni2 <=? 0xDFFF) then
                                    cons_char
                                      (0x10000 + N.lor (N.shiftl (uni - 0xD800) 10) (uni2 - 0xDC00))
                                      (scanstring s4)
                                  else cons_char uni (scanstring s3)
                              end
                            else cons_char uni (scanstring s3)
                        | _ => cons_char uni (scanstring s3)
                        end
                      else cons_char uni (scanstring s3)
                  end
              | _ => Raise JSONDecodeError
              end
            else
              match backslash e with
              | Some ch => cons_char ch (scanstring s2)
              | None => Raise JSONDecodeError
              end
        end
      else if c <? 32 then Raise JSONDecodeError
      else cons_char c (scanstring s1)
  end.

(** The longest run of digits at the head of [s], and the rest. *)
Fixpoint span_digits (s : pystr) : pystr * pystr :=
  match s with
  | c :: s' =>
      if is_digit c then let (d, r) := span_digits s' in (c :: d, r) else ([], s)
  | [] => ([], [])
  end.

(** [int(digits)] *)
Definition int_of_digits (ds : pystr) : Z :=
  fold_left (fun acc c => (acc * 10 + Z.of_N (c - 48))%Z) ds 0%Z.

(** The three groups of [NUMBER_RE]: an optional minus sign before a zero
    or before a digit from one to nine and any digits; optionally a point
    and digits; optionally [e] or [E], an optional sign, and digits. *)
Definition match_integer (s : pystr) : option (pystr * pystr) :=
  let (sign, s1) := match s with
                    | c :: s' => if c =? 45 then ([45], s') else ([], s)
                    | [] => ([], s)
                    end in
  match s1 with
  | c :: s2 =>
      if c =? 48 then Some (sign ++ [48], s2)
      else if is_digit c then
        let (d, r) := span_digits s2 in Some (sign ++ c :: d, r)
      else None
  | [] => None
  end.

Definition match_frac (s : pystr) : pystr * pystr :=
  match s with
  | c :: s1 =>
      if c =? 46 then
        match span_digits s1 with
        | ([], _) => ([], s)
        | (d, r) => (46 :: d, r)
        end
      else ([], s)
  | [] => ([], s)
  end.

Definition match_exp (s : pystr) : pystr * pystr :=
  match s with
  | e :: s1 =>
      if (e =? 101) || (e =? 69) then
        let (sign, s2) := match s1 with
                          | c :: s' => if (c =? 45) || (c =? 43) then ([c], s') else ([], s1)
                          | [] => ([], s1)
                          end in
        match span_digits s2 with
        | ([], _) => ([], s)
        | (d, r) => (e :: sign ++ d, r)
        end
      else ([], s)
  | [] => ([], s)
  end.

(** [s.startswith(prefix)], giving what follows. *)
Fixpoint strip_prefix (prefix s : pystr) : option pystr :=
  match prefix, s with
  | [], _ => Some s
  | p :: prefix', c :: s' => if p =? c then strip_prefix prefix' s' else None
  | _ :: _, [] => None
  end.

Section Scanner.
Variable rt : Runtime.
(** The two hooks of the decoder, each of which may be [None]. *)
Variable object_hook : option (list (pystr * pyval) -> result pyval).
Variable object_pairs_hook : option (list (pystr * pyval) -> result pyval).

(** The end of [JSONObject]: [object_pairs_hook] gets the pairs as they were
    read; without it the pairs are made a dict, which [object_hook], if
    there is one, turns into the result. *)
Definition finish_object (pairs : list (pystr * pyval)) : result pyval :=
  match object_pairs_hook with
  | Some hook => hook pairs
  | None =>
      match object_hook with
      | Some hook => hook (dict_of_pairs pairs)
      | None => Ok (PDict (dict_of_pairs pairs))
      end
  end.

(** A number at the head of [s]: an [int] when there is neither fraction
    nor exponent, else [parse_float] of the literal. *)
Definition match_number (s : pystr) : option (pyval * pystr) :=
  match match_integer s with
  | None => None
  | Some (integer, s1) =>
      let (frac, s2) := match_frac s1 in
      let (exp, s3) := match_exp s2 in
      match frac, exp with
      | [], [] =>
          Some (match integer with
                | c :: ds =>
                    if c =? 45 then PInt (- int_of_digits ds)
                    else PInt (int_of_digits integer)
                | [] => PInt 0
                end, s3)
      | _, _ => Some (PFloat (float_of_literal rt (integer ++ frac ++ exp)), s3)
      end
  end.

Section Containers.
(** [scan_once] one level down. *)
Variable scan : pystr -> result (pyval * pystr).

(** The loop of [JSONArray], entered at a value; [n] bounds the
    elements, of which there are fewer than characters. *)
Fixpoint array_items (n : nat) (s : pystr) (acc : list pyval)
  : result (list pyval * pystr) :=
  match n with
  | O => Raise RecursionError
  | S n' =>
      match scan s with
      | Raise e => Raise e
      | Ok (v, s1) =>
          match skip_ws s1 with
          | c :: s2 =>
              if c =? 93 then Ok (rev (v :: acc), s2)
              else if c =? 44 then array_items n' (skip_ws s2) (v :: acc)
              else Raise JSONDecodeError
          | [] => Raise JSONDecodeError
          end
      end
  end.

(** [JSONArray] from just after the bracket. *)
Definition parse_array (s : pystr) : result (pyval * pystr) :=
  match skip_ws s with
  | c :: s1 =>
      if c =? 93 then Ok (PList [], s1)
      else
        match array_items (S (length s)) (skip_ws s) [] with
        | Ok (l, r) => Ok (PList l, r)
        | Raise e => Raise e
        end
  | [] => Raise JSONDecodeError
  end.

(** The loop of [JSONObject], entered just after the quote that opens
    a key. *)
Fixpoint object_pairs (n : nat) (s : pystr) (acc : list (pystr * pyval))
  : result (list (pystr * pyval) * pystr) :=
  match n with
  | O => Raise RecursionError
  | S n' =>
      match scanstring s with
      | Raise e => Raise e
      | Ok (key, s1) =>
          match skip_ws s1 with
          | c :: s2 =>
              if c =? 58 then
                match scan (skip_ws s2) with
                | Raise e => Raise e
                | Ok (v, s3) =>
                    match skip_ws s3 with
                    | c' :: s4 =>
                        if c' =? 125 then Ok (rev ((key, v) :: acc), s4)
                        else if c' =? 44 then
                          match skip_ws s4 with
                          | q :: s5 =>
                              if q =? 34 then object_pairs n' s5 ((key, v) :: acc)
                              else Raise JSONDecodeError
                          | [] => Raise JSONDecodeError
                          end
                        else Raise JSONDecodeError
                    | [] => Raise JSONDecodeError
                    end
                end
              else Raise JSONDecodeError
          | [] => Raise JSONDecodeError
          end
      end
  end.

(** [JSONObject] from just after the brace. *)
Definition parse_object (s : pystr) : result (pyval * pystr) :=
  match skip_ws s with
  | c :: s1 =>
      if c =? 125 then
        match finish_object [] with
        | Ok o => Ok (o, s1)
        | Raise e => Raise e
        end
      else if c =? 34 then
        match object_pairs (S (length s)) s1 [] with
        | Raise e => Raise e
        | Ok (pairs, r) =>
            match finish_object pairs with
            | Ok o => Ok (o, r)
            | Raise e => Raise e
            end
        end
      else Raise JSONDecodeError
  | [] => Raise JSONDecodeError
  end.
End Containers.

(** [scan_once(string, idx)]; [fuel] bounds the nesting.  Running out of
    values to scan is the [StopIteration] that [raw_decode] and the
    containers turn into a [JSONDecodeError]. *)
Fixpoint scan_once (fuel : nat) (s : pystr) : result (pyval * pystr) :=
  match fuel with
  | O => Raise RecursionError
  | S fuel' =>
      match s with
      | [] => Raise JSONDecodeError
      | c :: s1 =>
          if c =? 34 then
            match scanstring s1 with
            | Ok (content, r) => Ok (PStr content, r)
            | Raise e => Raise e
            end
          else if c =? 123 then parse_object (scan_once fuel') s1
          else if c =? 91 then parse_array (scan_once fuel') s1
          else
            match strip_prefix (str "null") s, strip_prefix (str "true") s,
                  strip_prefix (str "false") s with
            | Some r, _, _ => Ok (PNone, r)
            | _, Some r, _ => Ok (PBool true, r)
            | _, _, Some r => Ok (PBool false, r)
            | None, None, None =>
                match match_number s with
                | Some (v, r) => Ok (v, r)
                | None =>
                    match strip_prefix (str "NaN") s, strip_prefix (str "Infinity") s,
                          strip_prefix (str "-Infinity") s with
                    | Some r, _, _ => Ok (PFloat FNan, r)
                    | _, Some r, _ => Ok (PFloat FInf, r)
                    | _, _, Some r => Ok (PFloat FNegInf, r)
                    | None, None, None => Raise JSONDecodeError
                    end
                end
            end
      end
  end.

(** [json.loads(s, object_hook=object_hook,
    object_pairs_hook=object_pairs_hook)] for a [str]: no byte order mark,
    one value between optional whitespace, nothing after it. *)
Definition loads (s : pystr) : result pyval :=
  if match s with c :: _ => c =? 0xFEFF | [] => false end
  then Raise JSONDecodeError
  else
    match scan_once (S (length s)) (skip_ws s) with
    | Raise e => Raise e
    | Ok (obj, r) =>
        match skip_ws r with
        | [] => Ok obj
        | _ :: _ => Raise JSONDecodeError
        end
    end.
End Scanner.

(** A hook for [object_pairs_hook] that keeps the members of an object as
    they are written, repeated names included. *)
Definition members_hook (pairs : list (pystr * pyval)) : result pyval := Ok (PDict pairs).

End Decoder.

(* ===================================================================== *)
(** * [namedtuple] and [json_object_hook] *)
(* ===================================================================== *)

Module NamedTuple.

Definition is_ascii_letter (c : N) : bool :=
  ((65 <=? c) && (c <=? 90)) || ((97 <=? c) && (c <=? 122)).

Section WithRuntime.
Variable rt : Runtime.

Definition id_start (c : N) : bool :=
  if c <? 128 then is_ascii_letter c || (c =? 95) else xid_start rt c.
Definition id_continue (c : N) : bool :=
  if c <? 128 then is_ascii_letter c || Decoder.is_digit c || (c =? 95)
  else xid_continue rt c.

(** [name.isidentifier()] *)
Definition isidentifier (name : pystr) : bool :=
  match name with
  | [] => false
  | c :: rest => id_start c && forallb id_continue rest
  end.
End WithRuntime.

(** [keyword.kwlist] *)
Definition kwlist : list pystr :=
  List.map str
    ["False"; "None"; "True"; "and"; "as"; "assert"; "async"; "await"; "break";
     "class"; "continue"; "def"; "del"; "elif"; "else"; "except"; "finally";
     "for"; "from"; "global"; "if"; "import"; "in"; "is"; "lambda"; "nonlocal";
     "not"; "or"; "pass"; "raise"; "return"; "try"; "while"; "with"; "yield"]%string.

Definition iskeyword (name : pystr) : bool := bool_decide (name ∈ kwlist).

Definition startswith_underscore (name : pystr) : bool :=
  match name with
  | c :: _ => c =? 95
  | [] => false
  end.

(** The second loop of [namedtuple]: no leading underscore, no name
    twice. *)
Fixpoint check_seen (seen names : list pystr) : bool :=
  match names with
  | [] => true
  | name :: rest =>
      negb (startswith_underscore name) && negb (bool_decide (name ∈ seen))
      && check_seen (name :: seen) rest
  end.

(** What [namedtuple(typename, field_names)] asks of its names, with
    [rename=False]; it raises [ValueError] otherwise. *)
Definition valid_names (rt : Runtime) (typename : pystr) (field_names : list pystr) : bool :=
  forallb (fun name => isidentifier rt name && negb (iskeyword name)) (typename :: field_names)
  && check_seen [] field_names.

(** The name the parser makes of an identifier: itself when it is ASCII,
    else its normal form NFKC. *)
Definition normalize (rt : Runtime) (name : pystr) : pystr :=
  if isascii name then name else nfkc rt name.

(** [namedtuple] then evaluates the text
    [lambda _cls, <field names>: _tuple_new(_cls, (<field names>))] for
    [__new__].  The parser, which normalizes the names, raises
    [SyntaxError] when two arguments have one name. *)
Definition distinct_arguments (rt : Runtime) (field_names : list pystr) : bool :=
  bool_decide (NoDup (str "_cls" :: List.map (normalize rt) field_names)).

End NamedTuple.

(** [json_object_hook(rawJson)]:
    the class [namedtuple('Class', rawJson.keys())] applied to the values
    of [rawJson], in order. *)
Definition json_object_hook (rt : Runtime) (rawJson : list (pystr * pyval)) : result pyval :=
  if NamedTuple.valid_names rt (str "Class") (keys rawJson)
  then
    if NamedTuple.distinct_arguments rt (keys rawJson)
    then Ok (PTuple (keys rawJson) (values rawJson))
    else Raise SyntaxError
  else Raise ValueError.

(** [json_to_object(rawJson)]: [json.loads] wants a [str] (or bytes, which
    the module never passes). *)
Definition json_to_object (rt : Runtime) (rawJson : value) : result pyval :=
  match rawJson with
  | VStr s => Decoder.loads rt (Some (json_object_hook rt)) None s
  | _ => Raise TypeError
  end.

(** [o.name] on a decoded tree, for a [name] that is no method of the
    builtin types ([responseData] is none): only an instance of a
    namedtuple class has fields. *)
Definition getattr_tree (o : pyval) (name : pystr) : result pyval :=
  match o with
  | PTuple fields items =>
      match dict_get name (combine fields items) with
      | Some v => Ok v
      | None => Raise AttributeError
      end
  | _ => Raise AttributeError
  end.

(* ===================================================================== *)
(** * Gateway utils: [post_http_request] *)
(* ===================================================================== *)

(** [requests.post(httpUrl, data=httpBody, headers=httpHeaders).text]: the
    request is made, and the outside answers or raises. *)
Definition requests_post_text (url body : pystr) (headers : list (pystr * pystr)) : M pystr :=
  fun w => (requests_post (env w) (calls w) url body headers,
            log (EPost url body headers) w).

Definition as_str (v : value) : M pystr :=
  match v with
  | VStr s => ret s
  | _ => raise TypeError
  end.

Definition post_http_request (httpUrl httpBody hmac : value) : M value :=
  (let* line := str_add (str "Http url: ") httpUrl in print line) ;;
  (let* line := str_add (str "Http header: HMAC: ") hmac in print line) ;;
  (let* line := str_add (str "Http body: ") httpBody in print line) ;;
  let* url := as_str httpUrl in
  let* body := as_str httpBody in
  let* sig := as_str hmac in
  let httpHeaders := [(str "Content-Type", str "application/json");
                      (HttpHeader_value HMAC_, sig)] in
  let* text := requests_post_text url body httpHeaders in
  print (str "Http response: " ++ text) ;;
  ret (VStr text).

(* ===================================================================== *)
(** * Gateway helpers *)
(* ===================================================================== *)

Definition process_gateway_request (clientConfig gatewayRequest : value) : M pyval :=
  let* rawRequest := call_to_json gatewayRequest in
  let* hmacSecret := getattr clientConfig (str "hmacSecret") in
  let* hmac := lift (generate_hmac hmacSecret rawRequest) in
  let* serviceEndpoint := getattr clientConfig (str "serviceEndpoint") in
  let* rawResponse := post_http_request serviceEndpoint rawRequest (VStr hmac) in
  fun w => (json_to_object (runtime (env w)) rawResponse, w).

(** The body shared by the eleven [fetch_*] functions, which differ in the
    member of [ActionType] only. *)
Definition fetch (actionType : ActionType) (clientConfig reportRequest : value) : M pyval :=
  let* gatewayRequest := GatewayRequest.new actionType reportRequest in
  let* gatewayResponse := process_gateway_request clientConfig gatewayRequest in
  lift (getattr_tree gatewayResponse (str "responseData")).

Definition fetch_people_profile := fetch PEOPLE_PROFILE.
Definition fetch_driver_profile := fetch DRIVER_PROFILE.
Definition fetch_taxi_profile := fetch TAXI_PROFILE.
Definition fetch_taxi_driver_mapping := fetch TAXI_DRIVER_MAPPING.
Definition fetch_vehicle_model_profile := fetch VEHICLE_MODEL_PROFILE.
Definition fetch_driver_trip_transaction := fetch DRIVER_TRIP_TRANSACTION.
Definition fetch_driver_trip_summary := fetch DRIVER_TRIP_SUMMARY.
Definition fetch_driver_recent_trip_summary := fetch DRIVER_RECENT_TRIP_SUMMARY.
Definition fetch_driver_block_reason := fetch DRIVER_BLOCK_REASON.
Definition fetch_driver_cancel_reason := fetch DRIVER_CANCEL_REASON.
Definition fetch_driver_credit_debit := fetch DRIVER_CREDIT_DEBIT.

(** [build_uat_client_config()] *)
Definition build_uat_client_config : M value :=
  ClientConfig.new (VStr (str "http://146.148.110.253:8080/proxy/finance/reporting"))
                   (VStr (str "keep-this-secret")) VNone VNone.

(* ===================================================================== *)
(** * What the claims speak of *)
(* ===================================================================== *)

(** ** JSON texts

    The grammar of RFC 8259, on code points.  Insignificant whitespace is
    allowed before and after each of the six structural characters; a value
    itself starts and ends without any.  With [ext] set the grammar also has
    the three constants that Python's decoder takes for values. *)
Module RFC8259.

Definition ws (s : pystr) : Prop :=
  Forall (fun c => c = 32 \/ c = 9 \/ c = 10 \/ c = 13) s.

Definition digit (c : N) : Prop := 48 <= c <= 57.

Definition digits (s : pystr) : Prop := s <> [] /\ Forall digit s.

(** [int = zero / ( digit1-9 *DIGIT )] *)
Definition int_part (s : pystr) : Prop :=
  s = [48] \/ exists c ds, s = c :: ds /\ 49 <= c <= 57 /\ Forall digit ds.

(** [frac = decimal-point 1*DIGIT] *)
Definition frac (s : pystr) : Prop := exists ds, s = 46 :: ds /\ digits ds.

(** [exp = e [ minus / plus ] 1*DIGIT] *)
Definition exp (s : pystr) : Prop :=
  exists e sign ds,
    s = e :: sign ++ ds /\ (e = 101 \/ e = 69)
    /\ (sign = [] \/ sign = [45] \/ sign = [43]) /\ digits ds.

(** [number = [ minus ] int [ frac ] [ exp ]] *)
Definition number (s : pystr) : Prop :=
  exists sign i f e,
    s = sign ++ i ++ f ++ e /\ (sign = [] \/ sign = [45]) /\ int_part i
    /\ (f = [] \/ frac f) /\ (e = [] \/ exp e).

Definition hexdig (c : N) : Prop :=
  48 <= c <= 57 \/ 65 <= c <= 70 \/ 97 <= c <= 102.

(** The characters between the quotation marks of a string: unescaped ones,
    two-character escapes, and [\\uXXXX]. *)
Inductive chars : pystr -> Prop :=
| chars_nil : chars []
| chars_unescaped c s :
    32 <= c -> c <> 34 -> c <> 92 -> chars s -> chars (c :: s)
| chars_escape c s :
    c ∈ [34; 92; 47; 98; 102; 110; 114; 116] -> chars s -> chars (92 :: c :: s)
| chars_unicode h1 h2 h3 h4 s :
    hexdig h1 -> hexdig h2 -> hexdig h3 -> hexdig h4 -> chars s ->
    chars (92 :: 117 :: h1 :: h2 :: h3 :: h4 :: s).

Inductive value (ext : bool) : pystr -> Prop :=
| value_false : value ext (str "false")
| value_null : value ext (str "null")
| value_true : value ext (str "true")
| value_number s : number s -> value ext s
| value_string s : chars s -> value ext (34 :: s ++ [34])
| value_array_empty w : ws w -> value ext (91 :: w ++ [93])
| value_array w els w' :
    ws w -> elements ext els -> ws w' -> value ext (91 :: w ++ els ++ w' ++ [93])
| value_object_empty w : ws w -> value ext (123 :: w ++ [125])
| value_object w ms w' :
    ws w -> members ext ms -> ws w' -> value ext (123 :: w ++ ms ++ w' ++ [125])
| value_constant s :
    ext = true -> s ∈ [str "NaN"; str "Infinity"; str "-Infinity"] -> value ext s
with elements (ext : bool) : pystr -> Prop :=
| elements_one v : value ext v -> elements ext v
| elements_more v w w' els :
    value ext v -> ws w -> ws w' -> elements ext els ->
    elements ext (v ++ w ++ [44] ++ w' ++ els)
with members (ext : bool) : pystr -> Prop :=
| members_one k w w' v :
    chars k -> ws w -> ws w' -> value ext v ->
    members ext (34 :: k ++ [34] ++ w ++ [58] ++ w' ++ v)
| members_more k w w' v w1 w2 ms :
    chars k -> ws w -> ws w' -> value ext v -> ws w1 -> ws w2 -> members ext ms ->
    members ext (34 :: k ++ [34] ++ w ++ [58] ++ w' ++ v ++ w1 ++ [44] ++ w2 ++ ms).

(** [JSON-text = ws value ws] *)
Definition text (ext : bool) (s : pystr) : Prop :=
  exists w v w', s = w ++ v ++ w' /\ ws w /\ value ext v /\ ws w'.

End RFC8259.

(** A value is well formed when the keys of each of its dicts are distinct,
    as the keys of a Python dict are. *)
Fixpoint wf_val (v : pyval) : bool :=
  match v with
  | PList l => forallb wf_val l
  | PTuple _ l => forallb wf_val l
  | PDict d => bool_decide (NoDup (keys d)) && forallb (fun kv => wf_val (snd kv)) d
  | PObj d => bool_decide (NoDup (keys d)) && forallb (fun kv => wf_val (snd kv)) d
  | _ => true
  end.

(** Two values have identical field sets and field values: they are equal
    but for the order in which the items of their dicts were inserted. *)
Inductive same_fields : pyval -> pyval -> Prop :=
| sf_none : same_fields PNone PNone
| sf_bool b : same_fields (PBool b) (PBool b)
| sf_int z : same_fields (PInt z) (PInt z)
| sf_float f : same_fields (PFloat f) (PFloat f)
| sf_str s : same_fields (PStr s) (PStr s)
| sf_list l1 l2 :
    Forall2 same_fields l1 l2 -> same_fields (PList l1) (PList l2)
| sf_tuple fs l1 l2 :
    Forall2 same_fields l1 l2 -> same_fields (PTuple fs l1) (PTuple fs l2)
| sf_dict d1 d2 :
    (forall k, option_Forall2 same_fields (dict_get k d1) (dict_get k d2)) ->
    same_fields (PDict d1) (PDict d2)
| sf_obj d1 d2 :
    (forall k, option_Forall2 same_fields (dict_get k d1) (dict_get k d2)) ->
    same_fields (PObj d1) (PObj d2).

(** What a call leaves of the world it started in: every object that was
    there, and the outside untouched. *)
Definition extends (w w' : World) : Prop :=
  heap w ⊆ heap w' /\ env w' = env w /\ calls w' = calls w /\ trace w' = trace w.

(** [ctor()] returns a new object whose tree is [t]. *)
Definition constructs (ctor : M value) (t : pyval) : Prop :=
  forall w, exists l w',
    ctor w = (Ok (VRef l), w') /\ heap w !! l = None /\ extends w w'
    /\ tree_of w' (VRef l) = Some t.

(** The items [BaseReportRequest.__init__] leaves in a new object. *)
Definition BaseReportRequest_defaults : list (pystr * pyval) :=
  [(str "fromStaff", PBool false); (str "fromPortal", PBool false);
   (str "pagingEnabled", PBool true); (str "pageSize", PInt 10);
   (str "pageIndex", PInt 0); (str "exportEnabled", PBool false);
   (str "sorters", PList [])].

(** The tree of a new [DriverTripTransactionReportRequest], and of a new
    [DriverTripSummaryReportRequest]. *)
Definition DriverTripTransactionReportRequest_defaults : list (pystr * pyval) :=
  BaseReportRequest_defaults ++
  [(str "transactionId", PNone); (str "driverId", PNone); (str "tripId", PNone);
   (str "transactionTypes", PList []); (str "transactionCategories", PList []);
   (str "minAmountInRupee", PNone); (str "maxAmountInRupee", PNone);
   (str "minAmountInCents", PNone); (str "maxAmountInCents", PNone);
   (str "description", PNone); (str "dateType", PStr (str "CREATE_TIME"));
   (str "fromDate", PNone); (str "toDate", PNone); (str "createdBy", PNone);
   (str "withDriverProfile", PBool false)].

Definition PeopleProfileReportRequest_defaults : list (pystr * pyval) :=
  BaseReportRequest_defaults ++
  [(str "peopleId", PNone); (str "withDriverTripSummary", PBool false);
   (str "withoutEmptyDriverTripSummary", PBool false)].

Definition TaxiProfileReportRequest_defaults : list (pystr * pyval) :=
  BaseReportRequest_defaults ++ [(str "taxiId", PNone)].

Definition VehicleModelProfileReportRequest_defaults : list (pystr * pyval) :=
  BaseReportRequest_defaults ++ [(str "modelId", PNone)].

Definition DriverProfileReportRequest_defaults : list (pystr * pyval) :=
  BaseReportRequest_defaults ++
  [(str "driverId", PNone); (str "withDriverTripSummary", PBool false);
   (str "withoutEmptyDriverTripSummary", PBool false)].

Definition DriverBlockReasonSummaryReportRequest_defaults : list (pystr * pyval) :=
  BaseReportRequest_defaults ++ [(str "driverId", PNone)].

Definition DriverCancelReasonProfileReportRequest_defaults : list (pystr * pyval) :=
  BaseReportRequest_defaults ++ [(str "reasonId", PNone)].

(** The documented defaults of paging. *)
Definition paging_defaults (d : list (pystr * pyval)) : Prop :=
  dict_get (str "pagingEnabled") d = Some (PBool true)
  /\ dict_get (str "pageSize") d = Some (PInt 10)
  /\ dict_get (str "pageIndex") d = Some (PInt 0).

(** An attribute that holds [None], or an empty sequence. *)
Definition unset_or_empty (name : pystr) (d : list (pystr * pyval)) : Prop :=
  dict_get name d = Some PNone \/ dict_get name d = Some (PList []).

(** [ctor()] returns a new object whose items satisfy [P]. *)
Definition fresh_has (ctor : M value) (P : list (pystr * pyval) -> Prop) : Prop :=
  forall w, exists l w' d,
    ctor w = (Ok (VRef l), w') /\ heap w !! l = None
    /\ tree_of w' (VRef l) = Some (PObj d) /\ P d.

(** The optional filters of a trip transaction request: identifiers, amount
    ranges, description, date range, author, and types and categories. *)
Definition trip_transaction_filters : list pystr :=
  List.map str
    ["transactionId"; "driverId"; "tripId"; "minAmountInRupee"; "maxAmountInRupee";
     "minAmountInCents"; "maxAmountInCents"; "description"; "fromDate"; "toDate";
     "createdBy"; "transactionTypes"; "transactionCategories"]%string.

(** The text of an envelope, as the gateway documents it: the six fields in
    alphabetical order, one to a line, the request as a nested object. *)
Definition envelope_text (actionType messageId requestDate requestData : pystr) : pystr :=
  jstr "{" ++ [10]
  ++ jstr "    'actionType': " ++ Encoder.encode_basestring_ascii actionType ++ jstr "," ++ [10]
  ++ jstr "    'apiVersion': 'v2_10_0'," ++ [10]
  ++ jstr "    'messageId': " ++ Encoder.encode_basestring_ascii messageId ++ jstr "," ++ [10]
  ++ jstr "    'requestData': " ++ requestData ++ jstr "," ++ [10]
  ++ jstr "    'requestDate': " ++ Encoder.encode_basestring_ascii requestDate ++ jstr "," ++ [10]
  ++ jstr "    'validateOnly': false" ++ [10]
  ++ jstr "}".

(** ** UTF-8 *)

Module RFC3629.
(** The octets of a character, after the table of section 3 of RFC 3629,
    in which the bits of the character number fill the places marked x:
    0xxxxxxx up to 7F; 110xxxxx 10xxxxxx up to 7FF; 1110xxxx 10xxxxxx
    10xxxxxx up to FFFF; 11110xxx 10xxxxxx 10xxxxxx 10xxxxxx up to 10FFFF.
    The surrogates, D800 to DFFF, are no characters. *)
Inductive char_octets : N -> pybytes -> Prop :=
| octets_1 c : c <= 0x7F -> char_octets c [c]
| octets_2 c :
    0x80 <= c <= 0x7FF -> char_octets c [0xC0 + c / 64; 0x80 + c mod 64]
| octets_3 c :
    0x800 <= c <= 0xFFFF -> ~ (0xD800 <= c <= 0xDFFF) ->
    char_octets c [0xE0 + c / 4096; 0x80 + (c / 64) mod 64; 0x80 + c mod 64]
| octets_4 c :
    0x10000 <= c <= 0x10FFFF ->
    char_octets c [0xF0 + c / 262144; 0x80 + (c / 4096) mod 64;
                   0x80 + (c / 64) mod 64; 0x80 + c mod 64].

(** The octets of a string: those of its characters, in order. *)
Inductive octets : pystr -> pybytes -> Prop :=
| octets_nil : octets [] []
| octets_cons c s b bs :
    char_octets c b -> octets s bs -> octets (c :: s) (b ++ bs).
End RFC3629.

(** ** A world to run examples in *)

(** A runtime that keeps the literal of a float for its [repr] and knows no
    identifier character outside ASCII. *)
Definition example_runtime : Runtime :=
  {| float_of_literal := FFinite;
     xid_start := fun _ => false;
     xid_continue := fun _ => false;
     nfkc := fun name => name |}.

(** A runtime that knows two letters outside ASCII, the micro sign and the
    Greek small letter mu, the first of which NFKC turns into the second. *)
Definition micro_runtime : Runtime :=
  {| float_of_literal := FFinite;
     xid_start := fun c => (c =? 0xB5) || (c =? 0x3BC);
     xid_continue := fun c => (c =? 0xB5) || (c =? 0x3BC);
     nfkc := List.map (fun c => if c =? 0xB5 then 0x3BC else c) |}.

(** An outside with one identifier, one date, and a gateway that answers
    every request with an empty list of transactions. *)
Definition example_env : Env :=
  {| runtime := example_runtime;
     uuid4 := fun _ => str "00000000-0000-4000-8000-000000000000";
     now_isoformat := fun _ => str "2019-01-01T00:00:00.000000";
     requests_post := fun _ _ _ _ => Ok (jstr "{'responseData':{'transactions':[]}}") |}.

Definition example_world : World :=
  {| heap := ∅; env := example_env; calls := 0; trace := [] |}.

(** ** Decoded trees *)

(** What [json_object_hook] makes of a decoded tree: every dict becomes an
    instance of a namedtuple class, its keys the field names. *)
Fixpoint as_namedtuples (j : pyval) : pyval :=
  match j with
  | PList l => PList (List.map as_namedtuples l)
  | PDict d => PTuple (keys d) (List.map (fun kv => as_namedtuples (snd kv)) d)
  | _ => j
  end.

(** The keys of every dict of the tree are names [namedtuple] accepts, and
    names the parser tells apart. *)
Fixpoint names_valid (rt : Runtime) (j : pyval) : bool :=
  match j with
  | PList l => forallb (names_valid rt) l
  | PDict d =>
      NamedTuple.valid_names rt (str "Class") (keys d)
      && NamedTuple.distinct_arguments rt (keys d)
      && forallb (fun kv => names_valid rt (snd kv)) d
  | _ => true
  end.

(** A decoded tree without its keys: every dict gives way to the list of its
    values. *)
Fixpoint values_only (j : pyval) : pyval :=
  match j with
  | PList l => PList (List.map values_only l)
  | PDict d => PList (List.map (fun kv => values_only (snd kv)) d)
  | _ => j
  end.

(** A function on the values of the items of a dict. *)
Definition on_values {A B} (f : A -> B) (kv : pystr * A) : pystr * B := (fst kv, f (snd kv)).

(** What the decoder without hooks makes of a tree read with the members
    kept: the members of every object go through [dict], which keeps, of the
    members of one name, the place of the first and the value of the last. *)
Fixpoint as_dicts (m : pyval) : pyval :=
  match m with
  | PList l => PList (List.map as_dicts l)
  | PDict ms => PDict (dict_of_pairs (List.map (fun kv => (fst kv, as_dicts (snd kv))) ms))
  | _ => m
  end.

(** No object of the tree has two members of one name. *)
Fixpoint names_distinct (m : pyval) : bool :=
  match m with
  | PList l => forallb names_distinct l
  | PDict ms =>
      bool_decide (NoDup (keys ms)) && forallb (fun kv => names_distinct (snd kv)) ms
  | _ => true
  end.

(** The member of [j] reached by going down the objects along [path]. *)
Fixpoint member_path (j : pyval) (path : list pystr) : option pyval :=
  match path with
  | [] => Some j
  | name :: path' =>
      match j with
      | PDict d =>
          match dict_get name d with
          | Some v => member_path v path'
          | None => None
          end
      | _ => None
      end
  end.

(** [o.name1.name2...] for the names of [path]. *)
Fixpoint getattr_path (o : pyval) (path : list pystr) : result pyval :=
  match path with
  | [] => Ok o
  | name :: path' =>
      match getattr_tree o name with
      | Ok v => getattr_path v path'
      | Raise e => Raise e
      end
  end.

(** ** Scanners *)

(** A scanner is sound when what it consumes is a JSON value. *)
Definition scan_sound (scan : pystr -> result (pyval * pystr)) : Prop :=
  forall s v r, scan s = Ok (v, r) -> exists pre, s = pre ++ r /\ RFC8259.value true pre.

(** A scanner with [json_object_hook] returns what the scanner that keeps
    the members returns, made into namedtuples, when the names are
    valid... *)
Definition hook_complete (rt : Runtime)
    (scan_m scan_h : pystr -> result (pyval * pystr)) : Prop :=
  forall s j r, scan_m s = Ok (j, r) -> names_valid rt j = true ->
                scan_h s = Ok (as_namedtuples j, r).

(** ... and returns nothing but what the scanner without hooks returns,
    made into namedtuples. *)
Definition hook_sound (scan_p scan_h : pystr -> result (pyval * pystr)) : Prop :=
  forall s v r, scan_h s = Ok (v, r) ->
                exists j, scan_p s = Ok (j, r) /\ v = as_namedtuples j.

(** A scanner without hooks returns what the scanner that keeps the
    members returns, its objects made dicts. *)
Definition dicts_sound (scan_m scan_p : pystr -> result (pyval * pystr)) : Prop :=
  forall s j r, scan_p s = Ok (j, r) -> exists m, scan_m s = Ok (m, r) /\ j = as_dicts m.

(** ** A session *)

(** A session of a client: the configuration of the UAT gateway, a request
    for trip transactions as the constructor leaves it, and the call. *)
Definition example_session : M pyval :=
  let* clientConfig := build_uat_client_config in
  let* reportRequest := DriverTripTransactionReportRequest.new in
  fetch_driver_trip_transaction clientConfig reportRequest.

(** A world like [example_world], whose gateway answers every request with
    [response]. *)
Definition gateway_answering (response : pystr) : World :=
  {| heap := ∅;
     env := {| runtime := example_runtime;
               uuid4 := uuid4 example_env;
               now_isoformat := now_isoformat example_env;
               requests_post := fun _ _ _ _ => Ok response |};
     calls := 0;
     trace := [] |}.

(** ** Sorted items *)

(** The order of [sorted] on items. *)
Definition key_lt {A} (kv kv' : pystr * A) : Prop := str_ltb (fst kv) (fst kv') = true.

(** ** Running a constructor *)

Abbreviation mkW h e n t := {| heap := h; env := e; calls := n; trace := t |}.

(** The attributes of an instance after [BaseReportRequest.__init__], which
    found it with the attributes [d] and made the list [sorters]. *)
Definition BaseReportRequest_fields (sorters : value) (d : list (pystr * value)) :=
  dict_set (str "sorters") sorters
    (dict_set (str "exportEnabled") (VBool false)
       (dict_set (str "pageIndex") (VInt 0)
          (dict_set (str "pageSize") (VInt 10)
             (dict_set (str "pagingEnabled") (VBool true)
                (dict_set (str "fromPortal") (VBool false)
                   (dict_set (str "fromStaff") (VBool false) d)))))).

(** The same for what [DriverTripTransactionReportRequest.__init__] does
    after the call of the initializer of the base class. *)
Definition DriverTripTransactionReportRequest_fields
    (transactionTypes transactionCategories : value) (d : list (pystr * value)) :=
  dict_set (str "withDriverProfile") (VBool false)
    (dict_set (str "createdBy") VNone
       (dict_set (str "toDate") VNone
          (dict_set (str "fromDate") VNone
             (dict_set (str "dateType") (VStr (str "CREATE_TIME"))
                (dict_set (str "description") VNone
                   (dict_set (str "maxAmountInCents") VNone
                      (dict_set (str "minAmountInCents") VNone
                         (dict_set (str "maxAmountInRupee") VNone
                            (dict_set (str "minAmountInRupee") VNone
                               (dict_set (str "transactionCategories") transactionCategories
                                  (dict_set (str "transactionTypes") transactionTypes
                                     (dict_set (str "tripId") VNone
                                        (dict_set (str "driverId") VNone
                                           (dict_set (str "transactionId") VNone d)))))))))))))).

(* ===================================================================== *)

(** ** What the further properties speak of *)

(* ===================================================================== *)

(** Every string, every key and every float of a tree passes a test. *)
Fixpoint tree_forall (Ps : pystr -> bool) (Pf : pyfloat -> bool) (t : pyval) : bool :=
  match t with
  | PStr s => Ps s
  | PFloat f => Pf f
  | PList l => forallb (tree_forall Ps Pf) l
  | PTuple _ l => forallb (tree_forall Ps Pf) l
  | PDict d => forallb (fun kv => Ps (fst kv) && tree_forall Ps Pf (snd kv)) d
  | PObj d => forallb (fun kv => Ps (fst kv) && tree_forall Ps Pf (snd kv)) d
  | _ => true
  end.

(** The [repr] of a float is written in ASCII. *)
Definition float_isascii (f : pyfloat) : bool :=
  match f with
  | FFinite r => isascii r
  | _ => true
  end.

(* ===================================================================== *)

(** The headers [post_http_request] sends with a signature. *)
Definition http_headers (sig : pystr) : list (pystr * pystr) :=
  [(str "Content-Type", str "application/json"); (HttpHeader_value HMAC_, sig)].

(** The tree of an envelope. *)
Definition envelope_tree (actionType messageId requestDate : pystr) (requestData : pyval)
  : pyval :=
  PObj [(str "apiVersion", PStr (ApiVersion_value v2_10_0));
        (str "messageId", PStr messageId);
        (str "requestDate", PStr requestDate);
        (str "validateOnly", PBool false);
        (str "actionType", PStr actionType);
        (str "requestData", requestData)].

(* ===================================================================== *)

(** One object holds another: in an attribute, or as an item. *)
Definition refers (h : gmap loc cell) (l l' : loc) : Prop :=
  match h !! l with
  | Some (Instance _ d) => VRef l' ∈ values d
  | Some (ListObj items) => VRef l' ∈ items
  | None => False
  end.

(** From [l] one comes to an object that contains itself, directly or
    through others. *)
Definition circular (h : gmap loc cell) (l : loc) : Prop :=
  exists l', rtc (refers h) l l' /\ tc (refers h) l' l'.

(* ===================================================================== *)

(** A name that [namedtuple] takes for a field. *)
Definition field_name (rt : Runtime) (name : pystr) : bool :=
  NamedTuple.isidentifier rt name && negb (NamedTuple.iskeyword name)
  && negb (NamedTuple.startswith_underscore name).

(* ===================================================================== *)

(* ===================================================================== *)

(** What the encoder writes after a value: nothing at the end of the text,
    the comma of [item_separator], or the line feed before a closing
    bracket. *)
Definition follow (rest : pystr) : bool :=
  match rest with
  | [] => true
  | c :: _ => (c =? 44) || (c =? 10)
  end.

#[global] Instance pyfloat_eq_dec : EqDecision pyfloat.
Proof. solve_decision. Defined.

(** A float that [float] reads back from its [repr]: the [repr] is a number
    of the JSON grammar with a fraction or an exponent, and [parse_float]
    of it is the float.  [NaN] and the infinities are read by name. *)
Definition float_loads (rt : Runtime) (f : pyfloat) : bool :=
  match f with
  | FFinite r =>
      match Decoder.match_number rt r with
      | Some (PFloat f', []) => bool_decide (f' = f)
      | _ => false
      end
  | _ => true
  end.

(** What [json.loads] makes of the text of a tree: the instances have become
    dicts, whose items stand in the order of their keys, and the tuples
    lists. *)
Fixpoint loaded (t : pyval) : pyval :=
  match t with
  | PList l => PList (List.map loaded l)
  | PTuple _ l => PList (List.map loaded l)
  | PDict d => PDict (sorted_items (List.map (fun kv => (fst kv, loaded (snd kv))) d))
  | PObj d => PDict (sorted_items (List.map (fun kv => (fst kv, loaded (snd kv))) d))
  | _ => t
  end.

(* ===================================================================== *)

(** How deep the containers of a tree are nested; a scalar counts one. *)
Fixpoint depth (t : pyval) : nat :=
  match t with
  | PList l => S (list_max (List.map depth l))
  | PTuple _ l => S (list_max (List.map depth l))
  | PDict d => S (list_max (List.map (fun kv => depth (snd kv)) d))
  | PObj d => S (list_max (List.map (fun kv => depth (snd kv)) d))
  | _ => 1
  end.

(* ===================================================================== *)

(* ===================================================================== *)

(** ** The tests of the module *)

(** [build_stage_client_config()] and [build_prod_client_config()] *)
Definition build_stage_client_config : M value :=
  ClientConfig.new (VStr (str "https://finance-report.picme.lk/proxy/finance/reporting"))
                   (VStr (str "vLt0kDgoDsvaahy0mKhzY8OWFYHZqAmM")) VNone VNone.

Definition build_prod_client_config : M value :=
  ClientConfig.new (VStr (str "https://finance-report.pickme.lk/proxy/finance/reporting"))
                   (VStr (str "vLt0kDgoDsvaahy0mKhzY8OWFYHZqAmM")) VNone VNone.

(** [len(o)] on a decoded tree: a list, a namedtuple, a [str] and a dict
    have a length, an instance of a class of the module and the other
    scalars have none. *)
Definition len (o : pyval) : result nat :=
  match o with
  | PList l => Ok (length l)
  | PTuple _ l => Ok (length l)
  | PStr s => Ok (length s)
  | PDict d => Ok (length d)
  | _ => Raise TypeError
  end.

(** What [for x in o] goes through: the items of a list or of a namedtuple,
    the characters of a [str], the keys of a dict. *)
Definition iter (o : pyval) : result (list pyval) :=
  match o with
  | PList l => Ok l
  | PTuple _ l => Ok l
  | PStr s => Ok (List.map (fun c => PStr [c]) s)
  | PDict d => Ok (List.map (fun kv => PStr (fst kv)) d)
  | _ => Raise TypeError
  end.

(** [for x in xs: body(x)] *)
Fixpoint for_each {A} (xs : list A) (body : A -> M unit) : M unit :=
  match xs with
  | [] => ret tt
  | x :: xs' => body x ;; for_each xs' body
  end.

(** The items before the first whose line, [f] of it, cannot be printed. *)
Fixpoint printable_prefix {A} (f : A -> pystr) (xs : list A) : list A :=
  match xs with
  | [] => []
  | x :: xs' => if has_surrogate (f x) then [] else x :: printable_prefix f xs'
  end.

Section Tests.
(** [str(o)] of the builtins, on a decoded tree. *)
Variable builtin_str : pyval -> pystr.

(** The tests read the global [clientConfig], which is an argument here. *)
Definition test_fetch_people_profile (clientConfig : value) : M unit :=
  let* reportRequest := PeopleProfileReportRequest.new in
  setattr reportRequest (str "withDriverTripSummary") (VBool true) ;;
  setattr reportRequest (str "withoutEmptyDriverTripSummary") (VBool false) ;;
  let* sortByPeopleIdDesc := Sorter.new (VStr (str "peopleId")) (VBool true) in
  let* sorters := getattr reportRequest (str "sorters") in
  list_append sorters sortByPeopleIdDesc ;;
  let* reportResponse := fetch_people_profile clientConfig reportRequest in
  let* profiles := lift (getattr_tree reportResponse (str "profiles")) in
  let* n := lift (len profiles) in
  if (n =? 0)%nat then print (str "No people profile fetched !!!")
  else
    let* profiles := lift (getattr_tree reportResponse (str "profiles")) in
    let* items := lift (iter profiles) in
    for_each items (fun profile => print (builtin_str profile)).

Definition test_fetch_driver_profile (clientConfig : value) : M unit :=
  let* reportRequest := DriverProfileReportRequest.new in
  setattr reportRequest (str "withDriverTripSummary") (VBool true) ;;
  setattr reportRequest (str "withoutEmptyDriverTripSummary") (VBool false) ;;
  let* sortByDriverIdDesc := Sorter.new (VStr (str "driverId")) (VBool true) in
  let* sorters := getattr reportRequest (str "sorters") in
  list_append sorters sortByDriverIdDesc ;;
  let* reportResponse := fetch_driver_profile clientConfig reportRequest in
  let* profiles := lift (getattr_tree reportResponse (str "profiles")) in
  let* n := lift (len profiles) in
  if (n =? 0)%nat then print (str "No driver profile fetched !!!")
  else
    let* profiles := lift (getattr_tree reportResponse (str "profiles")) in
    let* items := lift (iter profiles) in
    for_each items (fun profile => print (builtin_str profile)).

Definition test_fetch_driver_trip_transaction (clientConfig : value) : M unit :=
  let* reportRequest := DriverTripTransactionReportRequest.new in
  setattr reportRequest (str "driverId") (VInt 223) ;;
  setattr reportRequest (str "fromDate") (VStr (str "2019-01-01")) ;;
  setattr reportRequest (str "toDate") (VStr (str "2019-12-31")) ;;
  setattr reportRequest (str "withDriverProfile") (VBool true) ;;
  let* sortByTransactionIdDesc := Sorter.new (VStr (str "transactionId")) (VBool true) in
  let* sorters := getattr reportRequest (str "sorters") in
  list_append sorters sortByTransactionIdDesc ;;
  let* reportResponse := fetch_driver_trip_transaction clientConfig reportRequest in
  let* transactions := lift (getattr_tree reportResponse (str "transactions")) in
  let* n := lift (len transactions) in
  if (n =? 0)%nat then print (str "No driver trip transaction fetched !!!")
  else
    let* transactions := lift (getattr_tree reportResponse (str "transactions")) in
    let* items := lift (iter transactions) in
    for_each items (fun transaction => print (builtin_str transaction)).

Definition test_fetch_driver_trip_summary (clientConfig : value) : M unit :=
  let* reportRequest := DriverTripSummaryReportRequest.new in
  setattr reportRequest (str "driverId") (VInt 223) ;;
  let* reportResponse := fetch_driver_trip_summary clientConfig reportRequest in
  let* summaries := lift (getattr_tree reportResponse (str "summaries")) in
  let* n := lift (len summaries) in
  if (n =? 0)%nat then print (str "No driver trip summary fetched !!!")
  else
    let* summaries := lift (getattr_tree reportResponse (str "summaries")) in
    let* items := lift (iter summaries) in
    for_each items (fun summary => print (builtin_str summary)).

Definition test_fetch_driver_block_reason (clientConfig : value) : M unit :=
  let* reportRequest := DriverBlockReasonSummaryReportRequest.new in
  setattr reportRequest (str "driverId") (VInt 223) ;;
  let* reportResponse := fetch_driver_block_reason clientConfig reportRequest in
  let* summaries := lift (getattr_tree reportResponse (str "summaries")) in
  let* n := lift (len summaries) in
  if (n =? 0)%nat then print (str "No driver trip summary fetched !!!")
  else
    let* summaries := lift (getattr_tree reportResponse (str "summaries")) in
    let* items := lift (iter summaries) in
    for_each items (fun summary => print (builtin_str summary)).

(** The statements of the module that run when it is imported: the
    configuration is built, and two of the tests are called, each after a
    heading. *)
Definition module_body : M unit :=
  let* clientConfig := build_uat_client_config in
  print (10 :: str "#################### Test test_fetch_driver_profile #################") ;;
  test_fetch_driver_trip_transaction clientConfig ;;
  print (10 :: str "#################### Test test_fetch_driver_trip_summary ############") ;;
  test_fetch_driver_trip_summary clientConfig.
End Tests.

(** The request [test_fetch_driver_trip_transaction] builds. *)
Definition trip_transaction_test_request : pyval :=
  PObj [(str "fromStaff", PBool false); (str "fromPortal", PBool false);
        (str "pagingEnabled", PBool true); (str "pageSize", PInt 10);
        (str "pageIndex", PInt 0); (str "exportEnabled", PBool false);
        (str "sorters", PList [PObj [(str "field", PStr (str "transactionId"));
                                     (str "DESC", PBool true)]]);
        (str "transactionId", PNone); (str "driverId", PInt 223);
        (str "tripId", PNone); (str "transactionTypes", PList []);
        (str "transactionCategories", PList []);
        (str "minAmountInRupee", PNone); (str "maxAmountInRupee", PNone);
        (str "minAmountInCents", PNone); (str "maxAmountInCents", PNone);
        (str "description", PNone); (str "dateType", PStr (str "CREATE_TIME"));
        (str "fromDate", PStr (str "2019-01-01")); (str "toDate", PStr (str "2019-12-31"));
        (str "createdBy", PNone); (str "withDriverProfile", PBool true)].

(** A computation that adds to the trace and leaves what is there. *)
Definition appends {A} (m : M A) : Prop :=
  forall w, exists r, trace (snd (m w)) = trace w ++ r.

(* ===================================================================== *)

(* ===================================================================== *)

(** * Order on strings and sorted items *)
(* ===================================================================== *)

Lemma map_fmap {A B} (f : A -> B) (l : list A) : List.map f l = f <$> l.
Proof. reflexivity. Qed.

Lemma elem_of_map {A B} (f : A -> B) (l : list A) (y : B) :
  y ∈ List.map f l <-> exists x, y = f x /\ x ∈ l.
Proof. rewrite map_fmap. apply list_elem_of_fmap. Qed.

Lemma str_eqb_eq (a b : pystr) : str_eqb a b = true <-> a = b.
Proof. unfold str_eqb. apply bool_decide_eq_true. Qed.

Lemma str_eqb_refl (a : pystr) : str_eqb a a = true.
Proof. by apply str_eqb_eq. Qed.

Lemma str_eqb_neq (a b : pystr) : str_eqb a b = false <-> a <> b.
Proof. unfold str_eqb. apply bool_decide_eq_false. Qed.

Lemma str_ltb_irrefl (a : pystr) : str_ltb a a = false.
Proof.
  induction a as [|x a IH]; simpl; [done|].
  by rewrite N.ltb_irrefl.
Qed.

Lemma str_ltb_trans (a b c : pystr) :
  str_ltb a b = true -> str_ltb b c = true -> str_ltb a c = true.
Proof.
  revert b c. induction a as [|x a IH]; intros [|y b] [|z c]; simpl; try done.
  destruct (N.ltb_spec x y), (N.ltb_spec y x), (N.ltb_spec y z), (N.ltb_spec z y),
    (N.ltb_spec x z), (N.ltb_spec z x); try done; try lia.
  apply IH.
Qed.

Lemma str_ltb_total (a b : pystr) :
  str_ltb a b = false -> str_ltb b a = false -> a = b.
Proof.
  revert b. induction a as [|x a IH]; intros [|y b]; simpl; try done.
  destruct (N.ltb_spec x y), (N.ltb_spec y x); try done; try lia.
  intros H1 H2. f_equal; [lia | by apply IH].
Qed.

Section SortedItems.
Context {A : Type}.
Implicit Types (d l : list (pystr * A)) (kv : pystr * A).

Lemma insert_item_perm kv l : Permutation (insert_item kv l) (kv :: l).
Proof.
  induction l as [|kv' l IH]; simpl; [done|].
  destruct (str_ltb kv'.1 kv.1); [|done].
  rewrite IH. apply perm_swap.
Qed.

Lemma sorted_items_perm d : Permutation (sorted_items d) d.
Proof.
  induction d as [|kv d IH]; simpl; [done|].
  rewrite insert_item_perm. by constructor.
Qed.

Lemma insert_item_sorted kv l :
  StronglySorted key_lt l -> fst kv ∉ keys l ->
  StronglySorted key_lt (insert_item kv l).
Proof.
  induction 1 as [|kv' l Hs IH Hall]; intros Hk; simpl.
  - repeat constructor.
  - unfold keys in Hk. simpl in Hk. apply not_elem_of_cons in Hk as [Hne Hk].
    destruct (str_ltb kv'.1 kv.1) eqn:Hlt.
    + constructor; [by apply IH|].
      rewrite insert_item_perm. by constructor.
    + assert (Hkv : key_lt kv kv').
      { unfold key_lt. destruct (str_ltb kv.1 kv'.1) eqn:Hlt'; [done|].
        destruct Hne. by apply str_ltb_total. }
      constructor; [by constructor|].
      constructor; [done|].
      eapply Forall_impl; [exact Hall|].
      intros kv'' H. unfold key_lt in *. by eapply str_ltb_trans.
Qed.

Lemma sorted_items_sorted d :
  NoDup (keys d) -> StronglySorted key_lt (sorted_items d).
Proof.
  induction d as [|kv d IH]; simpl; intros Hnd; [constructor|].
  unfold keys in Hnd. simpl in Hnd. apply NoDup_cons in Hnd as [Hk Hnd].
  apply insert_item_sorted; [by apply IH|].
  unfold keys. by rewrite sorted_items_perm.
Qed.

(** A list sorted on distinct keys is the only one of its permutations
    that is. *)
Lemma sorted_perm_eq l1 l2 :
  StronglySorted key_lt l1 -> StronglySorted key_lt l2 ->
  Permutation l1 l2 -> l1 = l2.
Proof.
  intros Hs1. revert l2. induction Hs1 as [|x1 l1 Hs1 IH Hall1]; intros l2 Hs2 Hp.
  - by apply Permutation_nil in Hp.
  - destruct Hs2 as [|x2 l2 Hs2 Hall2]; [by apply Permutation_sym, Permutation_nil in Hp|].
    assert (x1 = x2) as ->.
    { assert (H1 : x1 ∈ x2 :: l2) by (rewrite <- Hp; left).
      assert (H2 : x2 ∈ x1 :: l1) by (rewrite Hp; left).
      apply elem_of_cons in H1 as [?|H1]; [done|].
      apply elem_of_cons in H2 as [?|H2]; [done|].
      rewrite Forall_forall in Hall1, Hall2.
      pose proof (Hall1 _ H2) as G1. pose proof (Hall2 _ H1) as G2.
      unfold key_lt in *.
      pose proof (str_ltb_trans _ _ _ G1 G2) as G.
      by rewrite str_ltb_irrefl in G. }
    f_equal. apply IH; [done|]. by eapply Permutation_cons_inv.
Qed.

(** [sorted(dct.items())] does not depend on the order of insertion. *)
Lemma sorted_items_unique d1 d2 :
  NoDup (keys d1) -> Permutation d1 d2 -> sorted_items d1 = sorted_items d2.
Proof.
  intros Hnd Hp. apply sorted_perm_eq.
  - by apply sorted_items_sorted.
  - apply sorted_items_sorted. unfold keys. by rewrite <- Hp.
  - by rewrite !sorted_items_perm.
Qed.

Lemma dict_get_Some k d (v : A) :
  NoDup (keys d) -> dict_get k d = Some v <-> (k, v) ∈ d.
Proof.
  induction d as [|[k' v'] d IH]; simpl; intros Hnd.
  - split; [done|]. by intros ?%elem_of_nil.
  - unfold keys in Hnd. simpl in Hnd. apply NoDup_cons in Hnd as [Hk Hnd].
    destruct (str_eqb k k') eqn:E.
    + apply str_eqb_eq in E as ->. split.
      * intros [= ->]. left.
      * intros [[= ->]|Hin]%elem_of_cons; [done|].
        destruct Hk. apply elem_of_map. by exists (k', v).
    + apply str_eqb_neq in E. rewrite IH by done. split.
      * by right.
      * intros [[= ? ?]|Hin]%elem_of_cons; [done|done].
Qed.

End SortedItems.

(* ===================================================================== *)
(** * The encoder: determinism *)
(* ===================================================================== *)

(** Induction on a value with the hypothesis for every element of a list
    and every value of a dict. *)
Section pyval_induction.
Variable P : pyval -> Prop.
Hypothesis HNone : P PNone.
Hypothesis HBool : forall b, P (PBool b).
Hypothesis HInt : forall z, P (PInt z).
Hypothesis HFloat : forall f, P (PFloat f).
Hypothesis HStr : forall s, P (PStr s).
Hypothesis HList : forall l, Forall P l -> P (PList l).
Hypothesis HTuple : forall fs l, Forall P l -> P (PTuple fs l).
Hypothesis HDict : forall d, Forall (fun kv => P (snd kv)) d -> P (PDict d).
Hypothesis HObj : forall d, Forall (fun kv => P (snd kv)) d -> P (PObj d).

Fixpoint pyval_ind' (v : pyval) : P v :=
  let fix all (l : list pyval) : Forall P l :=
    match l with
    | [] => List.Forall_nil _
    | x :: r => List.Forall_cons _ _ _ (pyval_ind' x) (all r)
    end in
  let fix all_items (d : list (pystr * pyval)) : Forall (fun kv => P (snd kv)) d :=
    match d with
    | [] => List.Forall_nil _
    | kv :: r => List.Forall_cons (fun kv => P (snd kv)) _ _ (pyval_ind' (snd kv)) (all_items r)
    end in
  match v with
  | PNone => HNone
  | PBool b => HBool b
  | PInt z => HInt z
  | PFloat f => HFloat f
  | PStr s => HStr s
  | PList l => HList l (all l)
  | PTuple fs l => HTuple fs l (all l)
  | PDict d => HDict d (all_items d)
  | PObj d => HObj d (all_items d)
  end.
End pyval_induction.

(** The items of a dict may be ordered before their values are rendered, as
    [_iterencode_dict] does, or after: the order looks at the keys. *)
Lemma insert_item_map {A B} (f : A -> B) (kv : pystr * A) (l : list (pystr * A)) :
  insert_item (fst kv, f (snd kv)) (List.map (fun kv => (fst kv, f (snd kv))) l)
  = List.map (fun kv => (fst kv, f (snd kv))) (insert_item kv l).
Proof.
  induction l as [|kv' l IH]; simpl; [done|].
  destruct (str_ltb kv'.1 kv.1); simpl; [by rewrite IH|done].
Qed.

Lemma iterencode_dict_items {A B} (f : A -> B) (d : list (pystr * A)) :
  sorted_items (List.map (fun kv => (fst kv, f (snd kv))) d)
  = List.map (fun kv => (fst kv, f (snd kv))) (sorted_items d).
Proof.
  induction d as [|kv d IH]; simpl; [done|].
  by rewrite IH, insert_item_map.
Qed.

Lemma keys_map_values {A B} (f : A -> B) (d : list (pystr * A)) :
  keys (List.map (fun kv => (fst kv, f (snd kv))) d) = keys d.
Proof. unfold keys. rewrite List.map_map. by apply List.map_ext. Qed.

Lemma iterencode_dict_perm lvl (e1 e2 : list (pystr * pystr)) :
  NoDup (keys e1) -> Permutation e1 e2 ->
  Encoder.iterencode_dict lvl e1 = Encoder.iterencode_dict lvl e2.
Proof.
  intros Hnd Hp. unfold Encoder.iterencode_dict.
  rewrite (sorted_items_unique e1 e2 Hnd Hp).
  destruct e1, e2; try done.
  - by apply Permutation_nil_cons in Hp.
  - by apply Permutation_sym, Permutation_nil_cons in Hp.
Qed.

Lemma wf_items (d : list (pystr * pyval)) :
  bool_decide (NoDup (keys d)) && forallb (fun kv => wf_val (snd kv)) d = true ->
  NoDup (keys d) /\ forall k v, (k, v) ∈ d -> wf_val v = true.
Proof.
  intros [Hnd Hall]%andb_true_iff. apply bool_decide_eq_true in Hnd.
  split; [done|]. intros k v Hin. rewrite forallb_forall in Hall.
  apply (Hall (k, v)). by apply list_elem_of_In.
Qed.

(** The rendered items of two dicts with the same fields, values rendered
    alike, are a permutation of each other. *)
Lemma same_items_perm (render : pyval -> pystr) (d1 d2 : list (pystr * pyval)) :
  NoDup (keys d1) -> NoDup (keys d2) ->
  (forall k, option_Forall2 same_fields (dict_get k d1) (dict_get k d2)) ->
  (forall k v1 v2, (k, v1) ∈ d1 -> (k, v2) ∈ d2 -> same_fields v1 v2 -> render v1 = render v2) ->
  Permutation (List.map (fun kv => (fst kv, render (snd kv))) d1)
              (List.map (fun kv => (fst kv, render (snd kv))) d2).
Proof.
  intros Hnd1 Hnd2 Hsame Hren.
  apply NoDup_Permutation.
  - apply (NoDup_fmap_1 fst). rewrite <- map_fmap.
    by rewrite (keys_map_values render d1 : List.map fst _ = _).
  - apply (NoDup_fmap_1 fst). rewrite <- map_fmap.
    by rewrite (keys_map_values render d2 : List.map fst _ = _).
  - intros [k r]. rewrite !elem_of_map. split.
    + intros ([k1 v1] & [= -> ->] & Hin). simpl.
      pose proof (Hsame k1) as Hk.
      rewrite (proj2 (dict_get_Some k1 d1 v1 Hnd1) Hin) in Hk.
      inversion Hk as [? v2 Hv Heq1 Heq2|]; subst.
      symmetry in Heq2. apply dict_get_Some in Heq2; [|done].
      exists (k1, v2). split; [|done]. simpl. f_equal. by eapply Hren.
    + intros ([k2 v2] & [= -> ->] & Hin). simpl.
      pose proof (Hsame k2) as Hk.
      rewrite (proj2 (dict_get_Some k2 d2 v2 Hnd2) Hin) in Hk.
      inversion Hk as [v1 ? Hv Heq1 Heq2|]; subst.
      symmetry in Heq1. apply dict_get_Some in Heq1; [|done].
      exists (k2, v1). split; [|done]. simpl. f_equal. symmetry. by eapply Hren.
Qed.

Lemma map_iterencode_same_fields lvl (l1 l2 : list pyval) :
  Forall (fun v1 => forall v2 lvl, wf_val v1 = true -> wf_val v2 = true ->
                    same_fields v1 v2 ->
                    Encoder.iterencode lvl v1 = Encoder.iterencode lvl v2) l1 ->
  forallb wf_val l1 = true -> forallb wf_val l2 = true ->
  Forall2 same_fields l1 l2 ->
  List.map (Encoder.iterencode lvl) l1 = List.map (Encoder.iterencode lvl) l2.
Proof.
  intros IH Hwf1 Hwf2 HF. revert IH Hwf1 Hwf2.
  induction HF as [|x y l1 l2 Hxy HF IHF]; simpl; [done|].
  intros [IHx IHl]%Forall_cons [Hx Hl1]%andb_true_iff [Hy Hl2]%andb_true_iff.
  f_equal; [by apply IHx|by apply IHF].
Qed.

Lemma iterencode_same_fields (v1 : pyval) :
  forall v2 lvl, wf_val v1 = true -> wf_val v2 = true -> same_fields v1 v2 ->
                 Encoder.iterencode lvl v1 = Encoder.iterencode lvl v2.
Proof.
  induction v1 as [| | | | |l IH|fs l IH|d IH|d IH] using pyval_ind';
    intros v2 lvl Hwf1 Hwf2 Hs; inversion Hs; subst; simpl; try done.
  - f_equal. by apply map_iterencode_same_fields.
  - f_equal. by apply map_iterencode_same_fields.
  - simpl in Hwf1, Hwf2. apply wf_items in Hwf1 as [Hnd1 Hv1], Hwf2 as [Hnd2 Hv2].
    apply iterencode_dict_perm; [by rewrite keys_map_values|].
    apply same_items_perm; try done.
    intros k v1 v2 Hin1 Hin2 Hsame. rewrite Forall_forall in IH.
    apply (IH (k, v1)); eauto.
  - simpl in Hwf1, Hwf2. apply wf_items in Hwf1 as [Hnd1 Hv1], Hwf2 as [Hnd2 Hv2].
    apply iterencode_dict_perm; [by rewrite keys_map_values|].
    apply same_items_perm; try done.
    intros k v1 v2 Hin1 Hin2 Hsame. rewrite Forall_forall in IH.
    apply (IH (k, v1)); eauto.
Qed.

(** C1. [Serializer.to_json] is deterministic: two values with identical
    field sets and field values, whatever the order in which their fields
    were set, are serialized to the same string. *)
Theorem to_json_deterministic (v1 v2 : pyval) :
  wf_val v1 = true -> wf_val v2 = true -> same_fields v1 v2 ->
  to_json v1 = to_json v2.
Proof. intros. unfold to_json, Encoder.dumps. by apply iterencode_same_fields. Qed.

Lemma same_fields_refl (v : pyval) : same_fields v v.
Proof.
  induction v as [| | | | |l IH|fs l IH|d IH|d IH] using pyval_ind'; try by constructor.
  - constructor. induction IH; by constructor.
  - constructor. induction IH; by constructor.
  - constructor. intros k. induction IH as [|[k' v] d Hv _ IHd]; simpl; [constructor|].
    destruct (str_eqb k k'); [by constructor|done].
  - constructor. intros k. induction IH as [|[k' v] d Hv _ IHd]; simpl; [constructor|].
    destruct (str_eqb k k'); [by constructor|done].
Qed.

Lemma dict_get_perm {A} (k : pystr) (d1 d2 : list (pystr * A)) :
  NoDup (keys d1) -> Permutation d1 d2 -> dict_get k d1 = dict_get k d2.
Proof.
  intros Hnd1 Hp.
  assert (Hnd2 : NoDup (keys d2)) by (unfold keys; by rewrite <- Hp).
  destruct (dict_get k d1) as [v|] eqn:E1.
  - apply dict_get_Some in E1; [|done]. symmetry. apply dict_get_Some; [done|].
    by rewrite <- Hp.
  - destruct (dict_get k d2) as [v|] eqn:E2; [|done].
    apply dict_get_Some in E2; [|done]. rewrite <- Hp in E2.
    apply dict_get_Some in E2; [|done]. congruence.
Qed.

(** Setting the same attributes in another order gives the same fields. *)
Lemma same_fields_perm (d1 d2 : list (pystr * pyval)) :
  NoDup (keys d1) -> Permutation d1 d2 -> same_fields (PObj d1) (PObj d2).
Proof.
  intros Hnd Hp. constructor. intros k.
  rewrite (dict_get_perm k d1 d2 Hnd Hp).
  destruct (dict_get k d2); constructor. apply same_fields_refl.
Qed.

(** Decides [same_fields] between two closed values. *)
Ltac same_fields_lookup k :=
  match goal with
  | |- context [str_eqb k ?x] =>
      let E := fresh "E" in
      destruct (str_eqb k x) eqn:E;
      [ apply str_eqb_eq in E; subst k; vm_compute; constructor | same_fields_lookup k ]
  | |- _ => constructor
  end.

Ltac same_fields_closed :=
  repeat first
    [ apply sf_none | apply sf_bool | apply sf_int | apply sf_float | apply sf_str
    | apply sf_list | apply sf_tuple
    | apply List.Forall2_nil | apply List.Forall2_cons
    | (apply sf_obj || apply sf_dict);
      let k := fresh "k" in intros k; cbn [dict_get]; same_fields_lookup k ].

Lemma to_json_deterministic_witness :
  let a := PObj [(str "pageSize", PInt 10);
                 (str "sorters", PList [PObj [(str "field", PStr (str "peopleId"));
                                              (str "DESC", PBool true)]]);
                 (str "peopleId", PNone)] in
  let b := PObj [(str "peopleId", PNone);
                 (str "sorters", PList [PObj [(str "DESC", PBool true);
                                              (str "field", PStr (str "peopleId"))]]);
                 (str "pageSize", PInt 10)] in
  to_json a = to_json b.
Proof.
  intros a b. apply to_json_deterministic; [reflexivity|reflexivity|].
  unfold a, b. same_fields_closed.
Defined.

(** The same on the store: two objects whose trees have the same fields
    are serialized to the same string, in whatever worlds they live. *)
Lemma Serializer_to_json_same_fields (o1 o2 : value) (w1 w2 : World) (t1 t2 : pyval) :
  tree_of w1 o1 = Some t1 -> tree_of w2 o2 = Some t2 ->
  wf_val t1 = true -> wf_val t2 = true -> same_fields t1 t2 ->
  fst (Serializer.to_json o1 w1) = fst (Serializer.to_json o2 w2).
Proof.
  intros H1 H2 Hwf1 Hwf2 Hsf. unfold Serializer.to_json. rewrite H1, H2. cbn [fst].
  do 2 f_equal. unfold to_json, Encoder.dumps. by apply iterencode_same_fields.
Qed.

(* ===================================================================== *)
(** * The signer *)
(* ===================================================================== *)

Lemma round_length (s : list N) (kw : N * N) : length s = 8%nat -> length (SHA256.round s kw) = 8%nat.
Proof.
  intros H. do 9 (destruct s as [|? s]; try done).
Qed.

Lemma fold_round_length (kws : list (N * N)) (s : list N) :
  length s = 8%nat -> length (fold_left SHA256.round kws s) = 8%nat.
Proof.
  revert s. induction kws as [|kw kws IH]; simpl; intros s H; [done|].
  by apply IH, round_length.
Qed.

Lemma compress_length (h : list N) (block : pybytes) :
  length h = 8%nat -> length (SHA256.compress h block) = 8%nat.
Proof.
  intros H. unfold SHA256.compress.
  rewrite length_map, length_combine, fold_round_length by done. lia.
Qed.

Lemma be_bytes_length (n : nat) (x : N) : length (SHA256.be_bytes n x) = n.
Proof.
  revert x. induction n as [|n IH]; simpl; intros x; [done|].
  rewrite length_app, IH. simpl. lia.
Qed.

Lemma be_bytes_byte (n : nat) (x : N) : Forall (fun b => b < 256) (SHA256.be_bytes n x).
Proof.
  revert x. induction n as [|n IH]; simpl; intros x; [constructor|].
  apply Forall_app. split; [apply IH|]. repeat constructor. by apply N.mod_lt.
Qed.

Lemma concat_be_bytes_length (ws : list N) :
  length (List.concat (List.map (SHA256.be_bytes 4) ws)) = (4 * length ws)%nat.
Proof.
  induction ws as [|w ws IH]; [done|].
  change (length (SHA256.be_bytes 4 w ++ List.concat (List.map (SHA256.be_bytes 4) ws))
          = (4 * length (w :: ws))%nat).
  rewrite length_app, be_bytes_length, IH. simpl. lia.
Qed.

(** A SHA-256 digest is 32 bytes. *)
Lemma digest_length (msg : pybytes) : length (SHA256.digest msg) = 32%nat.
Proof.
  unfold SHA256.digest. rewrite concat_be_bytes_length.
  assert (H : forall bs h, length h = 8%nat -> length (fold_left SHA256.compress bs h) = 8%nat).
  { induction bs as [|b bs IH]; simpl; intros h Hh; [done|]. by apply IH, compress_length. }
  by rewrite H.
Qed.

Lemma digest_bytes (msg : pybytes) : Forall (fun b => b < 256) (SHA256.digest msg).
Proof.
  unfold SHA256.digest.
  induction (fold_left SHA256.compress _ _) as [|w ws IH]; [constructor|].
  change (Forall (fun b => b < 256)
            (SHA256.be_bytes 4 w ++ List.concat (List.map (SHA256.be_bytes 4) ws))).
  apply Forall_app. split; [apply be_bytes_byte|done].
Qed.

Lemma translate_xor (c : N) (key : pybytes) :
  length key = 64%nat -> HMAC.translate c key = HMAC.xor_bytes key (repeat c 64).
Proof.
  intros H. unfold HMAC.translate, HMAC.xor_bytes. rewrite <- H. clear H.
  induction key as [|x key IH]; simpl; [done|]. by rewrite IH.
Qed.

Lemma ljust_K0 (key : pybytes) :
  HMAC.ljust HMAC.blocksize
    (if (HMAC.blocksize <? length key)%nat
     then HMAC.hash_digest (HMAC.update HMAC.sha256_new key) else key)
  = HMAC.K0 key.
Proof.
  unfold HMAC.K0, HMAC.ljust, HMAC.blocksize, HMAC.hash_digest, HMAC.update, HMAC.sha256_new.
  simpl app. destruct (64 <? length key)%nat; [|done].
  by rewrite digest_length.
Qed.

Lemma K0_length (key : pybytes) : length (HMAC.K0 key) = 64%nat.
Proof.
  unfold HMAC.K0. destruct (Nat.ltb_spec 64 (length key)).
  - rewrite length_app, digest_length. done.
  - rewrite length_app, repeat_length. lia.
Qed.

(** What [hmac.py] computes with its two hash objects is the HMAC of
    RFC 2104. *)
Lemma hmac_new_digest (key msg : pybytes) :
  HMAC.digest (HMAC.new key msg) = HMAC.hmac_sha256 key msg.
Proof.
  unfold HMAC.digest, HMAC.new. simpl HMAC.inner. simpl HMAC.outer.
  rewrite ljust_K0.
  unfold HMAC.hash_digest, HMAC.update, HMAC.sha256_new, HMAC.hmac_sha256. simpl app.
  by rewrite !translate_xor by apply K0_length.
Qed.

Lemma hexlify_length (bs : pybytes) : length (Codec.hexlify bs) = (2 * length bs)%nat.
Proof.
  unfold Codec.hexlify. induction bs as [|b bs IH]; simpl; [done|]. rewrite IH. lia.
Qed.

Lemma hex_digit_lower (n : N) : n < 16 -> Codec.is_lower_hex (Codec.hex_digit n) = true.
Proof.
  intros H. unfold Codec.is_lower_hex, Codec.hex_digit.
  destruct (N.ltb_spec n 10).
  - apply orb_true_iff. left. apply andb_true_iff. split; apply N.leb_le; lia.
  - apply orb_true_iff. right. apply andb_true_iff. split; apply N.leb_le; lia.
Qed.

Lemma hexlify_lower (bs : pybytes) :
  Forall (fun b => b < 256) bs ->
  Forall (fun c => Codec.is_lower_hex c = true) (Codec.hexlify bs).
Proof.
  unfold Codec.hexlify. induction 1 as [|b bs Hb _ IH]; simpl; [constructor|].
  constructor; [|constructor; [|done]]; apply hex_digit_lower.
  - apply N.Div0.div_lt_upper_bound. lia.
  - by apply N.mod_lt.
Qed.

(** Linear arithmetic with quotients and remainders. *)
Ltac divlia := zify; Z.to_euclidean_division_equations; lia.

Lemma lor_high_low (a b k : N) : b < 2 ^ k -> N.lor (a * 2 ^ k) b = a * 2 ^ k + b.
Proof.
  intros Hb. rewrite <- N.lxor_lor, <- N.add_nocarry_lxor; try done.
  all: apply N.bits_inj_0; intros i; rewrite N.land_spec;
    destruct (N.lt_ge_cases i k) as [Hi|Hi];
    [by rewrite N.mul_pow2_bits_low|
     rewrite <- (N.mod_small b (2 ^ k)) by done;
     by rewrite N.mod_pow2_bits_high, andb_false_r].
Qed.

(** A continuation octet: [10xxxxxx]. *)
Lemma continuation_octet (n : N) : N.lor 0x80 (N.land n 0x3F) = 0x80 + n mod 64.
Proof.
  change 0x3F with (N.ones 6). rewrite N.land_ones.
  change 0x80 with (2 * 2 ^ 6). apply lor_high_low.
  change (2 ^ 6) with 64. by apply N.mod_lt.
Qed.

(** The codec writes the octets of RFC 3629. *)
Lemma utf8_char_octets (c : N) :
  is_scalar c = true -> exists b, Codec.utf8_char c = Ok b /\ RFC3629.char_octets c b.
Proof.
  unfold is_scalar, Codec.utf8_char. intros Hc.
  destruct (N.ltb_spec c 0x80) as [H1|H1].
  { eexists. split; [done|]. constructor. lia. }
  destruct (N.ltb_spec c 0x800) as [H2|H2].
  { eexists. split; [done|]. rewrite continuation_octet, N.shiftr_div_pow2.
    change (2 ^ 6) with 64.
    change 0xC0 with (3 * 2 ^ 6) at 1. rewrite lor_high_low.
    - change (3 * 2 ^ 6) with 0xC0. constructor. lia.
    - change (2 ^ 6) with 64. divlia. }
  destruct ((0xD800 <=? c) && (c <=? 0xDFFF)) eqn:Es.
  { exfalso. apply andb_true_iff in Es as [Ha%N.leb_le Hb%N.leb_le].
    apply orb_true_iff in Hc as [Hc%N.ltb_lt|[Hc%N.ltb_lt _]%andb_true_iff]; lia. }
  assert (Hns : ~ (0xD800 <= c <= 0xDFFF)).
  { intros [Ha%N.leb_le Hb%N.leb_le]. by rewrite Ha, Hb in Es. }
  assert (Hmax : c < 0x110000).
  { apply orb_true_iff in Hc as [Hc%N.ltb_lt|[_ Hc%N.ltb_lt]%andb_true_iff]; lia. }
  destruct (N.ltb_spec c 0x10000) as [H3|H3].
  { eexists. split; [done|]. rewrite !continuation_octet, !N.shiftr_div_pow2.
    change (2 ^ 6) with 64. change (2 ^ 12) with 4096.
    change 0xE0 with (14 * 2 ^ 4) at 1. rewrite lor_high_low.
    - change (14 * 2 ^ 4) with 0xE0. by constructor; [lia|].
    - change (2 ^ 4) with 16. divlia. }
  eexists. split; [done|]. rewrite !continuation_octet, !N.shiftr_div_pow2.
  change (2 ^ 6) with 64. change (2 ^ 12) with 4096. change (2 ^ 18) with 262144.
  change 0x07 with (N.ones 3). rewrite N.land_ones. change (2 ^ 3) with 8.
  rewrite (N.mod_small (c / 262144) 8) by divlia.
  change 0xF0 with (30 * 2 ^ 3) at 1. rewrite lor_high_low.
  - change (30 * 2 ^ 3) with 0xF0. constructor. lia.
  - change (2 ^ 3) with 8. divlia.
Qed.

Lemma encode_utf8_octets (s : pystr) :
  scalar_str s = true -> exists bs, Codec.encode_utf8 s = Ok bs /\ RFC3629.octets s bs.
Proof.
  induction s as [|c s IH]; simpl.
  - intros _. exists []. split; [done|constructor].
  - intros [Hc Hs]%andb_true_iff.
    destruct (utf8_char_octets c Hc) as (b & -> & Hb).
    destruct (IH Hs) as (bs & -> & Hbs).
    exists (b ++ bs). split; [done|by constructor].
Qed.

(** C3, as stated, fails: a [str] with a surrogate code point, which the
    decoder makes of the escape [\ud800], has no UTF-8 bytes, and
    [generate_hmac] raises on such a body and on such a secret. *)
Lemma generate_hmac_surrogate :
  generate_hmac (VStr (str "keep-this-secret")) (VStr [0xD800]) = Raise UnicodeEncodeError
  /\ generate_hmac (VStr [0xD800]) (VStr (str "{}")) = Raise UnicodeEncodeError
  /\ json_to_object example_runtime (VStr (jstr "'\ud800'")) = Ok (PStr [0xD800]).
Proof. split; [|split]; reflexivity. Qed.

(** C3, amended.  For a secret and a body that hold no surrogate,
    [generate_hmac(secret, body)] is the HMAC-SHA-256 of RFC 2104 of the
    UTF-8 octets of [body], as RFC 3629 gives them, under those of [secret],
    written as 64 lowercase hexadecimal digits; being a function of its two
    arguments, it gives the same signature for the same inputs. *)
Theorem generate_hmac_spec (secret body : pystr) :
  scalar_str secret = true -> scalar_str body = true ->
  exists key msg,
    RFC3629.octets secret key /\ RFC3629.octets body msg
    /\ Codec.encode_utf8 secret = Ok key /\ Codec.encode_utf8 body = Ok msg
    /\ generate_hmac (VStr secret) (VStr body)
       = Ok (Codec.hexlify (HMAC.hmac_sha256 key msg))
    /\ length (Codec.hexlify (HMAC.hmac_sha256 key msg)) = 64%nat
    /\ Forall (fun c => Codec.is_lower_hex c = true)
         (Codec.hexlify (HMAC.hmac_sha256 key msg)).
Proof.
  intros (key & Hk & Hko)%encode_utf8_octets (msg & Hm & Hmo)%encode_utf8_octets.
  exists key, msg. do 4 (split; [done|]). split; [|split].
  - unfold generate_hmac, HMAC.hexdigest. simpl. by rewrite Hk, Hm, hmac_new_digest.
  - unfold HMAC.hmac_sha256. by rewrite hexlify_length, digest_length.
  - apply hexlify_lower. unfold HMAC.hmac_sha256. apply digest_bytes.
Qed.

(** A secret and a body with characters of two, three and four octets; the
    signature is the one [hmac] of CPython gives. *)
Lemma generate_hmac_spec_witness :
  generate_hmac (VStr [99; 108; 233])
    (VStr (jstr "{'name': '" ++ [233; 8364; 128512] ++ jstr "'}"))
  = Ok (str "a9dbf7bb53539f6a8a207d26eeff5fdb984137769949669f15c59cd85b19ffb1").
Proof.
  destruct (generate_hmac_spec [99; 108; 233]
              (jstr "{'name': '" ++ [233; 8364; 128512] ++ jstr "'}") eq_refl eq_refl)
    as (key & msg & _ & _ & Hk & Hm & H & _).
  rewrite H. vm_compute in Hk, Hm. injection Hk as <-. injection Hm as <-.
  vm_compute. reflexivity.
Defined.

(* ===================================================================== *)
(** * Running the interpreter *)
(* ===================================================================== *)

(** ** Constructors, step by step *)

Lemma bind_bind {A B C} (m : M A) (k : A -> M B) (k' : B -> M C) (w : World) :
  bind (bind m k) k' w = bind m (fun a => bind (k a) k') w.
Proof. unfold bind. by destruct (m w) as [[a|e] w']. Qed.

Lemma bind_ret {A B} (a : A) (k : A -> M B) (w : World) : bind (ret a) k w = k a w.
Proof. reflexivity. Qed.

Lemma bind_ret_r {A} (m : M A) (w : World) : bind m ret w = m w.
Proof. unfold bind, ret. by destruct (m w) as [[a|e] w']. Qed.

(** Setting an attribute of the object under construction. *)
Lemma bind_setattr_self {B} (l : loc) (c : pystr) (d : list (pystr * value))
    (g : gmap loc cell) (e : Env) (n : nat) (t : list event)
    (name : pystr) (v : value) (k : unit -> M B) :
  bind (setattr (VRef l) name v) k (mkW (<[l := Instance c d]> g) e n t)
  = k tt (mkW (<[l := Instance c (dict_set name v d)]> g) e n t).
Proof.
  unfold bind, setattr, set_heap. cbn. by rewrite lookup_insert_eq, insert_insert_eq.
Qed.

(** Allocating while an object is under construction: the new object is
    another one, and was not there. *)
Lemma bind_alloc_self {B} (l : loc) (x c : cell) (g : gmap loc cell) (e : Env)
    (n : nat) (t : list event) (k : value -> M B) :
  exists l', l' <> l /\ g !! l' = None /\
    bind (alloc c) k (mkW (<[l := x]> g) e n t)
    = k (VRef l') (mkW (<[l := x]> (<[l' := c]> g)) e n t).
Proof.
  exists (fresh (dom (<[l := x]> g))).
  pose proof (is_fresh (dom (<[l := x]> g))) as Hf.
  apply not_elem_of_dom, lookup_insert_None in Hf as [Hg Hne].
  split; [done|]. split; [done|].
  unfold bind, alloc, set_heap. cbn. by rewrite insert_insert_ne.
Qed.

Ltac step_setattr :=
  first [ rewrite bind_setattr_self
        | rewrite bind_bind, bind_setattr_self ]; cbn beta.

Lemma BaseReportRequest_init_run {B} (l : loc) (c : pystr) (d : list (pystr * value))
    (g : gmap loc cell) (e : Env) (n : nat) (t : list event) (k : unit -> M B) :
  exists ls, ls <> l /\ g !! ls = None /\
    bind (BaseReportRequest.__init__ (VRef l)) k (mkW (<[l := Instance c d]> g) e n t)
    = k tt (mkW (<[l := Instance c (BaseReportRequest_fields (VRef ls) d)]>
                  (<[ls := ListObj []]> g)) e n t).
Proof.
  unfold BaseReportRequest.__init__.
  do 6 step_setattr.
  rewrite !bind_bind.
  match goal with
  | |- context [bind (alloc ?c') ?k' (mkW (<[l := ?x]> g) e n t)] =>
      destruct (bind_alloc_self l x c' g e n t k') as (ls & Hne & Hg & ->)
  end.
  exists ls. split; [done|]. split; [done|].
  by rewrite bind_setattr_self.
Qed.

Ltac step_base l g e n t :=
  match goal with
  | |- context [bind (BaseReportRequest.__init__ (VRef l)) ?k
                  (mkW (<[l := Instance ?c ?d]> g) e n t)] =>
      let ls := fresh "ls" in
      let Hne := fresh "Hne" in
      let Hg := fresh "Hg" in
      destruct (BaseReportRequest_init_run l c d g e n t k) as (ls & Hne & Hg & ->)
  end.

Ltac step_alloc l :=
  rewrite ?bind_bind;
  match goal with
  | |- context [bind (alloc ?c') ?k' (mkW (<[l := ?x]> ?g) ?e ?n ?t)] =>
      let l' := fresh "l'" in
      let Hne := fresh "Hne" in
      let Hg := fresh "Hg" in
      destruct (bind_alloc_self l x c' g e n t k') as (l' & Hne & Hg & ->)
  end; cbn beta.

Lemma DriverTripTransactionReportRequest_init_run {B} (l : loc) (c : pystr)
    (d : list (pystr * value)) (g : gmap loc cell) (e : Env) (n : nat)
    (t : list event) (k : unit -> M B) :
  exists ls lt lc,
    (ls <> l /\ lt <> l /\ lc <> l) /\
    (g !! ls = None /\ <[ls := ListObj []]> g !! lt = None
     /\ <[lt := ListObj []]> (<[ls := ListObj []]> g) !! lc = None) /\
    bind (DriverTripTransactionReportRequest.__init__ (VRef l)) k
      (mkW (<[l := Instance c d]> g) e n t)
    = k tt (mkW (<[l := Instance c
                         (DriverTripTransactionReportRequest_fields (VRef lt) (VRef lc)
                            (BaseReportRequest_fields (VRef ls) d))]>
                  (<[lc := ListObj []]> (<[lt := ListObj []]> (<[ls := ListObj []]> g))))
              e n t).
Proof.
  unfold DriverTripTransactionReportRequest.__init__.
  rewrite bind_bind. step_base l g e n t. cbn beta.
  do 3 step_setattr.
  step_alloc l. step_setattr.
  step_alloc l. step_setattr.
  do 9 step_setattr.
  rewrite bind_setattr_self.
  exists ls, l', l'0. done.
Qed.

Lemma new_run (cls : pystr) (init : value -> M unit) (h : gmap loc cell) (e : Env)
    (n : nat) (t : list event) :
  exists l, h !! l = None /\
    new cls init (mkW h e n t)
    = bind (init (VRef l)) (fun _ => ret (VRef l)) (mkW (<[l := Instance cls []]> h) e n t).
Proof.
  exists (fresh (dom h)). split; [apply not_elem_of_dom, is_fresh|]. reflexivity.
Qed.

(** More fuel and more objects do not change a tree that was found. *)
Lemma snapshot_mono (n : nat) :
  forall (m : nat) (h h' : gmap loc cell) (v : value) (t : pyval),
    snapshot n h v = Some t -> (n <= m)%nat -> h ⊆ h' -> snapshot m h' v = Some t.
Proof.
  induction n as [|n IH]; intros m h h' v t Hs Hle Hsub.
  - destruct v; simpl in Hs; try done; by destruct m.
  - destruct v; simpl in Hs; try done; try by destruct m.
    destruct m as [|m]; [lia|]. simpl.
    destruct (h !! l) as [[cls d|items]|] eqn:E; [| |done];
      rewrite (lookup_weaken _ _ _ _ E Hsub).
    + apply fmap_Some in Hs as (d' & Hd & ->). apply fmap_Some. exists d'. split; [|done].
      apply mapM_Some. apply mapM_Some in Hd.
      eapply Forall2_impl; [exact Hd|]. intros [k v] [k' t'] Hkv. simpl in *.
      apply fmap_Some in Hkv as (t'' & Ht & [= -> ->]). apply fmap_Some. exists t''.
      split; [|done]. eapply IH; [exact Ht|lia|done].
    + apply fmap_Some in Hs as (ts & Hts & ->). apply fmap_Some. exists ts. split; [|done].
      apply mapM_Some. apply mapM_Some in Hts.
      eapply Forall2_impl; [exact Hts|]. intros v t' Hv. simpl in *.
      eapply IH; [exact Hv|lia|done].
Qed.

Lemma tree_of_fuel (n : nat) (w : World) (v : value) (t : pyval) :
  snapshot n (heap w) v = Some t -> (n <= S (size (heap w)))%nat -> tree_of w v = Some t.
Proof. intros Hs Hle. unfold tree_of. by eapply snapshot_mono. Qed.

Lemma snapshot_instance (n : nat) (h : gmap loc cell) (l : loc) (c : pystr)
    (d : list (pystr * value)) (d' : list (pystr * pyval)) :
  h !! l = Some (Instance c d) ->
  Forall2 (fun kv kt => fst kv = fst kt /\ snapshot n h (snd kv) = Some (snd kt)) d d' ->
  snapshot (S n) h (VRef l) = Some (PObj d').
Proof.
  intros Hl HF. simpl. rewrite Hl. apply fmap_Some. exists d'. split; [|done].
  apply mapM_Some. eapply Forall2_impl; [exact HF|].
  intros [k v] [k' t] [Hk Hv]. simpl in *. subst. by rewrite Hv.
Qed.

Lemma snapshot_empty_list (n : nat) (h : gmap loc cell) (l : loc) :
  h !! l = Some (ListObj []) -> snapshot (S n) h (VRef l) = Some (PList []).
Proof. intros Hl. simpl. by rewrite Hl. Qed.

Lemma size_insert_pos (h : gmap loc cell) (l : loc) (c : cell) :
  (1 <= size (<[l := c]> h))%nat.
Proof.
  destruct (h !! l) eqn:E.
  - rewrite map_size_insert_Some by done.
    destruct (decide (size h = 0%nat)) as [Hz|]; [|lia].
    apply map_size_empty_inv in Hz. subst. by rewrite lookup_empty in E.
  - rewrite map_size_insert_None by done. lia.
Qed.

Ltac fresh_facts :=
  repeat match goal with
    | H : _ /\ _ |- _ => destruct H
    | H : <[_ := _]> _ !! _ = None |- _ => apply lookup_insert_None in H as [H ?]
    end.

Ltac lookup_layers :=
  repeat first [ rewrite lookup_insert_eq | rewrite lookup_insert_ne by done ].

Ltac subseteq_layers :=
  repeat first
    [ reflexivity
    | etransitivity; [|apply insert_subseteq; lookup_layers; done] ].

Ltac tree_fields :=
  repeat first
    [ apply List.Forall2_nil
    | apply List.Forall2_cons;
      [ split; [reflexivity|];
        first [ reflexivity
              | apply snapshot_empty_list; lookup_layers; reflexivity ] | ] ].

Lemma BaseReportRequest_fields_nil (sorters : value) :
  BaseReportRequest_fields sorters []
  = [(str "fromStaff", VBool false); (str "fromPortal", VBool false);
     (str "pagingEnabled", VBool true); (str "pageSize", VInt 10);
     (str "pageIndex", VInt 0); (str "exportEnabled", VBool false);
     (str "sorters", sorters)].
Proof. reflexivity. Qed.

Lemma DriverTripTransactionReportRequest_fields_nil (s tt_ tc : value) :
  DriverTripTransactionReportRequest_fields tt_ tc (BaseReportRequest_fields s [])
  = [(str "fromStaff", VBool false); (str "fromPortal", VBool false);
     (str "pagingEnabled", VBool true); (str "pageSize", VInt 10);
     (str "pageIndex", VInt 0); (str "exportEnabled", VBool false);
     (str "sorters", s);
     (str "transactionId", VNone); (str "driverId", VNone); (str "tripId", VNone);
     (str "transactionTypes", tt_); (str "transactionCategories", tc);
     (str "minAmountInRupee", VNone); (str "maxAmountInRupee", VNone);
     (str "minAmountInCents", VNone); (str "maxAmountInCents", VNone);
     (str "description", VNone); (str "dateType", VStr (str "CREATE_TIME"));
     (str "fromDate", VNone); (str "toDate", VNone); (str "createdBy", VNone);
     (str "withDriverProfile", VBool false)].
Proof. reflexivity. Qed.

Lemma DriverTripTransactionReportRequest_new_constructs :
  constructs DriverTripTransactionReportRequest.new
    (PObj DriverTripTransactionReportRequest_defaults).
Proof.
  intros [h e n t]. unfold DriverTripTransactionReportRequest.new.
  destruct (new_run (str "DriverTripTransactionReportRequest")
              DriverTripTransactionReportRequest.__init__ h e n t) as (l & Hl & ->).
  destruct (DriverTripTransactionReportRequest_init_run l
              (str "DriverTripTransactionReportRequest") [] h e n t
              (fun _ => ret (VRef l))) as (ls & lt & lc & Hne & Hg & ->).
  fresh_facts. eexists l, _. split; [reflexivity|]. split; [done|]. split.
  - split; [|done]. cbn [heap]. subseteq_layers.
  - apply (tree_of_fuel 2); [|cbn [heap]; pose proof (size_insert_pos
        (<[lc:=ListObj []]> (<[lt:=ListObj []]> (<[ls:=ListObj []]> h))) l
        (Instance (str "DriverTripTransactionReportRequest")
           (DriverTripTransactionReportRequest_fields (VRef lt) (VRef lc)
              (BaseReportRequest_fields (VRef ls) [])))); lia].
    cbn [heap]. eapply snapshot_instance; [apply lookup_insert_eq|].
    rewrite DriverTripTransactionReportRequest_fields_nil.
    unfold DriverTripTransactionReportRequest_defaults, BaseReportRequest_defaults.
    cbn [app]. tree_fields.
Qed.

Lemma size_pos_lookup (h : gmap loc cell) (l : loc) (c : cell) :
  h !! l = Some c -> (1 <= size h)%nat.
Proof.
  intros Hl. destruct (decide (size h = 0%nat)) as [Hz|]; [|lia].
  apply map_size_empty_inv in Hz. subst. by rewrite lookup_empty in Hl.
Qed.

(** The tree of an instance whose attributes are data or empty lists. *)
Lemma tree_of_instance (w : World) (l : loc) (c : pystr) (d : list (pystr * value))
    (d' : list (pystr * pyval)) :
  heap w !! l = Some (Instance c d) ->
  Forall2 (fun kv kt => fst kv = fst kt /\ snapshot 1 (heap w) (snd kv) = Some (snd kt)) d d' ->
  tree_of w (VRef l) = Some (PObj d').
Proof.
  intros Hl HF. apply (tree_of_fuel 2).
  - by eapply snapshot_instance.
  - pose proof (size_pos_lookup _ _ _ Hl). lia.
Qed.

(** Runs a constructor made of [BaseReportRequest.__init__] and plain
    assignments, and reads the tree of the object it made. *)
Ltac constructs_simple cls init :=
  let h := fresh "h" in let e := fresh "e" in let n := fresh "n" in
  let t := fresh "t" in let l := fresh "l" in let Hl := fresh "Hl" in
  intros [h e n t];
  destruct (new_run cls init h e n t) as (l & Hl & ->);
  unfold init; rewrite ?bind_bind; step_base l h e n t; cbn beta;
  repeat step_setattr; fresh_facts;
  eexists l, _; split; [reflexivity|]; split; [done|]; split;
  [ split; [|done]; cbn [heap]; subseteq_layers
  | eapply tree_of_instance; [cbn [heap]; apply lookup_insert_eq|];
    cbn [heap];
    match goal with
    | |- Forall2 _ ?d _ => let d' := eval vm_compute in d in change d with d'
    end;
    tree_fields ].

Lemma BaseReportRequest_new_constructs :
  constructs BaseReportRequest.new (PObj BaseReportRequest_defaults).
Proof.
  intros [h e n t]. unfold BaseReportRequest.new.
  destruct (new_run (str "BaseReportRequest") BaseReportRequest.__init__ h e n t)
    as (l & Hl & ->).
  step_base l h e n t. cbn beta. fresh_facts.
  eexists l, _. split; [reflexivity|]. split; [done|]. split.
  - split; [|done]. cbn [heap]. subseteq_layers.
  - eapply tree_of_instance; [cbn [heap]; apply lookup_insert_eq|].
    cbn [heap]. rewrite BaseReportRequest_fields_nil. tree_fields.
Qed.

Lemma PeopleProfileReportRequest_new_constructs :
  constructs PeopleProfileReportRequest.new (PObj PeopleProfileReportRequest_defaults).
Proof.
  unfold PeopleProfileReportRequest.new.
  constructs_simple (str "PeopleProfileReportRequest") PeopleProfileReportRequest.__init__.
Qed.

Lemma TaxiProfileReportRequest_new_constructs :
  constructs TaxiProfileReportRequest.new (PObj TaxiProfileReportRequest_defaults).
Proof.
  unfold TaxiProfileReportRequest.new.
  constructs_simple (str "TaxiProfileReportRequest") TaxiProfileReportRequest.__init__.
Qed.

Lemma VehicleModelProfileReportRequest_new_constructs :
  constructs VehicleModelProfileReportRequest.new
    (PObj VehicleModelProfileReportRequest_defaults).
Proof.
  unfold VehicleModelProfileReportRequest.new.
  constructs_simple (str "VehicleModelProfileReportRequest")
    VehicleModelProfileReportRequest.__init__.
Qed.

Lemma DriverProfileReportRequest_new_constructs :
  constructs DriverProfileReportRequest.new (PObj DriverProfileReportRequest_defaults).
Proof.
  unfold DriverProfileReportRequest.new.
  constructs_simple (str "DriverProfileReportRequest") DriverProfileReportRequest.__init__.
Qed.

Lemma DriverBlockReasonSummaryReportRequest_new_constructs :
  constructs DriverBlockReasonSummaryReportRequest.new
    (PObj DriverBlockReasonSummaryReportRequest_defaults).
Proof.
  unfold DriverBlockReasonSummaryReportRequest.new.
  constructs_simple (str "DriverBlockReasonSummaryReportRequest")
    DriverBlockReasonSummaryReportRequest.__init__.
Qed.

Lemma DriverCancelReasonProfileReportRequest_new_constructs :
  constructs DriverCancelReasonProfileReportRequest.new
    (PObj DriverCancelReasonProfileReportRequest_defaults).
Proof.
  unfold DriverCancelReasonProfileReportRequest.new.
  constructs_simple (str "DriverCancelReasonProfileReportRequest")
    DriverCancelReasonProfileReportRequest.__init__.
Qed.

Lemma DriverTripSummaryReportRequest_new_constructs :
  constructs DriverTripSummaryReportRequest.new
    (PObj DriverTripTransactionReportRequest_defaults).
Proof.
  intros [h e n t]. unfold DriverTripSummaryReportRequest.new.
  destruct (new_run (str "DriverTripSummaryReportRequest")
              DriverTripSummaryReportRequest.__init__ h e n t) as (l & Hl & ->).
  unfold DriverTripSummaryReportRequest.__init__.
  destruct (DriverTripTransactionReportRequest_init_run l
              (str "DriverTripSummaryReportRequest") [] h e n t
              (fun _ => ret (VRef l))) as (ls & lt & lc & Hne & Hg & ->).
  fresh_facts. eexists l, _. split; [reflexivity|]. split; [done|]. split.
  - split; [|done]. cbn [heap]. subseteq_layers.
  - eapply tree_of_instance; [cbn [heap]; apply lookup_insert_eq|].
    cbn [heap]. rewrite DriverTripTransactionReportRequest_fields_nil.
    unfold DriverTripTransactionReportRequest_defaults, BaseReportRequest_defaults.
    cbn [app]. tree_fields.
Qed.

(** No statement of the module binds [false], and no builtin has the name. *)
Lemma load_global_false : load_global (str "false") = raise NameError.
Proof. reflexivity. Qed.

(** C4, at the report kind where it fails: [DriverCreditDebitReportRequest()]
    raises [NameError] in every world, after the defaults it inherits have
    been set. *)
Theorem DriverCreditDebitReportRequest_new_raises (w : World) :
  exists w', DriverCreditDebitReportRequest.new w = (Raise NameError, w').
Proof.
  destruct w as [h e n t]. unfold DriverCreditDebitReportRequest.new.
  destruct (new_run (str "DriverCreditDebitReportRequest")
              DriverCreditDebitReportRequest.__init__ h e n t) as (l & Hl & ->).
  unfold DriverCreditDebitReportRequest.__init__. rewrite bind_bind.
  destruct (DriverTripTransactionReportRequest_init_run l
              (str "DriverCreditDebitReportRequest") [] h e n t
              (fun a => bind ((fun _ => bind (load_global (str "false"))
                                 (fun false_ => setattr (VRef l) (str "withTaxiDriverMapping") false_)) a)
                          (fun _ => ret (VRef l))))
    as (ls & lt & lc & Hne & Hg & ->).
  cbn beta. rewrite load_global_false. eexists. reflexivity.
Qed.

Lemma constructs_fresh_has (ctor : M value) (d : list (pystr * pyval))
    (P : list (pystr * pyval) -> Prop) :
  constructs ctor (PObj d) -> P d -> fresh_has ctor P.
Proof.
  intros Hc HP w. destruct (Hc w) as (l & w' & Hrun & Hl & _ & Ht).
  by exists l, w', d.
Qed.

Lemma fresh_has_tree (ctor : M value) (d : list (pystr * pyval))
    (P : list (pystr * pyval) -> Prop) :
  constructs ctor (PObj d) -> fresh_has ctor P -> P d.
Proof.
  intros Hc Hf.
  destruct (Hc example_world) as (l & w' & Hrun & _ & _ & Ht).
  destruct (Hf example_world) as (l' & w'' & d' & Hrun' & _ & Ht' & HP).
  rewrite Hrun in Hrun'. injection Hrun' as <- <-.
  rewrite Ht in Ht'. by injection Ht' as <-.
Qed.

(** The eight report kinds whose constructor returns: each gives the
    documented defaults of paging, and its filters are [None] or empty. *)
Lemma report_requests_defaults :
  let filters names d := paging_defaults d /\ Forall (fun name => unset_or_empty name d) names in
  fresh_has PeopleProfileReportRequest.new (filters [str "peopleId"])
  /\ fresh_has DriverProfileReportRequest.new (filters [str "driverId"])
  /\ fresh_has TaxiProfileReportRequest.new (filters [str "taxiId"])
  /\ fresh_has VehicleModelProfileReportRequest.new (filters [str "modelId"])
  /\ fresh_has DriverTripTransactionReportRequest.new (filters trip_transaction_filters)
  /\ fresh_has DriverTripSummaryReportRequest.new (filters trip_transaction_filters)
  /\ fresh_has DriverBlockReasonSummaryReportRequest.new (filters [str "driverId"])
  /\ fresh_has DriverCancelReasonProfileReportRequest.new (filters [str "reasonId"]).
Proof.
  intros filters.
  repeat apply conj;
    first [ eapply constructs_fresh_has; [apply PeopleProfileReportRequest_new_constructs|]
          | eapply constructs_fresh_has; [apply DriverProfileReportRequest_new_constructs|]
          | eapply constructs_fresh_has; [apply TaxiProfileReportRequest_new_constructs|]
          | eapply constructs_fresh_has; [apply VehicleModelProfileReportRequest_new_constructs|]
          | eapply constructs_fresh_has; [apply DriverTripTransactionReportRequest_new_constructs|]
          | eapply constructs_fresh_has; [apply DriverTripSummaryReportRequest_new_constructs|]
          | eapply constructs_fresh_has; [apply DriverBlockReasonSummaryReportRequest_new_constructs|]
          | eapply constructs_fresh_has; [apply DriverCancelReasonProfileReportRequest_new_constructs|] ];
    (split; [by repeat split|]);
    unfold trip_transaction_filters, unset_or_empty;
    repeat (apply List.Forall_cons; [first [by left | by right]|]); constructor.
Qed.

(** C5 as it is stated does not hold: the date-type tag of a new
    [DriverTripTransactionReportRequest] is neither [None] nor empty. *)
Lemma DriverTripTransactionReportRequest_dateType_set :
  ~ fresh_has DriverTripTransactionReportRequest.new
      (fun d => paging_defaults d
                /\ dict_get (str "sorters") d = Some (PList [])
                /\ Forall (fun name => unset_or_empty name d)
                     (trip_transaction_filters ++ [str "dateType"])).
Proof.
  intros H.
  apply (fresh_has_tree _ _ _ DriverTripTransactionReportRequest_new_constructs) in H
    as (_ & _ & H).
  apply Forall_app in H as [_ H]. apply Forall_cons in H as [[H|H] _]; discriminate H.
Qed.

(** C5, amended: a new [DriverTripTransactionReportRequest] has
    [pagingEnabled=True], [pageSize=10], [pageIndex=0], an empty [sorters],
    every optional filter [None] or empty, and the date-type tag
    ["CREATE_TIME"]. *)
Theorem DriverTripTransactionReportRequest_new_defaults :
  fresh_has DriverTripTransactionReportRequest.new
    (fun d => paging_defaults d
              /\ dict_get (str "sorters") d = Some (PList [])
              /\ Forall (fun name => unset_or_empty name d) trip_transaction_filters
              /\ dict_get (str "dateType") d = Some (PStr (DateType_value CREATE_TIME))).
Proof.
  eapply constructs_fresh_has; [apply DriverTripTransactionReportRequest_new_constructs|].
  split; [by repeat split|]. split; [done|]. split; [|done].
  unfold trip_transaction_filters, unset_or_empty.
  repeat (apply List.Forall_cons; [first [by left | by right]|]). constructor.
Qed.

(* ===================================================================== *)
(** * The envelope *)
(* ===================================================================== *)

Lemma GatewayRequest_new_run (a : ActionType) (requestData : value) (h : gmap loc cell)
    (e : Env) (n : nat) (t : list event) :
  exists l, h !! l = None /\
    GatewayRequest.new a requestData (mkW h e n t)
    = (Ok (VRef l),
       mkW (<[l := Instance (str "GatewayRequest")
                     [(str "apiVersion", VStr (str "v2_10_0"));
                      (str "messageId", VStr (uuid4 e n));
                      (str "requestDate", VStr (now_isoformat e (S n)));
                      (str "validateOnly", VBool false);
                      (str "actionType", VStr (ActionType_value a));
                      (str "requestData", requestData)]]> h)
           e (S (S n)) t).
Proof.
  unfold GatewayRequest.new.
  destruct (new_run (str "GatewayRequest")
              (fun self => GatewayRequest.__init__ self a requestData) h e n t)
    as (l & Hl & ->).
  exists l. split; [done|]. unfold GatewayRequest.__init__.
  step_setattr. rewrite !bind_bind.
  change (bind str_uuid4 ?k (mkW ?h' e n t)) with (k (VStr (uuid4 e n)) (mkW h' e (S n) t)).
  cbn beta. step_setattr. rewrite !bind_bind.
  change (bind datetime_now_isoformat ?k (mkW ?h' e (S n) t))
    with (k (VStr (now_isoformat e (S n))) (mkW h' e (S (S n)) t)).
  cbn beta. do 3 step_setattr. rewrite bind_setattr_self. reflexivity.
Qed.

Lemma snapshot_data (n : nat) (h : gmap loc cell) (v : value) :
  match v with
  | VNone => snapshot n h v = Some PNone
  | VBool b => snapshot n h v = Some (PBool b)
  | VInt z => snapshot n h v = Some (PInt z)
  | VFloat f => snapshot n h v = Some (PFloat f)
  | VStr s => snapshot n h v = Some (PStr s)
  | _ => True
  end.
Proof. by destruct v, n. Qed.

(** The tree of an envelope: its six items, the tree of the request
    under [requestData]. *)
Lemma GatewayRequest_tree (l : loc) (h : gmap loc cell) (e : Env) (n : nat)
    (t : list event) (fields : list (pystr * value)) (requestData : value)
    (a uuid date : pystr) (d : list (pystr * pyval)) :
  h !! l = None ->
  snapshot (S (size h)) h requestData = Some (PObj d) ->
  tree_of (mkW (<[l := Instance (str "GatewayRequest")
                        [(str "apiVersion", VStr (str "v2_10_0"));
                         (str "messageId", VStr uuid);
                         (str "requestDate", VStr date);
                         (str "validateOnly", VBool false);
                         (str "actionType", VStr a);
                         (str "requestData", requestData)]]> h) e n t) (VRef l)
  = Some (PObj [(str "apiVersion", PStr (str "v2_10_0"));
                (str "messageId", PStr uuid);
                (str "requestDate", PStr date);
                (str "validateOnly", PBool false);
                (str "actionType", PStr a);
                (str "requestData", PObj d)]).
Proof.
  intros Hl Hreq. unfold tree_of. cbn [heap].
  eapply snapshot_instance; [apply lookup_insert_eq|].
  rewrite map_size_insert_None by done.
  repeat (apply List.Forall2_cons; [split; [reflexivity|]|]); try apply List.Forall2_nil;
    try reflexivity.
  eapply snapshot_mono; [exact Hreq|lia|]. by apply insert_subseteq.
Qed.

Lemma envelope_to_json (a uuid date : pystr) (d : list (pystr * pyval)) :
  to_json (PObj [(str "apiVersion", PStr (str "v2_10_0"));
                 (str "messageId", PStr uuid);
                 (str "requestDate", PStr date);
                 (str "validateOnly", PBool false);
                 (str "actionType", PStr a);
                 (str "requestData", PObj d)])
  = envelope_text a uuid date (Encoder.iterencode 1 (PObj d)).
Proof.
  unfold to_json, Encoder.dumps, envelope_text.
  cbn [Encoder.iterencode List.map fst snd].
  change (Encoder.iterencode_dict 1
            (List.map (fun kv => (fst kv, Encoder.iterencode 2 (snd kv))) d))
    with (Encoder.iterencode 1 (PObj d)).
  generalize (Encoder.iterencode 1 (PObj d)) as R.
  generalize (Encoder.encode_basestring_ascii a) as A.
  generalize (Encoder.encode_basestring_ascii uuid) as U.
  generalize (Encoder.encode_basestring_ascii date) as D.
  intros. unfold Encoder.iterencode_dict.
  change (sorted_items ?x) with
    [(str "actionType", A);
     (str "apiVersion", Encoder.encode_basestring_ascii (str "v2_10_0"));
     (str "messageId", U); (str "requestData", R); (str "requestDate", D);
     (str "validateOnly", str "false")].
  cbn [List.map fst snd Encoder.join]. rewrite <- !app_assoc. reflexivity.
Qed.

Lemma iterencode_dict_braces (lvl : nat) (items : list (pystr * pystr)) :
  exists body, Encoder.iterencode_dict lvl items = str "{" ++ body ++ str "}".
Proof.
  destruct items as [|kv items].
  - by exists [].
  - unfold Encoder.iterencode_dict.
    set (sep := Encoder.item_separator ++ Encoder.newline_indent (S lvl)).
    set (chunks := List.map _ _).
    exists (Encoder.newline_indent (S lvl) ++ Encoder.join sep chunks
            ++ Encoder.newline_indent lvl).
    by rewrite <- !app_assoc.
Qed.

(** C6. The envelope built for any action and any report request has
    [apiVersion] ["v2_10_0"], [validateOnly] [False], the string tag of the
    action under [actionType] and the request itself under [requestData];
    in its JSON text the tag is a string and the request a nested object. *)
Theorem GatewayRequest_new_envelope (a : ActionType) (requestData : value) (w : World)
    (d : list (pystr * pyval)) :
  tree_of w requestData = Some (PObj d) ->
  exists l w',
    GatewayRequest.new a requestData w = (Ok (VRef l), w')
    /\ heap w !! l = None
    /\ getattr (VRef l) (str "apiVersion") w' = (Ok (VStr (ApiVersion_value v2_10_0)), w')
    /\ getattr (VRef l) (str "validateOnly") w' = (Ok (VBool false), w')
    /\ getattr (VRef l) (str "actionType") w' = (Ok (VStr (ActionType_value a)), w')
    /\ getattr (VRef l) (str "requestData") w' = (Ok requestData, w')
    /\ call_to_json (VRef l) w'
       = (Ok (VStr (envelope_text (ActionType_value a) (uuid4 (env w) (calls w))
                      (now_isoformat (env w) (S (calls w)))
                      (Encoder.iterencode 1 (PObj d)))), w')
    /\ exists body, Encoder.iterencode 1 (PObj d) = str "{" ++ body ++ str "}".
Proof.
  destruct w as [h e n t]. unfold tree_of. cbn [heap env calls]. intros Hreq.
  destruct (GatewayRequest_new_run a requestData h e n t) as (l & Hl & ->).
  exists l. eexists. split; [reflexivity|]. split; [done|].
  split; [|split; [|split; [|split; [|split]]]].
  - unfold getattr. cbn [heap]. by rewrite lookup_insert_eq.
  - unfold getattr. cbn [heap]. by rewrite lookup_insert_eq.
  - unfold getattr. cbn [heap]. by rewrite lookup_insert_eq.
  - unfold getattr. cbn [heap]. by rewrite lookup_insert_eq.
  - unfold call_to_json. cbn [heap]. rewrite lookup_insert_eq.
    change (dict_get (str "to_json") _) with (@None value). cbv iota.
    change (bool_decide (str "GatewayRequest" ∈ serializer_classes)) with true. cbv iota.
    unfold Serializer.to_json.
    rewrite (GatewayRequest_tree l h e (S (S n)) t [] requestData _ _ _ d Hl Hreq).
    by rewrite envelope_to_json.
  - simpl. apply iterencode_dict_braces.
Qed.

Lemma GatewayRequest_new_envelope_witness :
  let req := VRef 1%positive in
  let w := {| heap := {[1%positive := Instance (str "PeopleProfileReportRequest")
                                        [(str "peopleId", VInt 223)]]};
              env := example_env; calls := 0; trace := [] |} in
  exists l w',
    GatewayRequest.new PEOPLE_PROFILE req w = (Ok (VRef l), w')
    /\ call_to_json (VRef l) w'
       = (Ok (VStr (envelope_text (str "PEOPLE_PROFILE")
                      (str "00000000-0000-4000-8000-000000000000")
                      (str "2019-01-01T00:00:00.000000")
                      (Encoder.iterencode 1 (PObj [(str "peopleId", PInt 223)])))), w').
Proof.
  intros req w.
  destruct (GatewayRequest_new_envelope PEOPLE_PROFILE req w [(str "peopleId", PInt 223)])
    as (l & w' & Hrun & _ & _ & _ & _ & _ & Hjson & _).
  - vm_compute. reflexivity.
  - exists l, w'. split; [exact Hrun|exact Hjson].
Defined.

(* ===================================================================== *)
(** * The gateway client *)
(* ===================================================================== *)

Lemma call_to_json_inv (o : value) (w : World) :
  (exists body, call_to_json o w = (Ok (VStr body), w))
  \/ (exists e, call_to_json o w = (Raise e, w)).
Proof.
  unfold call_to_json, Serializer.to_json.
  destruct o; try (right; by eexists).
  destruct (heap w !! l) as [[cls d|items]|]; try (right; by eexists).
  destruct (dict_get (str "to_json") d); [right; by eexists|].
  destruct (bool_decide (cls ∈ serializer_classes)); [|right; by eexists].
  destruct (tree_of w (VRef l)); [left|right]; by eexists.
Qed.

Lemma getattr_inv (o : value) (name : pystr) (w : World) :
  (exists v, getattr o name w = (Ok v, w)) \/ (exists e, getattr o name w = (Raise e, w)).
Proof.
  unfold getattr. destruct o; try (right; by eexists).
  destruct (heap w !! l) as [[cls d|items]|]; try (right; by eexists).
  destruct (dict_get name d); [left|right]; by eexists.
Qed.

Lemma has_surrogate_app (a b : pystr) :
  has_surrogate (a ++ b) = has_surrogate a || has_surrogate b.
Proof. unfold has_surrogate. apply existsb_app. Qed.

(** A character of [0-9a-f] is no surrogate. *)
Lemma lower_hex_no_surrogate (s : pystr) :
  Forall (fun c => Codec.is_lower_hex c = true) s -> has_surrogate s = false.
Proof.
  induction 1 as [|c s Hc _ IH]; [done|]. cbn [has_surrogate existsb].
  fold (has_surrogate s). rewrite IH, orb_false_r.
  unfold Codec.is_lower_hex in Hc.
  apply orb_true_iff in Hc as [[H1 H2]%andb_true_iff|[H1 H2]%andb_true_iff];
    apply N.leb_le in H1, H2; apply andb_false_iff; left; apply N.leb_gt; lia.
Qed.

(** A signature is printed whatever the secret and the message. *)
Lemma generate_hmac_no_surrogate (secretKey rawJson : value) (sig : pystr) :
  generate_hmac secretKey rawJson = Ok sig -> has_surrogate sig = false.
Proof.
  unfold generate_hmac, encode.
  destruct secretKey as [| | | |secret| |]; try done.
  destruct (Codec.encode_utf8 secret) as [key|]; [|done].
  destruct rawJson as [| | | |body| |]; try done.
  destruct (Codec.encode_utf8 body) as [msg|]; [|done].
  unfold HMAC.hexdigest. rewrite hmac_new_digest. intros [= <-].
  apply lower_hex_no_surrogate, hexlify_lower. unfold HMAC.hmac_sha256. apply digest_bytes.
Qed.

(** [post_http_request] on three strings: three lines are printed, the
    request is made, and the answer, if there is one, is printed.  A line
    that cannot be printed ends the call. *)
Lemma post_http_request_str (url body sig : pystr) (w : World) :
  let headers := [(str "Content-Type", str "application/json"); (str "HMAC", sig)] in
  let w1 := log (EPrint (str "Http url: " ++ url)) w in
  let w2 := log (EPrint (str "Http header: HMAC: " ++ sig)) w1 in
  let w3 := log (EPrint (str "Http body: " ++ body)) w2 in
  post_http_request (VStr url) (VStr body) (VStr sig) w
  = if has_surrogate url then (Raise UnicodeEncodeError, w)
    else if has_surrogate sig then (Raise UnicodeEncodeError, w1)
    else if has_surrogate body then (Raise UnicodeEncodeError, w2)
    else
      match requests_post (env w) (3 + calls w) url body headers with
      | Ok text =>
          if has_surrogate text
          then (Raise UnicodeEncodeError, log (EPost url body headers) w3)
          else (Ok (VStr text),
                log (EPrint (str "Http response: " ++ text)) (log (EPost url body headers) w3))
      | Raise e => (Raise e, log (EPost url body headers) w3)
      end.
Proof.
  intros headers w1 w2 w3. subst w1 w2 w3.
  unfold post_http_request, bind, str_add, as_str, ret, print, requests_post_text.
  rewrite !has_surrogate_app.
  change (has_surrogate (str "Http url: ")) with false.
  change (has_surrogate (str "Http header: HMAC: ")) with false.
  change (has_surrogate (str "Http body: ")) with false.
  cbn [orb].
  destruct (has_surrogate url); [done|].
  destruct (has_surrogate sig); [done|].
  destruct (has_surrogate body); [done|].
  cbn [fst snd log env calls HttpHeader_value].
  destruct (requests_post _ _ _ _ _) as [text|e]; [|done].
  rewrite has_surrogate_app. change (has_surrogate (str "Http response: ")) with false.
  cbn [orb]. by destruct (has_surrogate text).
Qed.

Lemma post_http_request_not_str (url body sig : value) (w : World) :
  (forall s, url <> VStr s) -> post_http_request url body sig w = (Raise TypeError, w).
Proof. intros H. destruct url; try done. by destruct (H s). Qed.

Lemma process_gateway_request_unfold (clientConfig gatewayRequest : value) (w : World) :
  process_gateway_request clientConfig gatewayRequest w
  = match call_to_json gatewayRequest w with
    | (Raise e, w1) => (Raise e, w1)
    | (Ok rawRequest, w1) =>
        match getattr clientConfig (str "hmacSecret") w1 with
        | (Raise e, w2) => (Raise e, w2)
        | (Ok hmacSecret, w2) =>
            match generate_hmac hmacSecret rawRequest with
            | Raise e => (Raise e, w2)
            | Ok hmac =>
                match getattr clientConfig (str "serviceEndpoint") w2 with
                | (Raise e, w3) => (Raise e, w3)
                | (Ok serviceEndpoint, w3) =>
                    match post_http_request serviceEndpoint rawRequest (VStr hmac) w3 with
                    | (Raise e, w4) => (Raise e, w4)
                    | (Ok rawResponse, w4) =>
                        (json_to_object (runtime (env w4)) rawResponse, w4)
                    end
                end
            end
        end
    end.
Proof.
  unfold process_gateway_request, bind, lift.
  destruct (call_to_json gatewayRequest w) as [[rawRequest|?] w1]; [|done].
  destruct (getattr clientConfig (str "hmacSecret") w1) as [[hmacSecret|?] w2]; [|done].
  destruct (generate_hmac hmacSecret rawRequest) as [hmac|?]; [|done].
  by destruct (getattr clientConfig (str "serviceEndpoint") w2) as [[serviceEndpoint|?] w3].
Qed.

(** What one call of [process_gateway_request] does, whatever the outcome:
    either it raises before anything reaches the outside, or the text of
    the envelope is signed and that text and its signature are what is
    printed and, if the text can be printed, sent. *)
Lemma process_gateway_request_cases (clientConfig gatewayRequest : value) (w : World) :
  (exists e, process_gateway_request clientConfig gatewayRequest w = (Raise e, w))
  \/ exists body secret sig url,
       call_to_json gatewayRequest w = (Ok (VStr body), w)
       /\ getattr clientConfig (str "hmacSecret") w = (Ok secret, w)
       /\ generate_hmac secret (VStr body) = Ok sig
       /\ getattr clientConfig (str "serviceEndpoint") w = (Ok (VStr url), w)
       /\ has_surrogate url = false
       /\ let headers := [(str "Content-Type", str "application/json"); (str "HMAC", sig)] in
          let w2 := log (EPrint (str "Http header: HMAC: " ++ sig))
                      (log (EPrint (str "Http url: " ++ url)) w) in
          let w4 := log (EPost url body headers)
                      (log (EPrint (str "Http body: " ++ body)) w2) in
          process_gateway_request clientConfig gatewayRequest w
          = if has_surrogate body then (Raise UnicodeEncodeError, w2)
            else
              match requests_post (env w) (3 + calls w) url body headers with
              | Ok text =>
                  if has_surrogate text then (Raise UnicodeEncodeError, w4)
                  else (json_to_object (runtime (env w)) (VStr text),
                        log (EPrint (str "Http response: " ++ text)) w4)
              | Raise e => (Raise e, w4)
              end.
Proof.
  rewrite process_gateway_request_unfold.
  destruct (call_to_json_inv gatewayRequest w) as [[body E1]|[e E1]];
    rewrite E1; [|left; eauto].
  destruct (getattr_inv clientConfig (str "hmacSecret") w) as [[secret E2]|[e E2]];
    rewrite E2; [|left; eauto].
  destruct (generate_hmac secret (VStr body)) as [sig|e] eqn:E3; [|left; eauto].
  destruct (getattr_inv clientConfig (str "serviceEndpoint") w) as [[endpoint E4]|[e E4]];
    rewrite E4; [|left; eauto].
  destruct endpoint as [| | | |url| |];
    try (left; rewrite post_http_request_not_str by done; eauto).
  rewrite post_http_request_str, (generate_hmac_no_surrogate _ _ _ E3).
  destruct (has_surrogate url) eqn:Eu; [left; eauto|].
  right. exists body, secret, sig, url. do 5 (split; [done|]).
  intros headers w2 w4. destruct (has_surrogate body); [done|].
  destruct (requests_post _ _ _ _ _) as [text|e]; [|done].
  by destruct (has_surrogate text).
Qed.

Lemma process_gateway_request_heap (clientConfig gatewayRequest : value) (w : World) :
  heap (snd (process_gateway_request clientConfig gatewayRequest w)) = heap w.
Proof.
  destruct (process_gateway_request_cases clientConfig gatewayRequest w)
    as [[e ->]|(body & secret & sig & url & _ & _ & _ & _ & _ & ->)]; [done|].
  destruct (has_surrogate body); [done|].
  destruct (requests_post _ _ _ _ _) as [text|e]; [|done].
  by destruct (has_surrogate text).
Qed.

(** C2. What [process_gateway_request] signs is what it sends.  The request
    is serialized first; the signature is [generate_hmac] of the secret and
    of the text that [to_json] returned; and when the endpoint is a string
    and the lines can be printed, one request is made, whose body is that
    very text and whose [HMAC] header is that signature.  In every other
    case nothing is sent. *)
Theorem process_gateway_request_sends_what_it_signs
    (clientConfig gatewayRequest : value) (w : World) :
  let r := fst (process_gateway_request clientConfig gatewayRequest w) in
  let tr := trace (snd (process_gateway_request clientConfig gatewayRequest w)) in
  match fst (call_to_json gatewayRequest w) with
  | Raise e => r = Raise e /\ tr = trace w
  | Ok rawRequest =>
      match fst (getattr clientConfig (str "hmacSecret") w) with
      | Raise e => r = Raise e /\ tr = trace w
      | Ok hmacSecret =>
          match generate_hmac hmacSecret rawRequest with
          | Raise e => r = Raise e /\ tr = trace w
          | Ok hmac =>
              match fst (getattr clientConfig (str "serviceEndpoint") w), rawRequest with
              | Raise e, _ => r = Raise e /\ tr = trace w
              | Ok (VStr url), VStr body =>
                  let headers := [(str "Content-Type", str "application/json");
                                  (HttpHeader_value HMAC_, hmac)] in
                  let printed := [EPrint (str "Http url: " ++ url);
                                  EPrint (str "Http header: HMAC: " ++ hmac)] in
                  let sent := printed ++ [EPrint (str "Http body: " ++ body);
                                          EPost url body headers] in
                  if has_surrogate url then r = Raise UnicodeEncodeError /\ tr = trace w
                  else if has_surrogate body
                  then r = Raise UnicodeEncodeError /\ tr = trace w ++ printed
                  else
                    match requests_post (env w) (3 + calls w) url body headers with
                    | Raise e => r = Raise e /\ tr = trace w ++ sent
                    | Ok text =>
                        if has_surrogate text
                        then r = Raise UnicodeEncodeError /\ tr = trace w ++ sent
                        else r = json_to_object (runtime (env w)) (VStr text)
                             /\ tr = trace w ++ sent
                                       ++ [EPrint (str "Http response: " ++ text)]
                    end
              | Ok _, _ => r = Raise TypeError /\ tr = trace w
              end
          end
      end
  end.
Proof.
  intros r tr. subst r tr. rewrite process_gateway_request_unfold.
  destruct (call_to_json_inv gatewayRequest w) as [[body E1]|[e E1]];
    rewrite E1; cbn [fst]; [|done].
  destruct (getattr_inv clientConfig (str "hmacSecret") w) as [[secret E2]|[e E2]];
    rewrite E2; cbn [fst]; [|done].
  destruct (generate_hmac secret (VStr body)) as [sig|e] eqn:E3; [|done].
  destruct (getattr_inv clientConfig (str "serviceEndpoint") w) as [[endpoint E4]|[e E4]];
    rewrite E4; cbn [fst]; [|done].
  destruct endpoint as [| | | |url| |];
    try (rewrite post_http_request_not_str by done; done).
  rewrite post_http_request_str, (generate_hmac_no_surrogate _ _ _ E3).
  cbv zeta. destruct (has_surrogate url); [done|].
  destruct (has_surrogate body).
  { split; [done|]. cbn [snd trace log]. by rewrite <- !app_assoc. }
  destruct (requests_post _ _ _ _ _) as [text|e].
  - destruct (has_surrogate text); (split; [done|]); cbn [snd trace log];
      by rewrite <- !app_assoc.
  - split; [done|]. cbn [snd trace log]. by rewrite <- !app_assoc.
Qed.

(** A configuration with a secret and an endpoint, and an envelope in the
    store: the text of the envelope is printed and posted under its
    signature, and the response is printed. *)
Lemma process_gateway_request_sends_what_it_signs_witness :
  let w := {| heap := {[1%positive := Instance (str "ClientConfig")
                          [(str "serviceEndpoint", VStr (str "http://gateway/reporting"));
                           (str "hmacSecret", VStr (str "keep-this-secret"))];
                        2%positive := Instance (str "GatewayRequest")
                          [(str "actionType", VStr (str "TAXI_PROFILE"))]]};
              env := example_env; calls := 0; trace := [] |} in
  let body := str "{" ++ 10 :: str "    " ++ jstr "'actionType': 'TAXI_PROFILE'"
                ++ 10 :: str "}" in
  exists sig,
    generate_hmac (VStr (str "keep-this-secret")) (VStr body) = Ok sig
    /\ trace (snd (process_gateway_request (VRef 1%positive) (VRef 2%positive) w))
       = [EPrint (str "Http url: http://gateway/reporting");
          EPrint (str "Http header: HMAC: " ++ sig);
          EPrint (str "Http body: " ++ body);
          EPost (str "http://gateway/reporting") body
            [(str "Content-Type", str "application/json"); (str "HMAC", sig)];
          EPrint (str "Http response: " ++ jstr "{'responseData':{'transactions':[]}}")].
Proof.
  intros w body.
  pose proof (process_gateway_request_sends_what_it_signs
                (VRef 1%positive) (VRef 2%positive) w) as H.
  cbv zeta in H.
  destruct (generate_hmac (VStr (str "keep-this-secret")) (VStr body)) as [sig|e] eqn:E;
    [|by vm_compute in E].
  exists sig. split; [done|].
  change (fst (call_to_json (VRef 2%positive) w)) with (@Ok value (VStr body)) in H.
  cbv iota in H.
  change (fst (getattr (VRef 1%positive) (str "hmacSecret") w))
    with (@Ok value (VStr (str "keep-this-secret"))) in H.
  cbv iota in H. rewrite E in H.
  change (fst (getattr (VRef 1%positive) (str "serviceEndpoint") w))
    with (@Ok value (VStr (str "http://gateway/reporting"))) in H.
  cbv iota in H.
  change (has_surrogate (str "http://gateway/reporting")) with false in H.
  change (has_surrogate body) with false in H.
  cbv iota in H. exact (proj2 H).
Defined.

(** The session of the example: what is signed is what is sent. *)
Example example_session_trace :
  exists body sig,
    trace (snd (example_session example_world))
    = [EPrint (str "Http url: http://146.148.110.253:8080/proxy/finance/reporting");
       EPrint (str "Http header: HMAC: " ++ sig);
       EPrint (str "Http body: " ++ body);
       EPost (str "http://146.148.110.253:8080/proxy/finance/reporting") body
         [(str "Content-Type", str "application/json"); (str "HMAC", sig)];
       EPrint (str "Http response: " ++ jstr "{'responseData':{'transactions':[]}}")]
    /\ generate_hmac (VStr (str "keep-this-secret")) (VStr body) = Ok sig
    /\ length sig = 64%nat.
Proof.
  let t := eval vm_compute in (trace (snd (example_session example_world))) in
  match t with
  | [_; _; _; EPost _ ?body [_; (_, ?sig)]; _] => exists body, sig
  end.
  split; [|split]; vm_compute; reflexivity.
Qed.

Lemma tree_of_weaken (w w' : World) (v : value) (t : pyval) :
  heap w ⊆ heap w' -> tree_of w v = Some t -> tree_of w' v = Some t.
Proof.
  intros Hsub Ht. unfold tree_of in *.
  eapply snapshot_mono; [exact Ht| |done].
  apply map_subseteq_size in Hsub. lia.
Qed.

Lemma getattr_weaken (w w' : World) (o : value) (name : pystr) (v : value) :
  heap w ⊆ heap w' -> getattr o name w = (Ok v, w) -> getattr o name w' = (Ok v, w').
Proof.
  intros Hsub. unfold getattr. destruct o; try done.
  destruct (heap w !! l) as [[cls d|items]|] eqn:E; try done.
  rewrite (lookup_weaken _ _ _ _ E Hsub).
  destruct (dict_get name d); [|done]. by intros [= ->].
Qed.

Lemma fetch_heap (a : ActionType) (clientConfig reportRequest : value) (w : World) :
  heap w ⊆ heap (snd (fetch a clientConfig reportRequest w)).
Proof.
  destruct w as [h e n t]. unfold fetch. unfold bind at 1.
  destruct (GatewayRequest_new_run a reportRequest h e n t) as (l & Hl & ->).
  unfold bind.
  pose proof (process_gateway_request_heap clientConfig (VRef l)
                (mkW (<[l:=Instance (str "GatewayRequest")
                            [(str "apiVersion", VStr (str "v2_10_0"));
                             (str "messageId", VStr (uuid4 e n));
                             (str "requestDate", VStr (now_isoformat e (S n)));
                             (str "validateOnly", VBool false);
                             (str "actionType", VStr (ActionType_value a));
                             (str "requestData", reportRequest)]]> h) e (S (S n)) t)) as Hh.
  destruct (process_gateway_request _ _ _) as [[resp|err] w1]; cbn [snd heap] in *.
  - unfold lift. cbn [snd]. rewrite Hh. by apply insert_subseteq.
  - rewrite Hh. by apply insert_subseteq.
Qed.

(** C10. [process_gateway_request] and every [fetch_*] leave the inputs of
    the caller as they were: the store is unchanged by the first and only
    grows by the envelope in the second, so the report request, its sorters
    and the client configuration read the same after the call as before. *)
Theorem fetch_leaves_inputs (a : ActionType) (clientConfig reportRequest : value) (w : World) :
  let w' := snd (fetch a clientConfig reportRequest w) in
  heap (snd (process_gateway_request clientConfig reportRequest w)) = heap w
  /\ heap w ⊆ heap w'
  /\ (forall v t, tree_of w v = Some t -> tree_of w' v = Some t)
  /\ (forall o name v, getattr o name w = (Ok v, w) -> getattr o name w' = (Ok v, w')).
Proof.
  intros w'. pose proof (fetch_heap a clientConfig reportRequest w) as Hsub.
  split; [apply process_gateway_request_heap|]. split; [done|]. split.
  - intros v t. by apply tree_of_weaken.
  - intros o name v. by apply getattr_weaken.
Qed.

(* ===================================================================== *)
(** * The decoder: what it accepts *)
(* ===================================================================== *)

Lemma is_ws_spec (c : N) : Decoder.is_ws c = true -> c = 32 \/ c = 9 \/ c = 10 \/ c = 13.
Proof.
  unfold Decoder.is_ws. rewrite !orb_true_iff, !N.eqb_eq. tauto.
Qed.

Lemma skip_ws_spec (s : pystr) : exists w, s = w ++ Decoder.skip_ws s /\ RFC8259.ws w.
Proof.
  induction s as [|c s (w & Hs & Hw)]; simpl.
  - exists []. split; [done|constructor].
  - destruct (Decoder.is_ws c) eqn:E.
    + exists (c :: w). split; [by rewrite Hs at 1|]. constructor; [by apply is_ws_spec|done].
    + exists []. split; [done|constructor].
Qed.

Lemma is_digit_spec (c : N) : Decoder.is_digit c = true -> RFC8259.digit c.
Proof. unfold Decoder.is_digit, RFC8259.digit. rewrite andb_true_iff, !N.leb_le. tauto. Qed.

Lemma span_digits_spec (s d r : pystr) :
  Decoder.span_digits s = (d, r) -> s = d ++ r /\ Forall RFC8259.digit d.
Proof.
  revert d r. induction s as [|c s IH]; simpl; intros d r.
  - by intros [= <- <-].
  - destruct (Decoder.is_digit c) eqn:E; [|by intros [= <- <-]].
    destruct (Decoder.span_digits s) as [d' r']. intros [= <- <-].
    destruct (IH d' r' eq_refl) as [-> Hd]. split; [done|].
    constructor; [by apply is_digit_spec|done].
Qed.

Lemma strip_prefix_spec (p s r : pystr) : Decoder.strip_prefix p s = Some r -> s = p ++ r.
Proof.
  revert s. induction p as [|c p IH]; intros [|c' s]; simpl; try done.
  - by intros [= ->].
  - by intros [= ->].
  - destruct (N.eqb_spec c c') as [->|]; [|done]. by intros ->%IH.
Qed.

Lemma match_integer_spec (s i r : pystr) :
  Decoder.match_integer s = Some (i, r) ->
  exists sign ip, i = sign ++ ip /\ s = i ++ r /\ (sign = [] \/ sign = [45])
                  /\ RFC8259.int_part ip.
Proof.
  unfold Decoder.match_integer.
  assert (H : forall sign s1, (sign = [] \/ sign = [45]) ->
            match s1 with
            | [] => None
            | c :: s2 =>
                if c =? 48 then Some (sign ++ [48], s2)
                else if Decoder.is_digit c
                     then let (d, r) := Decoder.span_digits s2 in Some (sign ++ c :: d, r)
                     else None
            end = Some (i, r) ->
            exists ip, i = sign ++ ip /\ sign ++ s1 = i ++ r /\ RFC8259.int_part ip).
  { intros sign [|c s2] Hsign; [done|].
    destruct (N.eqb_spec c 48) as [->|Hc].
    - intros [= <- <-]. exists [48]. split; [done|]. split; [by rewrite <- app_assoc|by left].
    - destruct (Decoder.is_digit c) eqn:E; [|done].
      destruct (Decoder.span_digits s2) as [d r'] eqn:Ed. intros [= <- <-].
      apply span_digits_spec in Ed as [-> Hd]. exists (c :: d).
      split; [done|]. split; [by rewrite <- app_assoc|].
      right. exists c, d. split; [done|]. split; [|done].
      apply is_digit_spec in E. unfold RFC8259.digit in E. lia. }
  destruct s as [|c s'].
  - intros Hm. destruct (H [] [] (or_introl eq_refl) Hm) as (ip & -> & Hs & Hip).
    exists [], ip. eauto.
  - destruct (N.eqb_spec c 45) as [->|Hc]; intros Hm.
    + destruct (H [45] s' (or_intror eq_refl) Hm) as (ip & -> & Hs & Hip).
      exists [45], ip. eauto.
    + destruct (H [] (c :: s') (or_introl eq_refl) Hm) as (ip & -> & Hs & Hip).
      exists [], ip. eauto.
Qed.

Lemma match_frac_spec (s f r : pystr) :
  Decoder.match_frac s = (f, r) -> s = f ++ r /\ (f = [] \/ RFC8259.frac f).
Proof.
  unfold Decoder.match_frac. destruct s as [|c s1]; [by intros [= <- <-]; eauto|].
  destruct (N.eqb_spec c 46) as [->|Hc]; [|by intros [= <- <-]; eauto].
  destruct (Decoder.span_digits s1) as [d r'] eqn:Ed.
  apply span_digits_spec in Ed as [-> Hd].
  destruct d as [|x d]; intros [= <- <-]; [by eauto|].
  split; [done|]. right. exists (x :: d). by repeat split.
Qed.

Lemma match_exp_spec (s e r : pystr) :
  Decoder.match_exp s = (e, r) -> s = e ++ r /\ (e = [] \/ RFC8259.exp e).
Proof.
  unfold Decoder.match_exp. destruct s as [|c s1]; [by intros [= <- <-]; eauto|].
  destruct ((c =? 101) || (c =? 69)) eqn:Ec; [|by intros [= <- <-]; eauto].
  apply orb_true_iff in Ec. rewrite !N.eqb_eq in Ec.
  assert (H : forall sign s2, (sign = [] \/ sign = [45] \/ sign = [43]) -> s1 = sign ++ s2 ->
            match Decoder.span_digits s2 with
            | ([], _) => ([], c :: s1)
            | (d, r0) => (c :: sign ++ d, r0)
            end = (e, r) ->
            c :: s1 = e ++ r /\ (e = [] \/ RFC8259.exp e)).
  { intros sign s2 Hsign ->. destruct (Decoder.span_digits s2) as [d r'] eqn:Ed.
    apply span_digits_spec in Ed as [-> Hd].
    destruct d as [|x d]; intros [= <- <-]; [by eauto|].
    split; [simpl; by rewrite <- app_assoc|]. right.
    exists c, sign, (x :: d). by repeat split. }
  destruct s1 as [|c' s'].
  - apply (H [] []); eauto.
  - destruct ((c' =? 45) || (c' =? 43)) eqn:Ec'.
    + apply orb_true_iff in Ec'. rewrite !N.eqb_eq in Ec'.
      apply (H [c'] s'); [|done]. destruct Ec' as [->| ->]; eauto.
    + apply (H [] (c' :: s')); eauto.
Qed.

Lemma match_number_spec (rt : Runtime) (s : pystr) (v : pyval) (r : pystr) :
  Decoder.match_number rt s = Some (v, r) -> exists pre, s = pre ++ r /\ RFC8259.number pre.
Proof.
  unfold Decoder.match_number.
  destruct (Decoder.match_integer s) as [[i s1]|] eqn:Ei; [|done].
  destruct (Decoder.match_frac s1) as [f s2] eqn:Ef.
  destruct (Decoder.match_exp s2) as [e s3] eqn:Ee.
  apply match_integer_spec in Ei as (sign & ip & -> & -> & Hsign & Hip).
  apply match_frac_spec in Ef as [-> Hf]. apply match_exp_spec in Ee as [-> He].
  intros Hv. assert (r = s3) as -> by (destruct f, e; congruence).
  exists (sign ++ ip ++ f ++ e). split; [by rewrite <- !app_assoc|].
  by exists sign, ip, f, e.
Qed.

Lemma hex_value_spec (c n : N) : Decoder.hex_value c = Some n -> RFC8259.hexdig c.
Proof.
  unfold Decoder.hex_value, RFC8259.hexdig.
  destruct ((48 <=? c) && (c <=? 57)) eqn:E1;
    [apply andb_true_iff in E1; rewrite !N.leb_le in E1; lia|].
  destruct ((97 <=? c) && (c <=? 102)) eqn:E2;
    [apply andb_true_iff in E2; rewrite !N.leb_le in E2; lia|].
  destruct ((65 <=? c) && (c <=? 70)) eqn:E3;
    [apply andb_true_iff in E3; rewrite !N.leb_le in E3; lia|done].
Qed.

Lemma hex4_spec (a b c d n : N) :
  Decoder.hex4 a b c d = Some n ->
  RFC8259.hexdig a /\ RFC8259.hexdig b /\ RFC8259.hexdig c /\ RFC8259.hexdig d.
Proof.
  unfold Decoder.hex4.
  destruct (Decoder.hex_value a) eqn:Ea; [|done].
  destruct (Decoder.hex_value b) eqn:Eb; [|done].
  destruct (Decoder.hex_value c) eqn:Ec; [|done].
  destruct (Decoder.hex_value d) eqn:Ed; [|done].
  intros _. repeat split; by eapply hex_value_spec.
Qed.

Lemma backslash_spec (c n : N) :
  Decoder.backslash c = Some n -> c ∈ [34; 92; 47; 98; 102; 110; 114; 116].
Proof.
  unfold Decoder.backslash.
  repeat match goal with
         | |- context [c =? ?k] =>
             destruct (N.eqb_spec c k) as [->|?];
             [intros _; apply list_elem_of_In; simpl; tauto|]
         end.
  done.
Qed.

Lemma cons_char_inv (c : N) (x : result (pystr * pystr)) (content r : pystr) :
  Decoder.cons_char c x = Ok (content, r) ->
  exists content', x = Ok (content', r) /\ content = c :: content'.
Proof. destruct x as [[content' r']|e]; [|done]. intros [= <- <-]. eauto. Qed.

(** [scanstring] accepts what lies between the quotation marks of a JSON
    string. *)
Lemma scanstring_spec (s : pystr) :
  forall content r, Decoder.scanstring s = Ok (content, r) ->
                    exists body, s = body ++ 34 :: r /\ RFC8259.chars body.
Proof.
  induction s as [s IH] using (induction_ltof1 _ (@length N)). unfold ltof in IH.
  intros content r. destruct s as [|c s1]; [done|]. simpl.
  destruct (N.eqb_spec c 34) as [->|Hq].
  { intros [= <- <-]. exists []. split; [done|constructor]. }
  destruct (N.eqb_spec c 92) as [->|Hb].
  - destruct s1 as [|e s2]; [done|].
    destruct (N.eqb_spec e 117) as [->|Hu].
    + destruct s2 as [|h1 [|h2 [|h3 [|h4 s3]]]]; try done.
      destruct (Decoder.hex4 h1 h2 h3 h4) as [uni|] eqn:Eh; [|done].
      apply hex4_spec in Eh as (H1 & H2 & H3 & H4).
      assert (Hs3 : forall x content r,
                 Decoder.cons_char x (Decoder.scanstring s3) = Ok (content, r) ->
                 exists body, 92 :: 117 :: h1 :: h2 :: h3 :: h4 :: s3 = body ++ 34 :: r
                              /\ RFC8259.chars body).
      { intros x content' r' (content'' & Hs & _)%cons_char_inv.
        apply IH in Hs as (body & -> & Hbody); [|simpl; lia].
        exists (92 :: 117 :: h1 :: h2 :: h3 :: h4 :: body). split; [done|].
        by constructor. }
      destruct ((55296 <=? uni) && (uni <=? 56319)); [|by apply Hs3].
      destruct s3 as [|b [|u [|g1 [|g2 [|g3 [|g4 s4]]]]]]; try by apply Hs3.
      destruct ((b =? 92) && (u =? 117)) eqn:Ebu; [|by apply Hs3].
      apply andb_true_iff in Ebu as [->%N.eqb_eq ->%N.eqb_eq].
      destruct (Decoder.hex4 g1 g2 g3 g4) as [uni2|] eqn:Eg; [|done].
      apply hex4_spec in Eg as (G1 & G2 & G3 & G4).
      destruct ((56320 <=? uni2) && (uni2 <=? 57343)); [|by apply Hs3].
      intros (content'' & Hs & _)%cons_char_inv.
      apply IH in Hs as (body & -> & Hbody); [|simpl; lia].
      exists (92 :: 117 :: h1 :: h2 :: h3 :: h4 :: 92 :: 117 :: g1 :: g2 :: g3 :: g4 :: body).
      split; [done|]. apply RFC8259.chars_unicode; try done.
      by apply RFC8259.chars_unicode.
    + destruct (Decoder.backslash e) as [ch|] eqn:Eb; [|done].
      apply backslash_spec in Eb.
      intros (content'' & Hs & _)%cons_char_inv.
      apply IH in Hs as (body & -> & Hbody); [|simpl; lia].
      exists (92 :: e :: body). split; [done|]. by constructor.
  - destruct (N.ltb_spec c 32) as [|Hc]; [done|].
    intros (content'' & Hs & _)%cons_char_inv.
    apply IH in Hs as (body & -> & Hbody); [|simpl; lia].
    exists (c :: body). split; [done|]. by constructor.
Qed.

Section Soundness.
Variable rt : Runtime.
Variables object_hook object_pairs_hook : option (list (pystr * pyval) -> result pyval).

Section Containers.
Variable scan : pystr -> result (pyval * pystr).
Hypothesis Hscan : scan_sound scan.

Lemma array_items_spec (n : nat) :
  forall s acc l r,
    Decoder.array_items scan n s acc = Ok (l, r) ->
    exists els w, s = els ++ w ++ 93 :: r /\ RFC8259.elements true els /\ RFC8259.ws w.
Proof.
  induction n as [|n IH]; intros s acc l r; simpl; [done|].
  destruct (scan s) as [[v s1]|e] eqn:Ev; [|done].
  apply Hscan in Ev as (pre & -> & Hpre).
  destruct (skip_ws_spec s1) as (w & Hs1 & Hw).
  destruct (Decoder.skip_ws s1) as [|c s2]; [done|].
  destruct (N.eqb_spec c 93) as [->|_].
  - intros [= <- <-]. exists pre, w. split; [by rewrite Hs1|]. split; [by constructor|done].
  - destruct (N.eqb_spec c 44) as [->|_]; [|done].
    destruct (skip_ws_spec s2) as (w' & Hs2 & Hw').
    intros (els & w'' & Hels & Hel & Hw'')%IH.
    exists (pre ++ w ++ [44] ++ w' ++ els), w''. split; [|split; [by constructor|done]].
    rewrite Hs1, Hs2, Hels. by rewrite <- !app_assoc.
Qed.

Lemma parse_array_spec (s : pystr) (v : pyval) (r : pystr) :
  Decoder.parse_array scan s = Ok (v, r) ->
  exists pre, 91 :: s = pre ++ r /\ RFC8259.value true pre.
Proof.
  unfold Decoder.parse_array.
  destruct (skip_ws_spec s) as (w & Hs & Hw).
  destruct (Decoder.skip_ws s) as [|c s1] eqn:Esk; [done|].
  destruct (N.eqb_spec c 93) as [->|_].
  - intros [= <- <-]. exists (91 :: w ++ [93]). split; [|by constructor].
    rewrite Hs. simpl. by rewrite <- app_assoc.
  - destruct (Decoder.array_items scan (S (length s)) (c :: s1) []) as [[l r']|e] eqn:Ea;
      [|done].
    intros [= <- <-]. apply array_items_spec in Ea as (els & w' & Hels & Hel & Hw').
    exists (91 :: w ++ els ++ w' ++ [93]). split; [|by constructor].
    rewrite Hs, Hels. simpl. by rewrite <- !app_assoc.
Qed.

Lemma object_pairs_spec (n : nat) :
  forall s acc pairs r,
    Decoder.object_pairs scan n s acc = Ok (pairs, r) ->
    exists ms w, s = ms ++ w ++ 125 :: r /\ RFC8259.members true (34 :: ms) /\ RFC8259.ws w.
Proof.
  induction n as [|n IH]; intros s acc pairs r; simpl; [done|].
  destruct (Decoder.scanstring s) as [[key s1]|e] eqn:Ek; [|done].
  apply scanstring_spec in Ek as (k & -> & Hk).
  destruct (skip_ws_spec s1) as (w1 & Hs1 & Hw1).
  destruct (Decoder.skip_ws s1) as [|c s2]; [done|].
  destruct (N.eqb_spec c 58) as [->|_]; [|done].
  destruct (skip_ws_spec s2) as (w2 & Hs2 & Hw2).
  destruct (scan (Decoder.skip_ws s2)) as [[v s3]|e] eqn:Ev; [|done].
  apply Hscan in Ev as (pre & Hpre & Hv).
  destruct (skip_ws_spec s3) as (w3 & Hs3 & Hw3).
  destruct (Decoder.skip_ws s3) as [|c' s4]; [done|].
  destruct (N.eqb_spec c' 125) as [->|_].
  - intros [= <- <-]. exists (k ++ [34] ++ w1 ++ [58] ++ w2 ++ pre), w3.
    split; [|split; [by constructor|done]].
    rewrite Hs1, Hs2, Hpre, Hs3. by rewrite <- !app_assoc.
  - destruct (N.eqb_spec c' 44) as [->|_]; [|done].
    destruct (skip_ws_spec s4) as (w4 & Hs4 & Hw4).
    destruct (Decoder.skip_ws s4) as [|q s5]; [done|].
    destruct (N.eqb_spec q 34) as [->|_]; [|done].
    intros (ms & w & Hms & Hm & Hw)%IH.
    exists (k ++ [34] ++ w1 ++ [58] ++ w2 ++ pre ++ w3 ++ [44] ++ w4 ++ 34 :: ms), w.
    split; [|split; [by constructor|done]].
    rewrite Hs1, Hs2, Hpre, Hs3, Hs4, Hms. by rewrite <- !app_assoc.
Qed.

Lemma parse_object_spec (s : pystr) (v : pyval) (r : pystr) :
  Decoder.parse_object object_hook object_pairs_hook scan s = Ok (v, r) ->
  exists pre, 123 :: s = pre ++ r /\ RFC8259.value true pre.
Proof.
  unfold Decoder.parse_object.
  destruct (skip_ws_spec s) as (w & Hs & Hw).
  destruct (Decoder.skip_ws s) as [|c s1] eqn:Esk; [done|].
  destruct (N.eqb_spec c 125) as [->|_].
  - destruct (Decoder.finish_object _ _ []); [|done]. intros [= <- <-].
    exists (123 :: w ++ [125]). split; [|by constructor].
    rewrite Hs. simpl. by rewrite <- app_assoc.
  - destruct (N.eqb_spec c 34) as [->|_]; [|done].
    destruct (Decoder.object_pairs scan (S (length s)) s1 []) as [[pairs r']|e] eqn:Eo;
      [|done].
    destruct (Decoder.finish_object _ _ pairs); [|done]. intros [= <- <-].
    apply object_pairs_spec in Eo as (ms & w' & Hms & Hm & Hw').
    exists (123 :: w ++ (34 :: ms) ++ w' ++ [125]). split; [|by constructor].
    rewrite Hs, Hms. by repeat (progress (rewrite <- ?app_assoc; cbn [app])).
Qed.

End Containers.

(** What [scan_once] consumes is a JSON value, or one of the constants
    [NaN], [Infinity] and [-Infinity]. *)
Lemma scan_once_spec (fuel : nat) :
  scan_sound (Decoder.scan_once rt object_hook object_pairs_hook fuel).
Proof.
  induction fuel as [|fuel IH]; intros s v r; cbn [Decoder.scan_once]; [done|].
  destruct s as [|c s1]; [done|].
  destruct (N.eqb_spec c 34) as [->|_].
  { destruct (Decoder.scanstring s1) as [[content r']|e] eqn:Es; [|done].
    intros [= <- <-]. apply scanstring_spec in Es as (body & -> & Hbody).
    exists (34 :: body ++ [34]). split; [simpl; by rewrite <- app_assoc|by constructor]. }
  destruct (N.eqb_spec c 123) as [->|_]; [by apply parse_object_spec|].
  destruct (N.eqb_spec c 91) as [->|_]; [by apply parse_array_spec|].
  destruct (Decoder.strip_prefix (str "null") (c :: s1)) as [r1|] eqn:E1.
  { intros [= <- <-]. apply strip_prefix_spec in E1. eexists. split; [exact E1|constructor]. }
  destruct (Decoder.strip_prefix (str "true") (c :: s1)) as [r2|] eqn:E2.
  { intros [= <- <-]. apply strip_prefix_spec in E2. eexists. split; [exact E2|constructor]. }
  destruct (Decoder.strip_prefix (str "false") (c :: s1)) as [r3|] eqn:E3.
  { intros [= <- <-]. apply strip_prefix_spec in E3. eexists. split; [exact E3|constructor]. }
  destruct (Decoder.match_number rt (c :: s1)) as [[v' r']|] eqn:En.
  { intros [= <- <-]. apply match_number_spec in En as (pre & Hpre & Hn).
    exists pre. split; [done|by constructor]. }
  destruct (Decoder.strip_prefix (str "NaN") (c :: s1)) as [r4|] eqn:E4.
  { intros [= <- <-]. apply strip_prefix_spec in E4. eexists. split; [exact E4|].
    apply RFC8259.value_constant; [done|]. apply list_elem_of_In. simpl. tauto. }
  destruct (Decoder.strip_prefix (str "Infinity") (c :: s1)) as [r5|] eqn:E5.
  { intros [= <- <-]. apply strip_prefix_spec in E5. eexists. split; [exact E5|].
    apply RFC8259.value_constant; [done|]. apply list_elem_of_In. simpl. tauto. }
  destruct (Decoder.strip_prefix (str "-Infinity") (c :: s1)) as [r6|] eqn:E6; [|done].
  intros [= <- <-]. apply strip_prefix_spec in E6. eexists. split; [exact E6|].
  apply RFC8259.value_constant; [done|]. apply list_elem_of_In. simpl. tauto.
Qed.

(** [json.loads] returns for no text but a JSON text, the three constants
    counted among the values. *)
Lemma loads_spec (s : pystr) (v : pyval) :
  Decoder.loads rt object_hook object_pairs_hook s = Ok v -> RFC8259.text true s.
Proof.
  unfold Decoder.loads. destruct (match s with [] => false | c :: _ => c =? 65279 end); [done|].
  destruct (Decoder.scan_once rt object_hook object_pairs_hook (S (length s))
              (Decoder.skip_ws s))
    as [[obj r]|e] eqn:Es; [|done].
  apply scan_once_spec in Es as (pre & Hpre & Hv).
  destruct (skip_ws_spec s) as (w & Hs & Hw).
  destruct (skip_ws_spec r) as (w' & Hr & Hw').
  destruct (Decoder.skip_ws r); [|done]. intros _.
  exists w, pre, w'. split; [|done]. rewrite Hs, Hpre, Hr. by rewrite app_nil_r.
Qed.

End Soundness.

(* ===================================================================== *)
(** * The decoder with [json_object_hook] *)
(* ===================================================================== *)

(** The decoder is run three ways: with [object_hook=json_object_hook], as
    [json_to_object] runs it; without hooks; and with an
    [object_pairs_hook] that keeps the members as they are written.  The
    first is related to the other two, scanner by scanner. *)

Lemma dict_set_on_values {A B} (f : A -> B) (k : pystr) (v : A) (d : list (pystr * A)) :
  dict_set k (f v) (List.map (on_values f) d) = List.map (on_values f) (dict_set k v d).
Proof.
  induction d as [|[k' v'] d IH]; simpl; [done|].
  destruct (str_eqb k k'); simpl; [done|]. by rewrite IH.
Qed.

Lemma dict_of_pairs_on_values {A B} (f : A -> B) (pairs : list (pystr * A)) :
  dict_of_pairs (List.map (on_values f) pairs) = List.map (on_values f) (dict_of_pairs pairs).
Proof.
  unfold dict_of_pairs.
  change (@nil (pystr * B)) with (List.map (on_values f) (@nil (pystr * A))).
  generalize (@nil (pystr * A)) as acc.
  induction pairs as [|[k v] pairs IH]; simpl; intros acc; [done|].
  by rewrite dict_set_on_values, IH.
Qed.

Lemma json_object_hook_on_values (rt : Runtime) (d : list (pystr * pyval)) :
  json_object_hook rt (List.map (on_values as_namedtuples) d)
  = if NamedTuple.valid_names rt (str "Class") (keys d)
    then
      if NamedTuple.distinct_arguments rt (keys d)
      then Ok (as_namedtuples (PDict d)) else Raise SyntaxError
    else Raise ValueError.
Proof.
  unfold json_object_hook.
  assert (Hk : keys (List.map (on_values as_namedtuples) d) = keys d).
  { unfold keys. rewrite List.map_map. by apply List.map_ext. }
  rewrite Hk. destruct (NamedTuple.valid_names _ _ _); [|done].
  destruct (NamedTuple.distinct_arguments _ _); [|done].
  simpl. unfold values. by rewrite List.map_map.
Qed.

(** Names that [namedtuple] accepts are not repeated. *)
Lemma check_seen_NoDup (seen names : list pystr) :
  NamedTuple.check_seen seen names = true ->
  NoDup names /\ forall name, name ∈ names -> name ∉ seen.
Proof.
  revert seen. induction names as [|name names IH]; simpl; intros seen.
  - intros _. split; [constructor|]. by intros name ?%elem_of_nil.
  - intros [[_ Hs]%andb_true_iff Hr]%andb_true_iff.
    apply negb_true_iff, bool_decide_eq_false in Hs.
    destruct (IH _ Hr) as [Hnd Hnot]. split.
    + constructor; [|done]. intros Hin. apply (Hnot _ Hin). left.
    + intros x [->|Hx]%elem_of_cons; [done|]. intros Hin. apply (Hnot _ Hx). by right.
Qed.

Lemma valid_names_NoDup (rt : Runtime) (typename : pystr) (names : list pystr) :
  NamedTuple.valid_names rt typename names = true -> NoDup names.
Proof.
  unfold NamedTuple.valid_names. intros [_ H]%andb_true_iff.
  by apply check_seen_NoDup in H as [H _].
Qed.

Lemma dict_set_fresh {A} (k : pystr) (v : A) (d : list (pystr * A)) :
  k ∉ keys d -> dict_set k v d = d ++ [(k, v)].
Proof.
  induction d as [|[k' v'] d IH]; simpl; [done|].
  unfold keys. simpl. intros [Hne Hk]%not_elem_of_cons.
  destruct (str_eqb k k') eqn:E; [by apply str_eqb_eq in E|]. by rewrite IH.
Qed.

Lemma dict_get_dict_set {A} (name k : pystr) (v : A) (d : list (pystr * A)) :
  dict_get name (dict_set k v d) = if str_eqb name k then Some v else dict_get name d.
Proof.
  induction d as [|[k' v'] d IH]; simpl; [done|].
  destruct (str_eqb k k') eqn:Ek; simpl.
  - apply str_eqb_eq in Ek as <-. by destruct (str_eqb name k).
  - rewrite IH. destruct (str_eqb name k') eqn:En; [|done].
    apply str_eqb_eq in En as ->.
    destruct (str_eqb k' k) eqn:E; [|done].
    apply str_eqb_eq in E as ->. by rewrite str_eqb_refl in Ek.
Qed.

(** A name reads from [dict(pairs)] the value of the last pair that has
    it. *)
Lemma dict_get_dict_of_pairs {A} (name : pystr) (pairs : list (pystr * A)) :
  dict_get name (dict_of_pairs pairs) = dict_get name (rev pairs).
Proof.
  unfold dict_of_pairs. induction pairs as [|[k v] pairs IH] using rev_ind; [done|].
  rewrite fold_left_app, rev_app_distr. simpl. by rewrite dict_get_dict_set, IH.
Qed.

(** [dict(pairs)] is [pairs] when no key comes twice. *)
Lemma dict_of_pairs_NoDup {A} (pairs : list (pystr * A)) :
  NoDup (keys pairs) -> dict_of_pairs pairs = pairs.
Proof.
  unfold dict_of_pairs.
  assert (H : forall acc, NoDup (keys (acc ++ pairs)) ->
              fold_left (fun d kv => dict_set (fst kv) (snd kv) d) pairs acc = acc ++ pairs).
  { induction pairs as [|[k v] pairs IH]; simpl; intros acc Hnd; [by rewrite app_nil_r|].
    rewrite dict_set_fresh.
    - rewrite IH; rewrite <- app_assoc; done.
    - unfold keys in *. rewrite List.map_app in Hnd. simpl in Hnd.
      apply NoDup_app in Hnd as (_ & Hnd & _). intros Hin. apply (Hnd _ Hin). left. }
  intros Hnd. by apply (H []).
Qed.

Section HookAndPlain.
Variable rt : Runtime.

(** The loops give back what they were given, in front of what they read. *)
Lemma array_items_acc (scan : pystr -> result (pyval * pystr)) (n : nat) :
  forall s acc l r, Decoder.array_items scan n s acc = Ok (l, r) ->
                    exists new, l = rev acc ++ new.
Proof.
  induction n as [|n IH]; intros s acc l r; simpl; [done|].
  destruct (scan s) as [[v s1]|e]; [|done].
  destruct (Decoder.skip_ws s1) as [|c s2]; [done|].
  destruct (c =? 93).
  - intros [= <- <-]. exists [v]. done.
  - destruct (c =? 44); [|done]. intros (new & ->)%IH. exists (v :: new).
    simpl. by rewrite <- app_assoc.
Qed.

Lemma object_pairs_acc (scan : pystr -> result (pyval * pystr)) (n : nat) :
  forall s acc l r, Decoder.object_pairs scan n s acc = Ok (l, r) ->
                    exists new, l = rev acc ++ new.
Proof.
  induction n as [|n IH]; intros s acc l r; simpl; [done|].
  destruct (Decoder.scanstring s) as [[key s1]|e]; [|done].
  destruct (Decoder.skip_ws s1) as [|c s2]; [done|].
  destruct (c =? 58); [|done].
  destruct (scan (Decoder.skip_ws s2)) as [[v s3]|e]; [|done].
  destruct (Decoder.skip_ws s3) as [|c' s4]; [done|].
  destruct (c' =? 125).
  - intros [= <- <-]. exists [(key, v)]. done.
  - destruct (c' =? 44); [|done].
    destruct (Decoder.skip_ws s4) as [|q s5]; [done|].
    destruct (q =? 34); [|done].
    intros (new & ->)%IH. exists ((key, v) :: new). simpl. by rewrite <- app_assoc.
Qed.

Section Complete.
Variables scan_m scan_h : pystr -> result (pyval * pystr).
Hypothesis Hscan : hook_complete rt scan_m scan_h.

Lemma array_items_complete (n : nat) :
  forall s acc l r,
    Decoder.array_items scan_m n s acc = Ok (l, r) ->
    forallb (names_valid rt) l = true ->
    Decoder.array_items scan_h n s (List.map as_namedtuples acc)
    = Ok (List.map as_namedtuples l, r).
Proof.
  induction n as [|n IH]; intros s acc l r; simpl; [done|].
  destruct (scan_m s) as [[j s1]|e] eqn:Ej; [|done].
  destruct (Decoder.skip_ws s1) as [|c s2] eqn:E1; [done|].
  destruct (c =? 93) eqn:Ec.
  - intros [= <- <-] Hl. rewrite (Hscan _ _ _ Ej).
    + rewrite E1, Ec. by rewrite List.map_app, List.map_rev.
    + rewrite forallb_forall in Hl. apply Hl, in_or_app. right. by left.
  - destruct (c =? 44) eqn:Ec'; [|done]. intros Ha Hl.
    destruct (array_items_acc _ _ _ _ _ _ Ha) as (new & ->).
    rewrite (Hscan _ _ _ Ej).
    + rewrite E1, Ec, Ec'. by apply (IH _ (j :: acc)).
    + rewrite forallb_forall in Hl. apply Hl, in_or_app. left.
      simpl. apply in_or_app. right. by left.
Qed.

Lemma parse_array_complete (s : pystr) (j : pyval) (r : pystr) :
  Decoder.parse_array scan_m s = Ok (j, r) -> names_valid rt j = true ->
  Decoder.parse_array scan_h s = Ok (as_namedtuples j, r).
Proof.
  unfold Decoder.parse_array.
  destruct (Decoder.skip_ws s) as [|c s1]; [done|].
  destruct (c =? 93); [by intros [= <- <-]|].
  destruct (Decoder.array_items scan_m _ _ _) as [[l r']|e] eqn:Ea; [|done].
  intros [= <- <-] Hl. simpl in Hl.
  pose proof (array_items_complete _ _ [] _ _ Ea Hl) as Hh.
  change (List.map as_namedtuples []) with (@nil pyval) in Hh. by rewrite Hh.
Qed.

Lemma object_pairs_complete (n : nat) :
  forall s acc l r,
    Decoder.object_pairs scan_m n s acc = Ok (l, r) ->
    forallb (fun kv => names_valid rt (snd kv)) l = true ->
    Decoder.object_pairs scan_h n s (List.map (on_values as_namedtuples) acc)
    = Ok (List.map (on_values as_namedtuples) l, r).
Proof.
  induction n as [|n IH]; intros s acc l r; simpl; [done|].
  destruct (Decoder.scanstring s) as [[key s1]|e]; [|done].
  destruct (Decoder.skip_ws s1) as [|c s2]; [done|].
  destruct (c =? 58); [|done].
  destruct (scan_m (Decoder.skip_ws s2)) as [[j s3]|e] eqn:Ej; [|done].
  destruct (Decoder.skip_ws s3) as [|c' s4] eqn:E3; [done|].
  destruct (c' =? 125) eqn:Ec.
  - intros [= <- <-] Hl. rewrite (Hscan _ _ _ Ej).
    + rewrite E3, Ec. by rewrite List.map_app, List.map_rev.
    + rewrite forallb_forall in Hl. apply (Hl (key, j)), in_or_app. right. by left.
  - destruct (c' =? 44) eqn:Ec'; [|done].
    destruct (Decoder.skip_ws s4) as [|q s5] eqn:E4; [done|].
    destruct (q =? 34) eqn:Eq; [|done]. intros Ho Hl.
    destruct (object_pairs_acc _ _ _ _ _ _ Ho) as (new & ->).
    rewrite (Hscan _ _ _ Ej).
    + rewrite E3, Ec, Ec', E4, Eq. by apply (IH _ ((key, j) :: acc)).
    + rewrite forallb_forall in Hl. apply (Hl (key, j)), in_or_app. left.
      simpl. apply in_or_app. right. by left.
Qed.

Lemma finish_object_complete (pairs : list (pystr * pyval)) :
  names_valid rt (PDict pairs) = true ->
  Decoder.finish_object (Some (json_object_hook rt)) None
    (List.map (on_values as_namedtuples) pairs)
  = Ok (as_namedtuples (PDict pairs)).
Proof.
  simpl. intros [[Hv Hd]%andb_true_iff _]%andb_true_iff. unfold Decoder.finish_object.
  rewrite dict_of_pairs_on_values, dict_of_pairs_NoDup by by eapply valid_names_NoDup.
  by rewrite json_object_hook_on_values, Hv, Hd.
Qed.

Lemma parse_object_complete (s : pystr) (j : pyval) (r : pystr) :
  Decoder.parse_object None (Some Decoder.members_hook) scan_m s = Ok (j, r) ->
  names_valid rt j = true ->
  Decoder.parse_object (Some (json_object_hook rt)) None scan_h s
  = Ok (as_namedtuples j, r).
Proof.
  unfold Decoder.parse_object.
  destruct (Decoder.skip_ws s) as [|c s1]; [done|].
  destruct (c =? 125).
  - intros [= <- <-] Hv. pose proof (finish_object_complete [] Hv) as Hf.
    change (List.map (on_values as_namedtuples) []) with (@nil (pystr * pyval)) in Hf.
    by rewrite Hf.
  - destruct (c =? 34); [|done].
    destruct (Decoder.object_pairs scan_m _ _ _) as [[pairs r']|e] eqn:Eo; [|done].
    intros [= <- <-] Hv.
    assert (Hl : forallb (fun kv => names_valid rt (snd kv)) pairs = true)
      by (simpl in Hv; by apply andb_true_iff in Hv as [_ ?]).
    pose proof (object_pairs_complete _ _ [] _ _ Eo Hl) as Hh.
    change (List.map (on_values as_namedtuples) []) with (@nil (pystr * pyval)) in Hh.
    by rewrite Hh, (finish_object_complete pairs Hv).
Qed.

End Complete.

Section Sound.
Variables scan_p scan_h : pystr -> result (pyval * pystr).
Hypothesis Hscan : hook_sound scan_p scan_h.

Lemma array_items_sound (n : nat) :
  forall s acc l r,
    Decoder.array_items scan_h n s (List.map as_namedtuples acc) = Ok (l, r) ->
    exists l', Decoder.array_items scan_p n s acc = Ok (l', r)
               /\ l = List.map as_namedtuples l'.
Proof.
  induction n as [|n IH]; intros s acc l r; simpl; [done|].
  destruct (scan_h s) as [[v s1]|e] eqn:Ev; [|done].
  destruct (Hscan _ _ _ Ev) as (j & -> & ->).
  destruct (Decoder.skip_ws s1) as [|c s2]; [done|].
  destruct (c =? 93).
  - intros [= <- <-]. eexists. split; [done|].
    by rewrite List.map_app, List.map_rev.
  - destruct (c =? 44); [|done]. apply (IH _ (j :: acc)).
Qed.

Lemma parse_array_sound (s : pystr) (v : pyval) (r : pystr) :
  Decoder.parse_array scan_h s = Ok (v, r) ->
  exists j, Decoder.parse_array scan_p s = Ok (j, r) /\ v = as_namedtuples j.
Proof.
  unfold Decoder.parse_array.
  destruct (Decoder.skip_ws s) as [|c s1]; [done|].
  destruct (c =? 93); [intros [= <- <-]; by exists (PList [])|].
  destruct (Decoder.array_items scan_h _ _ _) as [[l r']|e] eqn:Ea; [|done].
  intros [= <- <-].
  destruct (array_items_sound _ _ [] _ _ Ea) as (l' & -> & ->). by exists (PList l').
Qed.

Lemma object_pairs_sound (n : nat) :
  forall s acc l r,
    Decoder.object_pairs scan_h n s (List.map (on_values as_namedtuples) acc) = Ok (l, r) ->
    exists l', Decoder.object_pairs scan_p n s acc = Ok (l', r)
               /\ l = List.map (on_values as_namedtuples) l'.
Proof.
  induction n as [|n IH]; intros s acc l r; simpl; [done|].
  destruct (Decoder.scanstring s) as [[key s1]|e]; [|done].
  destruct (Decoder.skip_ws s1) as [|c s2]; [done|].
  destruct (c =? 58); [|done].
  destruct (scan_h (Decoder.skip_ws s2)) as [[v s3]|e] eqn:Ev; [|done].
  destruct (Hscan _ _ _ Ev) as (j & -> & ->).
  destruct (Decoder.skip_ws s3) as [|c' s4]; [done|].
  destruct (c' =? 125).
  - intros [= <- <-]. eexists. split; [done|].
    by rewrite List.map_app, List.map_rev.
  - destruct (c' =? 44); [|done].
    destruct (Decoder.skip_ws s4) as [|q s5]; [done|].
    destruct (q =? 34); [|done]. apply (IH _ ((key, j) :: acc)).
Qed.

Lemma finish_object_sound (pairs : list (pystr * pyval)) (v : pyval) :
  Decoder.finish_object (Some (json_object_hook rt)) None
    (List.map (on_values as_namedtuples) pairs) = Ok v ->
  v = as_namedtuples (PDict (dict_of_pairs pairs)).
Proof.
  unfold Decoder.finish_object.
  rewrite dict_of_pairs_on_values, json_object_hook_on_values.
  destruct (NamedTuple.valid_names _ _ _); [|done].
  by destruct (NamedTuple.distinct_arguments _ _); [intros [= <-]|].
Qed.

Lemma parse_object_sound (s : pystr) (v : pyval) (r : pystr) :
  Decoder.parse_object (Some (json_object_hook rt)) None scan_h s = Ok (v, r) ->
  exists j, Decoder.parse_object None None scan_p s = Ok (j, r) /\ v = as_namedtuples j.
Proof.
  unfold Decoder.parse_object.
  destruct (Decoder.skip_ws s) as [|c s1]; [done|].
  destruct (c =? 125).
  - destruct (Decoder.finish_object _ _ []) as [v'|] eqn:Ef; [|done]. intros [= <- <-].
    apply (finish_object_sound []) in Ef as ->. by eexists.
  - destruct (c =? 34); [|done].
    destruct (Decoder.object_pairs scan_h _ _ _) as [[pairs r']|e] eqn:Eo; [|done].
    destruct (object_pairs_sound _ _ [] _ _ Eo) as (l' & -> & ->).
    destruct (Decoder.finish_object _ _ _) as [v'|] eqn:Ef; [|done]. intros [= <- <-].
    apply finish_object_sound in Ef as ->. by eexists.
Qed.

End Sound.

Lemma scan_once_sound (fuel : nat) :
  hook_sound (Decoder.scan_once rt None None fuel)
             (Decoder.scan_once rt (Some (json_object_hook rt)) None fuel).
Proof.
  induction fuel as [|fuel IH]; intros s v r; cbn [Decoder.scan_once]; [done|].
  destruct s as [|c s1]; [done|].
  destruct (c =? 34).
  { destruct (Decoder.scanstring s1) as [[content r']|e]; [|done].
    intros [= <- <-]. by eexists. }
  destruct (c =? 123); [by apply parse_object_sound|].
  destruct (c =? 91); [by apply parse_array_sound|].
  destruct (Decoder.strip_prefix (str "null") (c :: s1)); [intros [= <- <-]; by eexists|].
  destruct (Decoder.strip_prefix (str "true") (c :: s1)); [intros [= <- <-]; by eexists|].
  destruct (Decoder.strip_prefix (str "false") (c :: s1)); [intros [= <- <-]; by eexists|].
  destruct (Decoder.match_number rt (c :: s1)) as [[v' r']|] eqn:En.
  { intros [= <- <-]. exists v'. split; [done|]. unfold Decoder.match_number in En.
    destruct (Decoder.match_integer (c :: s1)) as [[i s2]|]; [|done].
    destruct (Decoder.match_frac s2) as [f s3]. destruct (Decoder.match_exp s3) as [e s4].
    destruct f, e; injection En as <- _; try done. by destruct i as [|x i]; [|destruct (x =? 45)]. }
  destruct (Decoder.strip_prefix (str "NaN") (c :: s1)); [intros [= <- <-]; by eexists|].
  destruct (Decoder.strip_prefix (str "Infinity") (c :: s1)); [intros [= <- <-]; by eexists|].
  destruct (Decoder.strip_prefix (str "-Infinity") (c :: s1)); [intros [= <- <-]; by eexists|done].
Qed.

(** What [json_to_object] returns is the tree of namedtuples of what
    [json.loads] returns without hooks. *)
Lemma loads_sound (s : pystr) (v : pyval) :
  Decoder.loads rt (Some (json_object_hook rt)) None s = Ok v ->
  exists j, Decoder.loads rt None None s = Ok j /\ v = as_namedtuples j.
Proof.
  unfold Decoder.loads. destruct (match s with [] => false | c :: _ => c =? 65279 end); [done|].
  destruct (Decoder.scan_once rt (Some _) _ _ _) as [[obj r]|e] eqn:Es; [|done].
  destruct (scan_once_sound _ _ _ _ Es) as (j & -> & ->).
  destruct (Decoder.skip_ws r); [|done]. intros [= <-]. by exists j.
Qed.

Lemma scan_once_complete (fuel : nat) :
  hook_complete rt (Decoder.scan_once rt None (Some Decoder.members_hook) fuel)
                (Decoder.scan_once rt (Some (json_object_hook rt)) None fuel).
Proof.
  induction fuel as [|fuel IH]; intros s j r; cbn [Decoder.scan_once]; [done|].
  destruct s as [|c s1]; [done|].
  destruct (c =? 34).
  { destruct (Decoder.scanstring s1) as [[content r']|e]; [|done]. by intros [= <- <-]. }
  destruct (c =? 123); [by apply parse_object_complete|].
  destruct (c =? 91); [by apply parse_array_complete|].
  destruct (Decoder.strip_prefix (str "null") (c :: s1)); [by intros [= <- <-]|].
  destruct (Decoder.strip_prefix (str "true") (c :: s1)); [by intros [= <- <-]|].
  destruct (Decoder.strip_prefix (str "false") (c :: s1)); [by intros [= <- <-]|].
  destruct (Decoder.match_number rt (c :: s1)) as [[v' r']|] eqn:En.
  { intros [= <- <-] _. f_equal. f_equal. unfold Decoder.match_number in En.
    destruct (Decoder.match_integer (c :: s1)) as [[i s2]|]; [|done].
    destruct (Decoder.match_frac s2) as [f s3]. destruct (Decoder.match_exp s3) as [e s4].
    destruct f, e; injection En as <- _; try done. by destruct i as [|x i]; [|destruct (x =? 45)]. }
  destruct (Decoder.strip_prefix (str "NaN") (c :: s1)); [by intros [= <- <-]|].
  destruct (Decoder.strip_prefix (str "Infinity") (c :: s1)); [by intros [= <- <-]|].
  destruct (Decoder.strip_prefix (str "-Infinity") (c :: s1)); [by intros [= <- <-]|done].
Qed.

(** When the names of all members are valid, [json_to_object] returns the
    tree of namedtuples of the members. *)
Lemma loads_complete (s : pystr) (j : pyval) :
  Decoder.loads rt None (Some Decoder.members_hook) s = Ok j ->
  names_valid rt j = true ->
  Decoder.loads rt (Some (json_object_hook rt)) None s = Ok (as_namedtuples j).
Proof.
  unfold Decoder.loads. destruct (match s with [] => false | c :: _ => c =? 65279 end); [done|].
  destruct (Decoder.scan_once rt None _ _ _) as [[obj r]|e] eqn:Es; [|done].
  destruct (Decoder.skip_ws r) eqn:Er; [|done]. intros [= <-] Hv.
  by rewrite (scan_once_complete _ _ _ _ Es Hv), Er.
Qed.

End HookAndPlain.

(** ** Without hooks and with the members kept *)

Section PlainAndMembers.
Variable rt : Runtime.

Section Step.
Variables scan_m scan_p : pystr -> result (pyval * pystr).
Hypothesis Hscan : dicts_sound scan_m scan_p.

Lemma array_items_dicts (n : nat) :
  forall s acc l r,
    Decoder.array_items scan_p n s (List.map as_dicts acc) = Ok (l, r) ->
    exists l', Decoder.array_items scan_m n s acc = Ok (l', r) /\ l = List.map as_dicts l'.
Proof.
  induction n as [|n IH]; intros s acc l r; simpl; [done|].
  destruct (scan_p s) as [[v s1]|e] eqn:Ev; [|done].
  destruct (Hscan _ _ _ Ev) as (m & -> & ->).
  destruct (Decoder.skip_ws s1) as [|c s2]; [done|].
  destruct (c =? 93).
  - intros [= <- <-]. eexists. split; [done|].
    by rewrite List.map_app, List.map_rev.
  - destruct (c =? 44); [|done]. apply (IH _ (m :: acc)).
Qed.

Lemma parse_array_dicts (s : pystr) (j : pyval) (r : pystr) :
  Decoder.parse_array scan_p s = Ok (j, r) ->
  exists m, Decoder.parse_array scan_m s = Ok (m, r) /\ j = as_dicts m.
Proof.
  unfold Decoder.parse_array.
  destruct (Decoder.skip_ws s) as [|c s1]; [done|].
  destruct (c =? 93); [intros [= <- <-]; by exists (PList [])|].
  destruct (Decoder.array_items scan_p _ _ _) as [[l r']|e] eqn:Ea; [|done].
  intros [= <- <-].
  destruct (array_items_dicts _ _ [] _ _ Ea) as (l' & -> & ->). by exists (PList l').
Qed.

Lemma object_pairs_dicts (n : nat) :
  forall s acc l r,
    Decoder.object_pairs scan_p n s (List.map (on_values as_dicts) acc) = Ok (l, r) ->
    exists l', Decoder.object_pairs scan_m n s acc = Ok (l', r)
               /\ l = List.map (on_values as_dicts) l'.
Proof.
  induction n as [|n IH]; intros s acc l r; simpl; [done|].
  destruct (Decoder.scanstring s) as [[key s1]|e]; [|done].
  destruct (Decoder.skip_ws s1) as [|c s2]; [done|].
  destruct (c =? 58); [|done].
  destruct (scan_p (Decoder.skip_ws s2)) as [[v s3]|e] eqn:Ev; [|done].
  destruct (Hscan _ _ _ Ev) as (m & -> & ->).
  destruct (Decoder.skip_ws s3) as [|c' s4]; [done|].
  destruct (c' =? 125).
  - intros [= <- <-]. eexists. split; [done|].
    by rewrite List.map_app, List.map_rev.
  - destruct (c' =? 44); [|done].
    destruct (Decoder.skip_ws s4) as [|q s5]; [done|].
    destruct (q =? 34); [|done]. apply (IH _ ((key, m) :: acc)).
Qed.

Lemma parse_object_dicts (s : pystr) (j : pyval) (r : pystr) :
  Decoder.parse_object None None scan_p s = Ok (j, r) ->
  exists m, Decoder.parse_object None (Some Decoder.members_hook) scan_m s = Ok (m, r)
            /\ j = as_dicts m.
Proof.
  unfold Decoder.parse_object, Decoder.finish_object, Decoder.members_hook.
  destruct (Decoder.skip_ws s) as [|c s1]; [done|].
  destruct (c =? 125); [intros [= <- <-]; by exists (PDict [])|].
  destruct (c =? 34); [|done].
  destruct (Decoder.object_pairs scan_p _ _ _) as [[pairs r']|e] eqn:Eo; [|done].
  intros [= <- <-].
  destruct (object_pairs_dicts _ _ [] _ _ Eo) as (l' & -> & ->). by exists (PDict l').
Qed.
End Step.

Lemma scan_once_dicts (fuel : nat) :
  dicts_sound (Decoder.scan_once rt None (Some Decoder.members_hook) fuel)
              (Decoder.scan_once rt None None fuel).
Proof.
  induction fuel as [|fuel IH]; intros s v r; cbn [Decoder.scan_once]; [done|].
  destruct s as [|c s1]; [done|].
  destruct (c =? 34).
  { destruct (Decoder.scanstring s1) as [[content r']|e]; [|done].
    intros [= <- <-]. by eexists. }
  destruct (c =? 123); [by apply parse_object_dicts|].
  destruct (c =? 91); [by apply parse_array_dicts|].
  destruct (Decoder.strip_prefix (str "null") (c :: s1)); [intros [= <- <-]; by eexists|].
  destruct (Decoder.strip_prefix (str "true") (c :: s1)); [intros [= <- <-]; by eexists|].
  destruct (Decoder.strip_prefix (str "false") (c :: s1)); [intros [= <- <-]; by eexists|].
  destruct (Decoder.match_number rt (c :: s1)) as [[v' r']|] eqn:En.
  { intros [= <- <-]. exists v'. split; [done|]. unfold Decoder.match_number in En.
    destruct (Decoder.match_integer (c :: s1)) as [[i s2]|]; [|done].
    destruct (Decoder.match_frac s2) as [f s3]. destruct (Decoder.match_exp s3) as [e s4].
    destruct f, e; injection En as <- _; try done. by destruct i as [|x i]; [|destruct (x =? 45)]. }
  destruct (Decoder.strip_prefix (str "NaN") (c :: s1)); [intros [= <- <-]; by eexists|].
  destruct (Decoder.strip_prefix (str "Infinity") (c :: s1)); [intros [= <- <-]; by eexists|].
  destruct (Decoder.strip_prefix (str "-Infinity") (c :: s1)); [intros [= <- <-]; by eexists|done].
Qed.

(** What [json.loads] returns without hooks is the tree of dicts of the
    members it reads. *)
Lemma loads_dicts (s : pystr) (j : pyval) :
  Decoder.loads rt None None s = Ok j ->
  exists m, Decoder.loads rt None (Some Decoder.members_hook) s = Ok m /\ j = as_dicts m.
Proof.
  unfold Decoder.loads. destruct (match s with [] => false | c :: _ => c =? 65279 end); [done|].
  destruct (Decoder.scan_once rt None None _ _) as [[obj r]|e] eqn:Es; [|done].
  destruct (scan_once_dicts _ _ _ _ Es) as (m & -> & ->).
  destruct (Decoder.skip_ws r); [|done]. intros [= <-]. by exists m.
Qed.

End PlainAndMembers.

(** Where no name is repeated [dict] keeps every member. *)
Lemma as_dicts_distinct (m : pyval) : names_distinct m = true -> as_dicts m = m.
Proof.
  induction m as [| | | | |l IH|fs l IH|d IH|d IH] using pyval_ind'; try done; simpl.
  - intros Hl. f_equal. rewrite <- (List.map_id l) at 2. apply List.map_ext_Forall.
    rewrite List.Forall_forall in IH. rewrite forallb_forall in Hl.
    apply List.Forall_forall. intros x Hx. by apply IH; [|apply Hl].
  - intros [Hnd%bool_decide_eq_true Hd]%andb_true_iff. f_equal.
    assert (E : List.map (fun kv => (fst kv, as_dicts (snd kv))) d = d).
    { rewrite <- (List.map_id d) at 2. apply List.map_ext_Forall.
      rewrite List.Forall_forall in IH. rewrite forallb_forall in Hd.
      apply List.Forall_forall. intros [k v] Hx. simpl. f_equal.
      by apply (IH (k, v)); [|apply (Hd (k, v))]. }
    rewrite E. by apply dict_of_pairs_NoDup.
Qed.

(* ===================================================================== *)
(** * Texts that are not JSON *)
(* ===================================================================== *)

Lemma ws_head (w x s : pystr) (c : N) :
  RFC8259.ws w -> w ++ x = c :: s -> Decoder.is_ws c = false -> w = [] /\ x = c :: s.
Proof.
  intros Hw E Hc. destruct w as [|c' w]; [done|].
  injection E as -> _. apply List.Forall_inv in Hw.
  by destruct Hw as [-> | [-> | [-> | ->]]].
Qed.

Lemma number_head (s : pystr) :
  RFC8259.number s -> exists c r, s = c :: r /\ (c = 45 \/ 48 <= c <= 57).
Proof.
  intros (sign & i & f & e & -> & Hsign & Hi & _).
  destruct Hsign as [-> | ->]; [|exists 45; eexists; split; [reflexivity|by left]].
  destruct Hi as [->|(c & ds & -> & Hc & _)]; eexists _, _; (split; [reflexivity|]); right; lia.
Qed.

(** The first character of a value tells its kind. *)
Lemma value_head (ext : bool) (v : pystr) :
  RFC8259.value ext v ->
  exists c r, v = c :: r
    /\ (c ∈ [102; 110; 116; 45; 34; 91; 123] \/ 48 <= c <= 57
        \/ ext = true /\ c ∈ [78; 73]).
Proof.
  destruct 1 as [| | |s Hs|s Hs|w Hw|w els w' Hw Hels Hw'|w Hw|w ms w' Hw Hms Hw'|s He Hs].
  1-3: eexists _, _; (split; [reflexivity|]); left; set_solver.
  - destruct (number_head s Hs) as (c & r & -> & [Hc|Hc]); exists c, r; (split; [done|]).
    + left. subst c. set_solver.
    + by right; left.
  - eexists _, _; (split; [reflexivity|]); left; set_solver.
  - eexists _, _; (split; [reflexivity|]); left; set_solver.
  - eexists _, _; (split; [reflexivity|]); left; set_solver.
  - eexists _, _; (split; [reflexivity|]); left; set_solver.
  - eexists _, _; (split; [reflexivity|]); left; set_solver.
  - apply elem_of_cons in Hs as [->|Hs]; [|apply elem_of_cons in Hs as [->|Hs]];
      [| |apply list_elem_of_singleton in Hs as ->];
      eexists _, _; (split; [reflexivity|]).
    + right; right. split; [done|set_solver].
    + right; right. split; [done|set_solver].
    + left. set_solver.
Qed.

Lemma members_head (ext : bool) (ms : pystr) :
  RFC8259.members ext ms -> exists r, ms = 34 :: r.
Proof. destruct 1; by eexists. Qed.

(** [NaN] is no JSON text of the RFC. *)
Lemma NaN_not_text : ~ RFC8259.text false (str "NaN").
Proof.
  intros (w & v & w' & E & Hw & Hv & _).
  symmetry in E. apply (ws_head _ _ _ _ Hw) in E as [-> E]; [|done].
  destruct (value_head _ _ Hv) as (c & r & -> & Hc).
  change (str "NaN") with [78; 97; 78] in E. injection E as -> _.
  destruct Hc as [Hc|[Hc|[? _]]]; [|lia|done].
  rewrite !elem_of_cons, elem_of_nil in Hc. by intuition.
Qed.

(** Nor is the text [{not json] one, even with the constants of Python. *)
Lemma not_json_not_text : ~ RFC8259.text true (jstr "{not json").
Proof.
  intros (w & v & w' & E & Hw & Hv & _).
  let x := eval vm_compute in (jstr "{not json") in change (jstr "{not json") with x in E.
  symmetry in E. apply (ws_head _ _ _ _ Hw) in E as [-> E]; [|done].
  destruct Hv as [| | |s Hs|s Hs|w Hw1|w els w1 Hw1 Hels Hw2|w Hw1|w ms w1 Hw1 Hms Hw2|s He Hs];
    try discriminate E.
  - destruct (number_head s Hs) as (c & r & -> & Hc). injection E as -> _.
    destruct Hc; [done|lia].
  - injection E as E. rewrite <- app_assoc in E.
    by apply (ws_head _ _ _ _ Hw1) in E as [_ E].
  - injection E as E. rewrite <- !app_assoc in E.
    apply (ws_head _ _ _ _ Hw1) in E as [_ E]; [|done].
    by destruct (members_head _ _ Hms) as (r & ->).
  - apply elem_of_cons in Hs as [->|Hs]; [done|].
    apply elem_of_cons in Hs as [->|Hs]; [done|].
    by apply list_elem_of_singleton in Hs as ->.
Qed.

(** The content of a string ends at the first quotation mark that no
    backslash comes before. *)
Lemma chars_until_quote (a : pystr) :
  forall k r b, RFC8259.chars k -> Forall (fun c => c <> 34 /\ c <> 92) a ->
                k ++ 34 :: r = a ++ 34 :: b -> k = a /\ r = b.
Proof.
  induction a as [|x a IH]; intros k r b Hk Ha E.
  - destruct Hk as [|c s H32 H34 H92 Hs|c s Hc Hs|h1 h2 h3 h4 s H1 H2 H3 H4 Hs];
      simpl in E; try discriminate E.
    + by injection E as <-.
    + by injection E as ->.
  - apply List.Forall_cons_iff in Ha as [[Hx34 Hx92] Ha].
    destruct Hk as [|c s H32 H34 H92 Hs|c s Hc Hs|h1 h2 h3 h4 s H1 H2 H3 H4 Hs];
      simpl in E; injection E as E1 E2; try done.
    subst c. by destruct (IH _ _ _ Hs Ha E2) as [-> ->].
Qed.

Ltac text_literal E s :=
  let x := eval vm_compute in s in change s with x in E.

(** An object with the member [NaN] is no JSON text either. *)
Lemma member_NaN_not_text : ~ RFC8259.text false (jstr "{'responseData':NaN}").
Proof.
  intros (w & v & w' & E & Hw & Hv & _).
  text_literal E (jstr "{'responseData':NaN}").
  symmetry in E. apply (ws_head _ _ _ _ Hw) in E as [-> E]; [|done].
  destruct Hv as [| | |s Hs|s Hs|w Hw1|w els w1 Hw1 Hels Hw2|w Hw1|w ms w1 Hw1 Hms Hw2|s He Hs];
    try discriminate E.
  - destruct (number_head s Hs) as (c & r & -> & Hc). injection E as -> _.
    destruct Hc; [done|lia].
  - injection E as E. rewrite <- app_assoc in E.
    by apply (ws_head _ _ _ _ Hw1) in E as [_ E].
  - injection E as E. rewrite <- !app_assoc in E.
    apply (ws_head _ _ _ _ Hw1) in E as [_ E]; [|done].
    destruct Hms as [k wa wb v Hk Hwa Hwb Hv|k wa wb v w3 w4 ms' Hk Hwa Hwb Hv Hw3 Hw4 Hms'].
    + simpl in E. injection E as E. rewrite <- !app_assoc in E. simpl in E.
      apply (chars_until_quote (str "responseData") _ _ (str ":NaN}") Hk) in E as [_ E];
        [|by repeat (apply List.Forall_cons; [done|])].
      text_literal E (str ":NaN}"). rewrite <- !app_assoc in E.
      apply (ws_head _ _ _ _ Hwa) in E as [_ E]; [|done]. injection E as E.
      rewrite <- !app_assoc in E.
      apply (ws_head _ _ _ _ Hwb) in E as [_ E]; [|done].
      destruct (value_head _ _ Hv) as (c & r & -> & Hc). injection E as -> _.
      destruct Hc as [Hc|[Hc|[? _]]]; [|lia|done].
      rewrite !elem_of_cons, elem_of_nil in Hc. by intuition.
    + simpl in E. injection E as E. rewrite <- !app_assoc in E. simpl in E.
      apply (chars_until_quote (str "responseData") _ _ (str ":NaN}") Hk) in E as [_ E];
        [|by repeat (apply List.Forall_cons; [done|])].
      text_literal E (str ":NaN}"). rewrite <- !app_assoc in E.
      apply (ws_head _ _ _ _ Hwa) in E as [_ E]; [|done]. injection E as E.
      rewrite <- !app_assoc in E.
      apply (ws_head _ _ _ _ Hwb) in E as [_ E]; [|done].
      destruct (value_head _ _ Hv) as (c & r & -> & Hc). injection E as -> _.
      destruct Hc as [Hc|[Hc|[? _]]]; [|lia|done].
      rewrite !elem_of_cons, elem_of_nil in Hc. by intuition.
  - apply elem_of_cons in Hs as [->|Hs]; [done|].
    apply elem_of_cons in Hs as [->|Hs]; [done|].
    by apply list_elem_of_singleton in Hs as ->.
Qed.

(* ===================================================================== *)
(** * The decoder: how it fails *)
(* ===================================================================== *)

Lemma skip_ws_length (s : pystr) : (length (Decoder.skip_ws s) <= length s)%nat.
Proof.
  destruct (skip_ws_spec s) as (w & E & _). rewrite E at 2. rewrite length_app. lia.
Qed.

Lemma skip_ws_cons_length (s s' : pystr) (c : N) :
  Decoder.skip_ws s = c :: s' -> (length s' < length s)%nat.
Proof. intros E. pose proof (skip_ws_length s) as H. rewrite E in H. simpl in H. lia. Qed.

Lemma cons_char_raise (c : N) (x : result (pystr * pystr)) (e : exn) :
  Decoder.cons_char c x = Raise e -> x = Raise e.
Proof. destruct x as [[? ?]|]; [done|by intros [= ->]]. Qed.

Lemma scanstring_raises (s : pystr) :
  forall e, Decoder.scanstring s = Raise e -> e = JSONDecodeError.
Proof.
  induction s as [s IH] using (induction_ltof1 _ (@length N)). unfold ltof in IH.
  intros e. destruct s as [|c s1]; [by intros [= <-]|]. simpl.
  destruct (c =? 34); [done|].
  destruct (c =? 92).
  - destruct s1 as [|x s2]; [by intros [= <-]|].
    destruct (x =? 117).
    + destruct s2 as [|h1 [|h2 [|h3 [|h4 s3]]]]; try by intros [= <-].
      destruct (Decoder.hex4 h1 h2 h3 h4) as [uni|]; [|by intros [= <-]].
      assert (Hs3 : forall y, Decoder.cons_char y (Decoder.scanstring s3) = Raise e ->
                              e = JSONDecodeError).
      { intros y Hy%cons_char_raise. apply IH in Hy; [done|simpl; lia]. }
      destruct ((55296 <=? uni) && (uni <=? 56319)); [|by apply Hs3].
      destruct s3 as [|b [|u [|g1 [|g2 [|g3 [|g4 s4]]]]]]; try by apply Hs3.
      destruct ((b =? 92) && (u =? 117)); [|by apply Hs3].
      destruct (Decoder.hex4 g1 g2 g3 g4) as [uni2|]; [|by intros [= <-]].
      destruct ((56320 <=? uni2) && (uni2 <=? 57343)); [|by apply Hs3].
      intros Hy%cons_char_raise. apply IH in Hy; [done|simpl; lia].
    + destruct (Decoder.backslash x); [|by intros [= <-]].
      intros Hy%cons_char_raise. apply IH in Hy; [done|simpl; lia].
  - destruct (c <? 32); [by intros [= <-]|].
    intros Hy%cons_char_raise. apply IH in Hy; [done|simpl; lia].
Qed.

Lemma scanstring_shrinks (s content r : pystr) :
  Decoder.scanstring s = Ok (content, r) -> (length r < length s)%nat.
Proof.
  intros (body & -> & _)%scanstring_spec. rewrite length_app. simpl. lia.
Qed.

Lemma scan_once_shrinks (rt : Runtime)
    (object_hook object_pairs_hook : option (list (pystr * pyval) -> result pyval))
    (fuel : nat) (s : pystr) (v : pyval) (r : pystr) :
  Decoder.scan_once rt object_hook object_pairs_hook fuel s = Ok (v, r) ->
  (length r < length s)%nat.
Proof.
  intros (pre & -> & Hpre)%scan_once_spec.
  destruct (value_head _ _ Hpre) as (c & p & -> & _). rewrite length_app. simpl. lia.
Qed.

Section Errors.
Variable rt : Runtime.
Variables object_hook object_pairs_hook : option (list (pystr * pyval) -> result pyval).

(** The errors of interest: [JSONDecodeError], and what the hooks raise. *)
Variable P : exn -> Prop.
Hypothesis P_decode : P JSONDecodeError.
Hypothesis P_hook :
  forall pairs e, Decoder.finish_object object_hook object_pairs_hook pairs = Raise e -> P e.

Section Containers.
Variable scan : pystr -> result (pyval * pystr).
Variable bound : nat.
Hypothesis Hraise : forall s e, (length s < bound)%nat -> scan s = Raise e -> P e.
Hypothesis Hshrink : forall s v r, scan s = Ok (v, r) -> (length r < length s)%nat.

Lemma array_items_raises (n : nat) :
  forall s acc e, (length s < n)%nat -> (length s < bound)%nat ->
                  Decoder.array_items scan n s acc = Raise e -> P e.
Proof.
  induction n as [|n IH]; intros s acc e Hn Hb; simpl; [lia|].
  destruct (scan s) as [[v s1]|e'] eqn:Es; [|intros [= <-]; by eapply Hraise].
  apply Hshrink in Es.
  destruct (Decoder.skip_ws s1) as [|c s2] eqn:E1; [by intros [= <-]|].
  apply skip_ws_cons_length in E1. pose proof (skip_ws_length s2).
  destruct (c =? 93); [done|].
  destruct (c =? 44); [|by intros [= <-]]. apply IH; lia.
Qed.

Lemma parse_array_raises (s : pystr) (e : exn) :
  (length s < bound)%nat -> Decoder.parse_array scan s = Raise e -> P e.
Proof.
  intros Hb. unfold Decoder.parse_array. pose proof (skip_ws_length s) as Hs.
  destruct (Decoder.skip_ws s) as [|c s1] eqn:E; [by intros [= <-]|].
  destruct (c =? 93); [done|].
  destruct (Decoder.array_items scan _ _ _) as [[l r]|e'] eqn:Ea; [done|].
  intros [= <-]. apply array_items_raises in Ea; [done| |]; simpl in *; lia.
Qed.

Lemma object_pairs_raises (n : nat) :
  forall s acc e, (length s < n)%nat -> (length s < bound)%nat ->
                  Decoder.object_pairs scan n s acc = Raise e -> P e.
Proof.
  induction n as [|n IH]; intros s acc e Hn Hb; simpl; [lia|].
  destruct (Decoder.scanstring s) as [[key s1]|e'] eqn:Ek;
    [|intros [= <-]; by apply scanstring_raises in Ek as ->].
  apply scanstring_shrinks in Ek.
  destruct (Decoder.skip_ws s1) as [|c s2] eqn:E1; [by intros [= <-]|].
  apply skip_ws_cons_length in E1. pose proof (skip_ws_length s2).
  destruct (c =? 58); [|by intros [= <-]].
  destruct (scan (Decoder.skip_ws s2)) as [[v s3]|e'] eqn:Es;
    [|intros [= <-]; eapply Hraise; [|done]; lia].
  apply Hshrink in Es.
  destruct (Decoder.skip_ws s3) as [|c' s4] eqn:E3; [by intros [= <-]|].
  apply skip_ws_cons_length in E3.
  destruct (c' =? 125); [done|].
  destruct (c' =? 44); [|by intros [= <-]].
  destruct (Decoder.skip_ws s4) as [|q s5] eqn:E4; [by intros [= <-]|].
  apply skip_ws_cons_length in E4.
  destruct (q =? 34); [|by intros [= <-]]. apply IH; lia.
Qed.

Lemma parse_object_raises (s : pystr) (e : exn) :
  (length s < bound)%nat ->
  Decoder.parse_object object_hook object_pairs_hook scan s = Raise e -> P e.
Proof.
  intros Hb. unfold Decoder.parse_object.
  destruct (Decoder.skip_ws s) as [|c s1] eqn:E; [by intros [= <-]|].
  apply skip_ws_cons_length in E.
  destruct (c =? 125).
  { destruct (Decoder.finish_object _ _ []) eqn:Ef; [done|].
    intros [= <-]. by eapply P_hook. }
  destruct (c =? 34); [|by intros [= <-]].
  destruct (Decoder.object_pairs scan _ _ _) as [[pairs r]|e'] eqn:Eo.
  - destruct (Decoder.finish_object _ _ pairs) eqn:Ef; [done|].
    intros [= <-]. by eapply P_hook.
  - intros [= <-]. apply object_pairs_raises in Eo; [done| |]; lia.
Qed.

End Containers.

Lemma scan_once_raises (fuel : nat) :
  forall s e, (length s < fuel)%nat ->
              Decoder.scan_once rt object_hook object_pairs_hook fuel s = Raise e -> P e.
Proof.
  induction fuel as [|fuel IH]; intros s e Hlen; cbn [Decoder.scan_once]; [lia|].
  destruct s as [|c s1]; [by intros [= <-]|]. simpl in Hlen.
  destruct (c =? 34).
  { destruct (Decoder.scanstring s1) as [[content r]|e'] eqn:Ek; [done|].
    intros [= <-]. by apply scanstring_raises in Ek as ->. }
  destruct (c =? 123).
  { apply (parse_object_raises _ fuel IH); [apply scan_once_shrinks|lia]. }
  destruct (c =? 91).
  { apply (parse_array_raises _ fuel IH); [apply scan_once_shrinks|lia]. }
  destruct (Decoder.strip_prefix (str "null") (c :: s1)); [done|].
  destruct (Decoder.strip_prefix (str "true") (c :: s1)); [done|].
  destruct (Decoder.strip_prefix (str "false") (c :: s1)); [done|].
  destruct (Decoder.match_number rt (c :: s1)) as [[v r]|]; [done|].
  destruct (Decoder.strip_prefix (str "NaN") (c :: s1)); [done|].
  destruct (Decoder.strip_prefix (str "Infinity") (c :: s1)); [done|].
  destruct (Decoder.strip_prefix (str "-Infinity") (c :: s1)); [done|by intros [= <-]].
Qed.

(** [loads] gives the scanner more fuel than it can use: an error is a
    decode error or comes from a hook. *)
Lemma loads_raises (s : pystr) (e : exn) :
  Decoder.loads rt object_hook object_pairs_hook s = Raise e -> P e.
Proof.
  unfold Decoder.loads.
  destruct (match s with [] => false | c :: _ => c =? 65279 end); [by intros [= <-]|].
  destruct (Decoder.scan_once _ _ _ _ _) as [[obj r]|e'] eqn:Es.
  - destruct (Decoder.skip_ws r); [done|by intros [= <-]].
  - intros [= <-]. apply scan_once_raises in Es; [done|].
    pose proof (skip_ws_length s). lia.
Qed.

End Errors.

(** The errors of [json_to_object] on a text: the decode error of
    [json.loads], and the [ValueError] and the [SyntaxError] of
    [namedtuple]. *)
Lemma json_to_object_raises (rt : Runtime) (text : pystr) (e : exn) :
  json_to_object rt (VStr text) = Raise e ->
  e = JSONDecodeError \/ e = ValueError \/ e = SyntaxError.
Proof.
  apply (loads_raises rt _ _
           (fun e => e = JSONDecodeError \/ e = ValueError \/ e = SyntaxError)); [by left|].
  intros pairs e'. unfold Decoder.finish_object, json_object_hook.
  destruct (NamedTuple.valid_names _ _ _); [|intros [= <-]; right; by left].
  destruct (NamedTuple.distinct_arguments _ _); [done|]. intros [= <-]. right. by right.
Qed.

(* ===================================================================== *)
(** * Decoded trees *)
(* ===================================================================== *)

Lemma dict_get_on_values {A B} (f : A -> B) (k : pystr) (d : list (pystr * A)) :
  dict_get k (List.map (on_values f) d) = f <$> dict_get k d.
Proof.
  induction d as [|[k' v] d IH]; simpl; [done|]. by destruct (str_eqb k k').
Qed.

Lemma combine_keys {A B} (f : A -> B) (d : list (pystr * A)) :
  combine (keys d) (List.map (fun kv => f (snd kv)) d) = List.map (on_values f) d.
Proof. induction d as [|[k v] d IH]; simpl; [done|]. by rewrite <- IH. Qed.

Lemma getattr_tree_as_namedtuples (d : list (pystr * pyval)) (name : pystr) :
  getattr_tree (as_namedtuples (PDict d)) name
  = match dict_get name d with
    | Some v => Ok (as_namedtuples v)
    | None => Raise AttributeError
    end.
Proof.
  simpl. rewrite (combine_keys as_namedtuples), dict_get_on_values.
  by destruct (dict_get name d).
Qed.

Lemma getattr_path_as_namedtuples (path : list pystr) :
  forall j v, member_path j path = Some v ->
              getattr_path (as_namedtuples j) path = Ok (as_namedtuples v).
Proof.
  induction path as [|name path IH]; intros j v; simpl; [by intros [= ->]|].
  destruct j as [| | | | | | |d|]; try done.
  rewrite getattr_tree_as_namedtuples.
  destruct (dict_get name d) as [v'|]; [|done]. apply IH.
Qed.

(** A namedtuple is a tuple for the encoder: the names of the fields are
    not in the output. *)
Lemma iterencode_as_namedtuples (j : pyval) :
  forall lvl, Encoder.iterencode lvl (as_namedtuples j) = Encoder.iterencode lvl (values_only j).
Proof.
  induction j as [| | | | |l IH|fs l IH|d IH|d IH] using pyval_ind'; intros lvl; try done.
  - simpl. f_equal. rewrite !List.map_map. apply List.map_ext_Forall.
    eapply List.Forall_impl; [|exact IH]. by intros a Ha.
  - simpl. f_equal. rewrite !List.map_map. apply List.map_ext_Forall.
    eapply List.Forall_impl; [|exact IH]. by intros a Ha.
Qed.

(** Without hooks the decoder makes no tuple. *)
Lemma loads_plain_kind (rt : Runtime) (s : pystr) (j : pyval) :
  Decoder.loads rt None None s = Ok j -> forall fs l, j <> PTuple fs l.
Proof.
  unfold Decoder.loads. destruct (match s with [] => false | c :: _ => c =? 65279 end); [done|].
  destruct (Decoder.scan_once _ _ _ _ _) as [[obj r]|e] eqn:Es; [|done].
  destruct (Decoder.skip_ws r); [|done]. intros [= <-] fs l ->.
  revert Es. generalize (Decoder.skip_ws s) as s'. intros s'. cbn [Decoder.scan_once].
  destruct s' as [|c s1]; [done|].
  destruct (c =? 34); [by destruct (Decoder.scanstring s1) as [[? ?]|]|].
  destruct (c =? 123).
  { unfold Decoder.parse_object, Decoder.finish_object.
    destruct (Decoder.skip_ws s1) as [|c' s2]; [done|].
    destruct (c' =? 125); [done|]. destruct (c' =? 34); [|done].
    by destruct (Decoder.object_pairs _ _ _ _) as [[? ?]|]. }
  destruct (c =? 91).
  { unfold Decoder.parse_array.
    destruct (Decoder.skip_ws s1) as [|c' s2]; [done|].
    destruct (c' =? 93); [done|].
    by destruct (Decoder.array_items _ _ _ _) as [[? ?]|]. }
  destruct (Decoder.strip_prefix (str "null") (c :: s1)); [done|].
  destruct (Decoder.strip_prefix (str "true") (c :: s1)); [done|].
  destruct (Decoder.strip_prefix (str "false") (c :: s1)); [done|].
  destruct (Decoder.match_number rt (c :: s1)) as [[v' r']|] eqn:En.
  { intros [= -> _]. unfold Decoder.match_number in En.
    destruct (Decoder.match_integer (c :: s1)) as [[i s2]|]; [|done].
    destruct (Decoder.match_frac s2) as [f s3]. destruct (Decoder.match_exp s3) as [e s4].
    destruct f, e; injection En as En _; try done.
    by destruct i as [|x i]; [|destruct (x =? 45)]. }
  destruct (Decoder.strip_prefix (str "NaN") (c :: s1)); [done|].
  destruct (Decoder.strip_prefix (str "Infinity") (c :: s1)); [done|].
  by destruct (Decoder.strip_prefix (str "-Infinity") (c :: s1)).
Qed.

(* ===================================================================== *)
(** * Decoding the response *)
(* ===================================================================== *)

(** A result of [process_gateway_request] is the decoded response. *)
Lemma process_gateway_request_result (clientConfig gatewayRequest : value) (w : World)
    (v : pyval) (w' : World) :
  process_gateway_request clientConfig gatewayRequest w = (Ok v, w') ->
  exists url body headers response,
    requests_post (env w) (3 + calls w) url body headers = Ok response
    /\ json_to_object (runtime (env w)) (VStr response) = Ok v.
Proof.
  destruct (process_gateway_request_cases clientConfig gatewayRequest w)
    as [[e ->]|(body & secret & sig & url & _ & _ & _ & _ & _ & ->)]; [done|].
  destruct (has_surrogate body); [done|].
  destruct (requests_post _ _ _ _ _) as [response|e] eqn:Er; [|done].
  destruct (has_surrogate response); [done|].
  intros [= Hv _]. by eexists url, body, _, response.
Qed.

(** A result of a [fetch_*] is the [responseData] of the decoded response. *)
Lemma fetch_result (a : ActionType) (clientConfig reportRequest : value) (w : World)
    (v : pyval) (w' : World) :
  fetch a clientConfig reportRequest w = (Ok v, w') ->
  exists n url body headers response gatewayResponse,
    requests_post (env w) n url body headers = Ok response
    /\ json_to_object (runtime (env w)) (VStr response) = Ok gatewayResponse
    /\ getattr_tree gatewayResponse (str "responseData") = Ok v.
Proof.
  destruct w as [h e n t]. unfold fetch. unfold bind at 1.
  destruct (GatewayRequest_new_run a reportRequest h e n t) as (l & Hl & ->).
  unfold bind.
  destruct (process_gateway_request _ _ _) as [[resp|err] w1] eqn:Ep; [|done].
  unfold lift. intros [= Hg _].
  apply process_gateway_request_result in Ep as (url & body & headers & response & Er & Ej).
  cbn [env calls] in Er, Ej. by eexists _, url, body, headers, response, resp.
Qed.

(** C9, as stated, fails: [NaN] is no JSON text, and [json_to_object]
    returns a float for it; a response with such a member is no JSON text,
    and the caller of [fetch_driver_trip_transaction] gets the float. *)
Lemma json_to_object_accepts_NaN :
  ~ RFC8259.text false (str "NaN")
  /\ json_to_object example_runtime (VStr (str "NaN")) = Ok (PFloat FNan)
  /\ ~ RFC8259.text false (jstr "{'responseData':NaN}")
  /\ fst (example_session (gateway_answering (jstr "{'responseData':NaN}")))
     = Ok (PFloat FNan).
Proof.
  split; [exact NaN_not_text|]. split; [reflexivity|].
  split; [exact member_NaN_not_text|]. vm_compute. reflexivity.
Qed.

(** C9, amended.  [json_to_object] returns a value only for a JSON text of
    RFC 8259 extended with the constants [NaN], [Infinity] and [-Infinity]:
    on every other text it raises.  The text [{not json] raises the decode
    error.  [process_gateway_request] and every [fetch_*] return a result
    only when the response of the gateway was such a text and was decoded
    in full. *)
Theorem json_to_object_decode_error :
  (forall rt text,
      RFC8259.text true text \/ exists e, json_to_object rt (VStr text) = Raise e)
  /\ (forall rt, json_to_object rt (VStr (jstr "{not json")) = Raise JSONDecodeError)
  /\ (forall clientConfig gatewayRequest w v w',
        process_gateway_request clientConfig gatewayRequest w = (Ok v, w') ->
        exists url body headers response,
          requests_post (env w) (3 + calls w) url body headers = Ok response
          /\ RFC8259.text true response
          /\ json_to_object (runtime (env w)) (VStr response) = Ok v)
  /\ (forall a clientConfig reportRequest w v w',
        fetch a clientConfig reportRequest w = (Ok v, w') ->
        exists n url body headers response gatewayResponse,
          requests_post (env w) n url body headers = Ok response
          /\ RFC8259.text true response
          /\ json_to_object (runtime (env w)) (VStr response) = Ok gatewayResponse
          /\ getattr_tree gatewayResponse (str "responseData") = Ok v).
Proof.
  split; [|split; [|split]].
  - intros rt text. destruct (json_to_object rt (VStr text)) as [v|e] eqn:E; [left|right; eauto].
    by apply loads_spec in E.
  - intros rt. reflexivity.
  - intros clientConfig gatewayRequest w v w'
      (url & body & headers & response & Er & Ej)%process_gateway_request_result.
    exists url, body, headers, response. split; [done|]. split; [|done].
    by apply loads_spec in Ej.
  - intros a clientConfig reportRequest w v w'
      (n & url & body & headers & response & resp & Er & Ej & Hg)%fetch_result.
    exists n, url, body, headers, response, resp. split; [done|]. split; [|done].
    by apply loads_spec in Ej.
Qed.

(** A response that a [fetch_*] returns a result for is such a text. *)
Lemma json_to_object_decode_error_witness :
  RFC8259.text true (jstr "{'responseData':{'transactions':[]}}").
Proof.
  destruct json_to_object_decode_error as (_ & _ & _ & H).
  pose (run := (let* clientConfig := build_uat_client_config in
                let* reportRequest := DriverTripTransactionReportRequest.new in
                ret (clientConfig, reportRequest)) example_world).
  let r := eval vm_compute in run in
  match r with
  | (Ok (?c, ?q), ?w) =>
      let f := eval vm_compute in (fetch DRIVER_TRIP_TRANSACTION c q w) in
      match f with
      | (Ok ?v, ?w') =>
          destruct (H DRIVER_TRIP_TRANSACTION c q w v w')
            as (n & url & body & headers & response & resp & Er & Ht & _);
          [vm_compute; reflexivity|]
      end
  end.
  injection Er as <-. exact Ht.
Defined.

(** With a gateway that answers [{not json], the call raises the decode
    error; with one that answers an empty list of transactions, the caller
    gets the [responseData] of the answer. *)
Example example_session_malformed :
  fst (example_session (gateway_answering (jstr "{not json"))) = Raise JSONDecodeError.
Proof. vm_compute. reflexivity. Qed.

Example example_session_transactions :
  fst (example_session example_world) = Ok (PTuple [str "transactions"] [PList []]).
Proof. vm_compute. reflexivity. Qed.

(** C8, as stated, fails: an object whose member has a name that
    [namedtuple] refuses is a JSON text, and [json_to_object] raises
    [ValueError] on it: a name that starts with an underscore, a keyword.
    Two names that the parser of Python reads as one, such as the micro sign
    and the letter mu, make the class definition of [namedtuple] a
    [SyntaxError]. *)
Lemma json_to_object_refuses_names :
  RFC8259.text false (jstr "{'_id':1}")
  /\ json_to_object example_runtime (VStr (jstr "{'_id':1}")) = Raise ValueError
  /\ json_to_object example_runtime (VStr (jstr "{'class':1}")) = Raise ValueError
  /\ json_to_object micro_runtime
       (VStr (jstr "{'" ++ [0xB5] ++ jstr "':1,'" ++ [0x3BC] ++ jstr "':2}"))
     = Raise SyntaxError.
Proof.
  split; [|split; [|split]; reflexivity].
  exists [], (jstr "{'_id':1}"), []. split; [reflexivity|].
  split; [constructor|]. split; [|constructor].
  apply (RFC8259.value_object false [] (jstr "'_id':1") []); [constructor| |constructor].
  apply (RFC8259.members_one false (str "_id") [] [] (str "1")); [|constructor|constructor|].
  - repeat (apply RFC8259.chars_unescaped; [done|done|done|]). constructor.
  - apply RFC8259.value_number. exists [], (str "1"), [], [].
    split; [reflexivity|]. split; [by left|]. split; [|by split; left].
    right. exists 49, []. split; [reflexivity|]. split; [lia|constructor].
Qed.

(** C8, amended.  Let [j] be what [json.loads] reads in [text] when it keeps
    the members of each object as written.  If the names of the members of
    every object of [j] are names that [namedtuple] accepts (identifiers
    that are no keywords, do not start with an underscore, are not repeated,
    and of which no two have the same NFKC form), then [json_to_object]
    returns the tree of [j] in which every object is an instance of a
    namedtuple class and every array a list: every member of [j], along
    whatever path of names, is read from it by the same names, and an array
    is the list of its elements in order. *)
Theorem json_to_object_fields (rt : Runtime) (text : pystr) (j : pyval) :
  Decoder.loads rt None (Some Decoder.members_hook) text = Ok j ->
  names_valid rt j = true ->
  json_to_object rt (VStr text) = Ok (as_namedtuples j)
  /\ (forall path v, member_path j path = Some v ->
                     getattr_path (as_namedtuples j) path = Ok (as_namedtuples v))
  /\ (forall path l, member_path j path = Some (PList l) ->
                     getattr_path (as_namedtuples j) path
                     = Ok (PList (List.map as_namedtuples l))).
Proof.
  intros Hj Hv. split; [by apply loads_complete|]. split.
  - intros path v. apply getattr_path_as_namedtuples.
  - intros path l. apply getattr_path_as_namedtuples.
Qed.

(** The scenario of the specification: the response
    [{"responseData":{"transactions":[]}}] gives a tree whose
    [responseData.transactions] is the empty list; and a response with two
    transactions gives the list of the two, the first first. *)
Lemma json_to_object_fields_witness :
  (exists response,
      json_to_object example_runtime
        (VStr (jstr "{'responseData':{'transactions':[]}}")) = Ok response
      /\ getattr_path response [str "responseData"; str "transactions"] = Ok (PList []))
  /\ (exists response,
      json_to_object example_runtime
        (VStr (jstr "{'responseData':{'transactions':[{'id':1},{'id':2}]}}")) = Ok response
      /\ getattr_path response [str "responseData"; str "transactions"]
         = Ok (PList [PTuple [str "id"] [PInt 1]; PTuple [str "id"] [PInt 2]])).
Proof.
  split.
  - pose (j := PDict [(str "responseData", PDict [(str "transactions", PList [])])]).
    destruct (json_to_object_fields example_runtime
                (jstr "{'responseData':{'transactions':[]}}") j) as (Hr & _ & Hl);
      [reflexivity|reflexivity|].
    exists (as_namedtuples j). split; [exact Hr|].
    apply (Hl [str "responseData"; str "transactions"] []). reflexivity.
  - pose (j := PDict [(str "responseData",
                       PDict [(str "transactions",
                               PList [PDict [(str "id", PInt 1)];
                                      PDict [(str "id", PInt 2)]])])]).
    destruct (json_to_object_fields example_runtime
                (jstr "{'responseData':{'transactions':[{'id':1},{'id':2}]}}") j)
      as (Hr & _ & Hl); [reflexivity|reflexivity|].
    exists (as_namedtuples j). split; [exact Hr|].
    apply (Hl [str "responseData"; str "transactions"]
              [PDict [(str "id", PInt 1)]; PDict [(str "id", PInt 2)]]). reflexivity.
Defined.




(** * The signer: when it fails *)
(* ===================================================================== *)

Lemma utf8_char_cases (c : N) :
  if (0xD800 <=? c) && (c <=? 0xDFFF)
  then Codec.utf8_char c = Raise UnicodeEncodeError
  else exists b, Codec.utf8_char c = Ok b /\ b <> [].
Proof.
  unfold Codec.utf8_char.
  destruct (N.ltb_spec c 128).
  { replace ((55296 <=? c) && (c <=? 57343)) with false; [by eexists|].
    symmetry. apply andb_false_iff. left. apply N.leb_gt. lia. }
  destruct (N.ltb_spec c 2048).
  { replace ((55296 <=? c) && (c <=? 57343)) with false; [by eexists|].
    symmetry. apply andb_false_iff. left. apply N.leb_gt. lia. }
  destruct ((55296 <=? c) && (c <=? 57343)); [done|].
  destruct (c <? 65536); by eexists.
Qed.

Lemma encode_utf8_cases (s : pystr) :
  if has_surrogate s
  then Codec.encode_utf8 s = Raise UnicodeEncodeError
  else exists b, Codec.encode_utf8 s = Ok b.
Proof.
  induction s as [|c s IH]; simpl; [by eexists|].
  pose proof (utf8_char_cases c) as Hc.
  destruct ((55296 <=? c) && (c <=? 57343)); simpl.
  - by rewrite Hc.
  - destruct Hc as (b & -> & _). destruct (has_surrogate s).
    + by rewrite IH.
    + destruct IH as (bs & ->). by eexists.
Qed.

Lemma encode_utf8_app (s t : pystr) (a b : pybytes) :
  Codec.encode_utf8 s = Ok a -> Codec.encode_utf8 t = Ok b ->
  Codec.encode_utf8 (s ++ t) = Ok (a ++ b).
Proof.
  revert a. induction s as [|c s IH]; simpl; intros a.
  - by intros [= <-].
  - destruct (Codec.utf8_char c) as [x|]; [|done].
    destruct (Codec.encode_utf8 s) as [xs|]; [|done].
    intros [= <-] Ht. rewrite (IH xs eq_refl Ht). by rewrite app_assoc.
Qed.

(** X1. [generate_hmac] fails in four ways only, which it meets in this
    order: a key that is no [str] has no [encode]; a key with a surrogate
    cannot be encoded; the same for the message; otherwise there is a
    signature. *)
Theorem generate_hmac_failures (secretKey rawJson : value) :
  match secretKey with
  | VStr secret =>
      if has_surrogate secret
      then generate_hmac secretKey rawJson = Raise UnicodeEncodeError
      else
        match rawJson with
        | VStr body =>
            if has_surrogate body
            then generate_hmac secretKey rawJson = Raise UnicodeEncodeError
            else exists sig, generate_hmac secretKey rawJson = Ok sig
        | _ => generate_hmac secretKey rawJson = Raise AttributeError
        end
  | _ => generate_hmac secretKey rawJson = Raise AttributeError
  end.
Proof.
  unfold generate_hmac.
  destruct secretKey as [| | | |secret| |]; try done. simpl.
  pose proof (encode_utf8_cases secret) as Hs.
  destruct (has_surrogate secret); [by rewrite Hs|]. destruct Hs as (key & ->).
  destruct rawJson as [| | | |body| |]; try done. simpl.
  pose proof (encode_utf8_cases body) as Hb.
  destruct (has_surrogate body); [by rewrite Hb|]. destruct Hb as (msg & ->).
  by eexists.
Qed.

Lemma ljust_zero (key : pybytes) :
  (length key < 64)%nat -> HMAC.ljust 64 (key ++ [0]) = HMAC.ljust 64 key.
Proof.
  intros H. unfold HMAC.ljust. rewrite length_app, <- app_assoc. simpl length. f_equal.
  replace (64 - length key)%nat with (S (64 - (length key + 1))) by lia. done.
Qed.

Lemma hmac_new_zero (key msg : pybytes) :
  (length key < 64)%nat -> HMAC.new (key ++ [0]) msg = HMAC.new key msg.
Proof.
  intros H. unfold HMAC.new, HMAC.blocksize.
  replace (64 <? length (key ++ [0%N]))%nat with false
    by (symmetry; apply Nat.ltb_ge; rewrite length_app; simpl; lia).
  replace (64 <? length key)%nat with false by (symmetry; apply Nat.ltb_ge; lia).
  by rewrite ljust_zero.
Qed.

(** X2. A secret shorter than the block of the hash signs as the secret
    followed by a NUL character does: [hmac] pads the key with zeros. *)
Theorem generate_hmac_trailing_nul (secret body : pystr) (key : pybytes) :
  Codec.encode_utf8 secret = Ok key -> (length key < 64)%nat ->
  generate_hmac (VStr (secret ++ [0])) (VStr body) = generate_hmac (VStr secret) (VStr body).
Proof.
  intros Hk Hlen. unfold generate_hmac. simpl.
  rewrite (encode_utf8_app secret [0] key [0] Hk eq_refl), Hk.
  destruct (Codec.encode_utf8 body) as [msg|]; [|done].
  by rewrite hmac_new_zero.
Qed.

Lemma generate_hmac_trailing_nul_witness :
  generate_hmac (VStr (str "keep-this-secret" ++ [0])) (VStr (str "{}"))
  = generate_hmac (VStr (str "keep-this-secret")) (VStr (str "{}")).
Proof.
  apply (generate_hmac_trailing_nul _ _ (str "keep-this-secret")); [reflexivity|].
  vm_compute. lia.
Defined.

(** * The encoder writes ASCII *)
(* ===================================================================== *)

Lemma isascii_app (a b : pystr) : isascii (a ++ b) = isascii a && isascii b.
Proof. apply forallb_app. Qed.

Lemma isascii_concat (l : list pystr) :
  forallb isascii l = true -> isascii (List.concat l) = true.
Proof.
  induction l as [|x l IH]; simpl; [done|].
  intros [Hx Hl]%andb_true_iff. rewrite isascii_app, Hx. by apply IH.
Qed.

Lemma hex_digit_ascii (n : N) : n < 16 -> Encoder.hex_digit n < 128.
Proof. intros H. unfold Encoder.hex_digit. destruct (N.ltb_spec n 10); lia. Qed.

Lemma u_escape_ascii (n : N) : isascii (Encoder.u_escape n) = true.
Proof.
  unfold Encoder.u_escape. rewrite isascii_app. simpl.
  rewrite !andb_true_r, !andb_true_iff.
  repeat split; apply N.ltb_lt, hex_digit_ascii, N.mod_lt; lia.
Qed.

Lemma escape_char_ascii (c : N) : isascii (Encoder.escape_char c) = true.
Proof.
  unfold Encoder.escape_char.
  repeat (match goal with |- context [if ?b =? ?x then _ else _] => destruct (b =? x) end;
          [done|]).
  destruct ((32 <=? c) && (c <=? 126)) eqn:E.
  - apply andb_true_iff in E as [_ H]. simpl. rewrite andb_true_r.
    apply N.ltb_lt. apply N.leb_le in H. lia.
  - destruct (c <? 65536); [apply u_escape_ascii|].
    by rewrite isascii_app, !u_escape_ascii.
Qed.

Lemma encode_basestring_ascii_ascii (s : pystr) :
  isascii (Encoder.encode_basestring_ascii s) = true.
Proof.
  unfold Encoder.encode_basestring_ascii. rewrite !isascii_app. simpl.
  rewrite andb_true_r. apply isascii_concat.
  apply forallb_forall. intros x (c & <- & _)%in_map_iff. apply escape_char_ascii.
Qed.

Lemma string_of_uint_ascii (d : Decimal.uint) :
  isascii (str (DecimalString.NilEmpty.string_of_uint d)) = true.
Proof. induction d; simpl; done. Qed.

Lemma intstr_ascii (z : Z) : isascii (Encoder.intstr z) = true.
Proof.
  unfold Encoder.intstr, DecimalString.NilZero.string_of_int,
    DecimalString.NilZero.string_of_uint.
  destruct (Z.to_int z) as [d|d]; destruct d;
    try done; try apply (string_of_uint_ascii (_ d));
    change (isascii (45 :: str (DecimalString.NilEmpty.string_of_uint ?x)) = true)
      with (isascii (str (DecimalString.NilEmpty.string_of_uint x)) = true);
    apply string_of_uint_ascii.
Qed.

Lemma spaces_ascii (n : nat) : isascii (spaces n) = true.
Proof. induction n; simpl; done. Qed.

Lemma newline_indent_ascii (lvl : nat) : isascii (Encoder.newline_indent lvl) = true.
Proof. unfold Encoder.newline_indent. simpl. apply spaces_ascii. Qed.

Lemma join_ascii (sep : pystr) (chunks : list pystr) :
  isascii sep = true -> forallb isascii chunks = true ->
  isascii (Encoder.join sep chunks) = true.
Proof.
  intros Hsep. induction chunks as [|c rest IH]; [done|].
  intros [Hc Hrest]%andb_true_iff. specialize (IH Hrest).
  destruct rest as [|c' rest]; [done|].
  change (Encoder.join sep (c :: c' :: rest)) with (c ++ sep ++ Encoder.join sep (c' :: rest)).
  by rewrite !isascii_app, Hc, Hsep, IH.
Qed.

Lemma iterencode_list_ascii (lvl : nat) (chunks : list pystr) :
  forallb isascii chunks = true -> isascii (Encoder.iterencode_list lvl chunks) = true.
Proof.
  intros H. unfold Encoder.iterencode_list. destruct chunks as [|c rest]; [done|].
  rewrite !isascii_app, !newline_indent_ascii, join_ascii; [done| |done].
  by rewrite isascii_app, newline_indent_ascii.
Qed.

Lemma iterencode_dict_ascii (lvl : nat) (items : list (pystr * pystr)) :
  forallb (fun kv => isascii (snd kv)) items = true ->
  isascii (Encoder.iterencode_dict lvl items) = true.
Proof.
  intros H. unfold Encoder.iterencode_dict. destruct items as [|kv rest]; [done|].
  rewrite !isascii_app, !newline_indent_ascii, join_ascii; [done| |].
  - by rewrite isascii_app, newline_indent_ascii.
  - apply forallb_forall. intros x (kv' & <- & Hin)%in_map_iff.
    rewrite !isascii_app, encode_basestring_ascii_ascii. simpl.
    rewrite forallb_forall in H. apply H.
    eapply Permutation_in; [apply sorted_items_perm|done].
Qed.

(** The encoder escapes what is not ASCII: its output is ASCII when the
    [repr] of every float is, as that of a Python float is. *)
Lemma iterencode_ascii (t : pyval) :
  forall lvl, tree_forall (fun _ => true) float_isascii t = true ->
              isascii (Encoder.iterencode lvl t) = true.
Proof.
  induction t as [|[|]|z|f|s|l IH|fs l IH|d IH|d IH] using pyval_ind'; intros lvl Ht;
    try done.
  - apply intstr_ascii.
  - by destruct f.
  - apply encode_basestring_ascii_ascii.
  - simpl. apply iterencode_list_ascii. simpl in Ht.
    rewrite forallb_forall in *. intros x (t & <- & Hin)%in_map_iff.
    rewrite List.Forall_forall in IH. apply IH; [done|]. by apply Ht.
  - simpl. apply iterencode_list_ascii. simpl in Ht.
    rewrite forallb_forall in *. intros x (t & <- & Hin)%in_map_iff.
    rewrite List.Forall_forall in IH. apply IH; [done|]. by apply Ht.
  - simpl. apply iterencode_dict_ascii. simpl in Ht.
    rewrite forallb_forall in *. intros x (kv & <- & Hin)%in_map_iff. simpl.
    rewrite List.Forall_forall in IH. apply IH; [done|]. by apply Ht.
  - simpl. apply iterencode_dict_ascii. simpl in Ht.
    rewrite forallb_forall in *. intros x (kv & <- & Hin)%in_map_iff. simpl.
    rewrite List.Forall_forall in IH. apply IH; [done|]. by apply Ht.
Qed.

Lemma isascii_no_surrogate (s : pystr) : isascii s = true -> has_surrogate s = false.
Proof.
  induction s as [|c s IH]; simpl; [done|].
  intros [Hc Hs]%andb_true_iff. rewrite (IH Hs), orb_false_r.
  apply N.ltb_lt in Hc. apply andb_false_iff. left. apply N.leb_gt. lia.
Qed.

(** ASCII text is its own UTF-8 encoding. *)
Lemma encode_utf8_ascii (s : pystr) : isascii s = true -> Codec.encode_utf8 s = Ok s.
Proof.
  induction s as [|c s IH]; simpl; [done|].
  intros [Hc Hs]%andb_true_iff. rewrite (IH Hs). unfold Codec.utf8_char.
  by rewrite Hc.
Qed.

(** X3. What [Serializer.to_json] returns is ASCII: the characters of
    strings and keys that are not come out as escapes. *)
Theorem to_json_ascii (t : pyval) :
  tree_forall (fun _ => true) float_isascii t = true ->
  Forall (fun c => c < 128) (to_json t).
Proof.
  intros Ht. apply (iterencode_ascii t 0) in Ht.
  apply List.Forall_forall. intros c Hc.
  unfold isascii in Ht. rewrite forallb_forall in Ht. by apply N.ltb_lt, Ht.
Qed.

Lemma to_json_ascii_witness :
  Forall (fun c => c < 128)
    (to_json (PObj [([233; 8364], PList [PStr [128512; 34; 10]; PFloat (FFinite (str "1.5"))])])).
Proof. apply to_json_ascii. reflexivity. Defined.

(** X4. A serialized request can always be signed: [generate_hmac] over
    what [to_json] returns fails only on a secret that cannot be encoded,
    and the message under the HMAC is the text itself, byte for
    character. *)
Theorem generate_hmac_to_json (secret : pystr) (key : pybytes) (t : pyval) :
  Codec.encode_utf8 secret = Ok key ->
  tree_forall (fun _ => true) float_isascii t = true ->
  generate_hmac (VStr secret) (VStr (to_json t))
  = Ok (Codec.hexlify (HMAC.hmac_sha256 key (to_json t))).
Proof.
  intros Hk Ht. unfold generate_hmac. simpl. rewrite Hk.
  rewrite encode_utf8_ascii by by apply (iterencode_ascii t 0).
  unfold HMAC.hexdigest. by rewrite hmac_new_digest.
Qed.

Lemma generate_hmac_to_json_witness :
  generate_hmac (VStr (str "keep-this-secret")) (VStr (to_json (PObj [(str "peopleId", PInt 223)])))
  = Ok (Codec.hexlify (HMAC.hmac_sha256 (str "keep-this-secret")
                         (to_json (PObj [(str "peopleId", PInt 223)])))).
Proof. apply generate_hmac_to_json; reflexivity. Defined.

(** * The transport *)
(* ===================================================================== *)


(* ===================================================================== *)
(** * The client, end to end *)
(* ===================================================================== *)

Lemma GatewayRequest_envelope_tree (l : loc) (h : gmap loc cell) (e : Env) (n : nat)
    (t : list event) (requestData : value) (a uuid date : pystr) (tr : pyval) :
  h !! l = None ->
  snapshot (S (size h)) h requestData = Some tr ->
  tree_of (mkW (<[l := Instance (str "GatewayRequest")
                        [(str "apiVersion", VStr (str "v2_10_0"));
                         (str "messageId", VStr uuid);
                         (str "requestDate", VStr date);
                         (str "validateOnly", VBool false);
                         (str "actionType", VStr a);
                         (str "requestData", requestData)]]> h) e n t) (VRef l)
  = Some (envelope_tree a uuid date tr).
Proof.
  intros Hl Hreq. unfold tree_of. cbn [heap].
  eapply snapshot_instance; [apply lookup_insert_eq|].
  rewrite map_size_insert_None by done.
  repeat (apply List.Forall2_cons; [split; [reflexivity|]|]); try apply List.Forall2_nil;
    try reflexivity.
  eapply snapshot_mono; [exact Hreq|lia|]. by apply insert_subseteq.
Qed.

(** What [process_gateway_request] does once the request is serialized and
    the configuration read. *)
Lemma process_gateway_request_run (clientConfig gatewayRequest : value) (w : World)
    (body secret url : pystr) (key : pybytes) :
  call_to_json gatewayRequest w = (Ok (VStr body), w) ->
  getattr clientConfig (str "hmacSecret") w = (Ok (VStr secret), w) ->
  getattr clientConfig (str "serviceEndpoint") w = (Ok (VStr url), w) ->
  has_surrogate url = false ->
  Codec.encode_utf8 secret = Ok key ->
  isascii body = true ->
  let sig := Codec.hexlify (HMAC.hmac_sha256 key body) in
  let lines := [EPrint (str "Http url: " ++ url);
                EPrint (str "Http header: HMAC: " ++ sig);
                EPrint (str "Http body: " ++ body);
                EPost url body (http_headers sig)] in
  process_gateway_request clientConfig gatewayRequest w
  = match requests_post (env w) (3 + calls w) url body (http_headers sig) with
    | Ok response =>
        if has_surrogate response
        then (Raise UnicodeEncodeError,
              mkW (heap w) (env w) (4 + calls w) (trace w ++ lines))
        else (json_to_object (runtime (env w)) (VStr response),
              mkW (heap w) (env w) (5 + calls w)
                (trace w ++ lines ++ [EPrint (str "Http response: " ++ response)]))
    | Raise e => (Raise e, mkW (heap w) (env w) (4 + calls w) (trace w ++ lines))
    end.
Proof.
  intros Hjson Hsecret Hurl Hprint Hkey Hascii sig lines.
  rewrite process_gateway_request_unfold, Hjson, Hsecret.
  assert (Hsig : generate_hmac (VStr secret) (VStr body) = Ok sig).
  { unfold generate_hmac. simpl. rewrite Hkey, (encode_utf8_ascii body Hascii).
    unfold HMAC.hexdigest. by rewrite hmac_new_digest. }
  rewrite Hsig, Hurl, post_http_request_str.
  rewrite Hprint, (generate_hmac_no_surrogate _ _ _ Hsig), (isascii_no_surrogate body Hascii).
  change [(str "Content-Type", str "application/json"); (str "HMAC", sig)]
    with (http_headers sig).
  destruct (requests_post _ _ _ _ _) as [response|e]; [destruct (has_surrogate response)|];
    unfold log; cbn [heap env calls trace]; rewrite <- ?app_assoc; reflexivity.
Qed.

(** What a [fetch_*] does with a configuration that holds two strings and a
    request that can be serialized. *)
Lemma fetch_run (a : ActionType) (clientConfig reportRequest : value) (w : World)
    (secret url : pystr) (key : pybytes) (t : pyval) :
  getattr clientConfig (str "hmacSecret") w = (Ok (VStr secret), w) ->
  getattr clientConfig (str "serviceEndpoint") w = (Ok (VStr url), w) ->
  has_surrogate url = false ->
  Codec.encode_utf8 secret = Ok key ->
  tree_of w reportRequest = Some t ->
  tree_forall (fun _ => true) float_isascii t = true ->
  let messageId := uuid4 (env w) (calls w) in
  let requestDate := now_isoformat (env w) (S (calls w)) in
  let body := to_json (envelope_tree (ActionType_value a) messageId requestDate t) in
  let sig := Codec.hexlify (HMAC.hmac_sha256 key body) in
  let lines := [EPrint (str "Http url: " ++ url);
                EPrint (str "Http header: HMAC: " ++ sig);
                EPrint (str "Http body: " ++ body);
                EPost url body (http_headers sig)] in
  exists l h',
    heap w !! l = None
    /\ h' = <[l := Instance (str "GatewayRequest")
                     [(str "apiVersion", VStr (str "v2_10_0"));
                      (str "messageId", VStr messageId);
                      (str "requestDate", VStr requestDate);
                      (str "validateOnly", VBool false);
                      (str "actionType", VStr (ActionType_value a));
                      (str "requestData", reportRequest)]]> (heap w)
    /\ fetch a clientConfig reportRequest w
       = match requests_post (env w) (5 + calls w) url body (http_headers sig) with
         | Ok response =>
             if has_surrogate response
             then (Raise UnicodeEncodeError, mkW h' (env w) (6 + calls w) (trace w ++ lines))
             else
               (match json_to_object (runtime (env w)) (VStr response) with
                | Ok gatewayResponse => getattr_tree gatewayResponse (str "responseData")
                | Raise e => Raise e
                end,
                mkW h' (env w) (7 + calls w)
                  (trace w ++ lines ++ [EPrint (str "Http response: " ++ response)]))
         | Raise e => (Raise e, mkW h' (env w) (6 + calls w) (trace w ++ lines))
         end.
Proof.
  intros Hsecret Hurl Hprint Hkey Htree Hfloats messageId requestDate body sig lines.
  destruct w as [h e n tr]. cbn [heap env calls trace] in *.
  unfold fetch. unfold bind at 1.
  destruct (GatewayRequest_new_run a reportRequest h e n tr) as (l & Hl & ->).
  exists l. eexists. split; [done|]. split; [reflexivity|].
  set (g := <[l := _]> h).
  assert (Hsub : h ⊆ g) by by apply insert_subseteq.
  assert (Hjson : call_to_json (VRef l) (mkW g e (S (S n)) tr)
                  = (Ok (VStr body), mkW g e (S (S n)) tr)).
  { unfold call_to_json. cbn [heap]. unfold g at 1. rewrite lookup_insert_eq.
    change (dict_get (str "to_json") _) with (@None value). cbv iota.
    change (bool_decide (str "GatewayRequest" ∈ serializer_classes)) with true. cbv iota.
    unfold Serializer.to_json. unfold g.
    by rewrite (GatewayRequest_envelope_tree l h e (S (S n)) tr reportRequest _ _ _ t Hl Htree). }
  assert (Hascii : isascii body = true).
  { apply (iterencode_ascii _ 0). simpl. by rewrite Hfloats. }
  unfold bind.
  rewrite (process_gateway_request_run clientConfig (VRef l) (mkW g e (S (S n)) tr)
             body secret url key Hjson
             (getattr_weaken (mkW h e n tr) (mkW g e (S (S n)) tr) _ _ _ Hsub Hsecret)
             (getattr_weaken (mkW h e n tr) (mkW g e (S (S n)) tr) _ _ _ Hsub Hurl)
             Hprint Hkey Hascii).
  cbn [heap env calls trace runtime].
  destruct (requests_post e _ url body _) as [response|err]; [|reflexivity].
  destruct (has_surrogate response); [reflexivity|].
  unfold lift. by destruct (json_to_object _ _).
Qed.

Lemma getattr_tree_raises (o : pyval) (name : pystr) (e : exn) :
  getattr_tree o name = Raise e -> e = AttributeError.
Proof.
  unfold getattr_tree. destruct o; try by intros [= <-].
  destruct (dict_get _ _); [done|by intros [= <-]].
Qed.

(** X6. A [fetch_*] call, end to end.  With a configuration that holds an
    endpoint and a secret, both strings, and a request that can be
    serialized, it sends one request: the JSON text of a new envelope
    around the request, to the endpoint, under the HMAC of that text with
    the secret.  When the gateway answers a text that decodes to an object
    with a [responseData], the caller gets that [responseData].  The
    endpoint and the answer are printed, so they hold no surrogate. *)
Theorem fetch_end_to_end (a : ActionType) (clientConfig reportRequest : value) (w : World)
    (secret url : pystr) (key : pybytes) (t : pyval)
    (response : pystr) (gatewayResponse responseData : pyval) :
  let body := to_json (envelope_tree (ActionType_value a) (uuid4 (env w) (calls w))
                         (now_isoformat (env w) (S (calls w))) t) in
  let sig := Codec.hexlify (HMAC.hmac_sha256 key body) in
  getattr clientConfig (str "hmacSecret") w = (Ok (VStr secret), w) ->
  getattr clientConfig (str "serviceEndpoint") w = (Ok (VStr url), w) ->
  has_surrogate url = false ->
  Codec.encode_utf8 secret = Ok key ->
  tree_of w reportRequest = Some t ->
  tree_forall (fun _ => true) float_isascii t = true ->
  requests_post (env w) (5 + calls w) url body (http_headers sig) = Ok response ->
  has_surrogate response = false ->
  json_to_object (runtime (env w)) (VStr response) = Ok gatewayResponse ->
  getattr_tree gatewayResponse (str "responseData") = Ok responseData ->
  fst (fetch a clientConfig reportRequest w) = Ok responseData
  /\ trace (snd (fetch a clientConfig reportRequest w))
     = trace w ++ [EPrint (str "Http url: " ++ url);
                   EPrint (str "Http header: HMAC: " ++ sig);
                   EPrint (str "Http body: " ++ body);
                   EPost url body (http_headers sig);
                   EPrint (str "Http response: " ++ response)].
Proof.
  intros body sig Hsecret Hurl Hprint Hkey Htree Hfloats Hpost Hresp Hjson Hdata.
  destruct (fetch_run a clientConfig reportRequest w secret url key t
              Hsecret Hurl Hprint Hkey Htree Hfloats) as (l & h' & _ & _ & ->).
  fold body. fold sig. rewrite Hpost, Hresp, Hjson, Hdata. by split.
Qed.

Lemma fetch_end_to_end_witness :
  let w := {| heap := {[1%positive := Instance (str "ClientConfig")
                          [(str "serviceEndpoint", VStr (str "http://gateway/reporting"));
                           (str "hmacSecret", VStr (str "keep-this-secret"));
                           (str "authToken", VNone); (str "csrfToken", VNone)];
                        2%positive := Instance (str "TaxiProfileReportRequest")
                          [(str "pageSize", VInt 10); (str "taxiId", VInt 7)]]};
              env := example_env; calls := 0; trace := [] |} in
  fst (fetch_taxi_profile (VRef 1%positive) (VRef 2%positive) w)
  = Ok (PTuple [str "transactions"] [PList []]).
Proof.
  intros w.
  refine (proj1 (fetch_end_to_end TAXI_PROFILE (VRef 1%positive) (VRef 2%positive) w
                   (str "keep-this-secret") (str "http://gateway/reporting")
                   (str "keep-this-secret")
                   (PObj [(str "pageSize", PInt 10); (str "taxiId", PInt 7)])
                   (jstr "{'responseData':{'transactions':[]}}")
                   (PTuple [str "responseData"] [PTuple [str "transactions"] [PList []]])
                   (PTuple [str "transactions"] [PList []])
                   _ _ _ _ _ _ _ _ _ _)); reflexivity.
Defined.



(** * Failures before anything is sent *)
(* ===================================================================== *)

Lemma snapshot_refers (n : nat) (h : gmap loc cell) (l l' : loc) :
  refers h l l' -> snapshot n h (VRef l') = None -> snapshot (S n) h (VRef l) = None.
Proof.
  unfold refers. intros Hr Hn. simpl.
  destruct (h !! l) as [[cls d|items]|]; [| |done].
  - destruct (mapM _ d) as [d'|] eqn:E; [|done]. exfalso.
    assert (Hs : is_Some (mapM (fun kv => pair (fst kv) <$> snapshot n h (snd kv)) d))
      by (rewrite E; eauto).
    rewrite mapM_is_Some, List.Forall_forall in Hs.
    unfold values in Hr. apply elem_of_map in Hr as ([k v] & Hv & Hin). simpl in Hv.
    apply list_elem_of_In in Hin. apply Hs in Hin as [x Hx]. simpl in Hx.
    rewrite <- Hv, Hn in Hx. done.
  - destruct (mapM _ items) as [ts|] eqn:E; [|done]. exfalso.
    assert (Hs : is_Some (mapM (snapshot n h) items)) by (rewrite E; eauto).
    rewrite mapM_is_Some, List.Forall_forall in Hs.
    apply list_elem_of_In in Hr. apply Hs in Hr as [x Hx]. by rewrite Hn in Hx.
Qed.

Lemma tc_cycle_step (h : gmap loc cell) (l : loc) :
  tc (refers h) l l -> exists l1, refers h l l1 /\ tc (refers h) l1 l1.
Proof.
  intros H. inversion H as [? ? Hr|? l1 ? Hr Htc]; subst.
  - exists l. split; [done|]. by apply tc_once.
  - exists l1. split; [done|]. by eapply tc_r.
Qed.

Lemma snapshot_cycle (h : gmap loc cell) (n : nat) :
  forall l, tc (refers h) l l -> snapshot n h (VRef l) = None.
Proof.
  induction n as [|n IH]; intros l Hl; [done|].
  destruct (tc_cycle_step h l Hl) as (l1 & Hr & Hl1).
  eapply snapshot_refers; [exact Hr|]. by apply IH.
Qed.

(** An object from which a cycle is reached has no tree, whatever the
    fuel. *)
Lemma snapshot_circular (h : gmap loc cell) (l : loc) :
  circular h l -> forall n, snapshot n h (VRef l) = None.
Proof.
  intros (l' & Hrtc & Hcycle).
  induction Hrtc as [l|l l1 l' Hr Hrtc IH]; intros n.
  - by apply snapshot_cycle.
  - destruct n as [|n]; [done|]. eapply snapshot_refers; [exact Hr|]. by apply IH.
Qed.

Lemma refers_insert (h : gmap loc cell) (l0 : loc) (c : cell) (l l' : loc) :
  h !! l0 = None -> refers h l l' -> refers (<[l0 := c]> h) l l'.
Proof.
  unfold refers. intros H0 Hr.
  destruct (decide (l = l0)) as [->|Hne]; [by rewrite H0 in Hr|].
  by rewrite lookup_insert_ne.
Qed.

Lemma circular_insert (h : gmap loc cell) (l0 : loc) (c : cell) (l : loc) :
  h !! l0 = None -> circular h l -> circular (<[l0 := c]> h) l.
Proof.
  intros H0 (l' & Hrtc & Hcycle). exists l'. split.
  - eapply rtc_subrel; [|exact Hrtc]. intros x y. by apply refers_insert.
  - apply (tc_congruence (R := refers h) (fun x => x) (refers (<[l0 := c]> h)));
      [|done]. intros x y. by apply refers_insert.
Qed.



Lemma getattr_raises (o : value) (name : pystr) (w : World) (e : exn) (w' : World) :
  getattr o name w = (Raise e, w') -> e = AttributeError /\ w' = w.
Proof.
  unfold getattr. destruct o; try by intros [= <- <-].
  destruct (heap w !! l) as [[cls d|items]|]; try by intros [= <- <-].
  destruct (dict_get name d); [done|by intros [= <- <-]].
Qed.

(** An attribute that is missing stays missing when an envelope is made. *)
Lemma getattr_raises_insert (o : value) (name : pystr) (h : gmap loc cell) (e : Env)
    (n n' : nat) (t : list event) (l0 : loc) (cls : pystr) (d0 : list (pystr * value))
    (err : exn) :
  h !! l0 = None -> dict_get name d0 = None ->
  getattr o name (mkW h e n t) = (Raise err, mkW h e n t) ->
  getattr o name (mkW (<[l0 := Instance cls d0]> h) e n' t)
  = (Raise AttributeError, mkW (<[l0 := Instance cls d0]> h) e n' t).
Proof.
  intros H0 Hd. unfold getattr. cbn [heap]. destruct o as [| | | | |l|]; try done.
  destruct (decide (l = l0)) as [->|Hne].
  - by rewrite lookup_insert_eq, Hd.
  - rewrite lookup_insert_ne by done.
    destruct (h !! l) as [[c d|items]|]; try done. by destruct (dict_get name d).
Qed.



(** * [json_object_hook] on a dict *)
(* ===================================================================== *)

Lemma check_seen_true (names seen : list pystr) :
  NoDup names -> (forall name, name ∈ names -> name ∉ seen) ->
  forallb (fun name => negb (NamedTuple.startswith_underscore name)) names = true ->
  NamedTuple.check_seen seen names = true.
Proof.
  revert seen. induction names as [|name names IH]; intros seen Hnd Hseen Hu; [done|].
  simpl in *. apply andb_true_iff in Hu as [Hu Hus]. apply NoDup_cons in Hnd as [Hnot Hnd].
  rewrite Hu. simpl. rewrite bool_decide_eq_false_2 by (apply Hseen; left). simpl.
  apply IH; [done| |done].
  intros x Hx [->|Hin]%elem_of_cons; [done|]. apply (Hseen x); [by right|done].
Qed.

Lemma valid_names_field_names (rt : Runtime) (names : list pystr) :
  NoDup names ->
  NamedTuple.valid_names rt (str "Class") names = forallb (field_name rt) names.
Proof.
  intros Hnd. unfold NamedTuple.valid_names.
  change (forallb _ (str "Class" :: names))
    with (forallb (fun name => NamedTuple.isidentifier rt name
                               && negb (NamedTuple.iskeyword name)) names).
  destruct (forallb (field_name rt) names) eqn:E.
  - rewrite forallb_forall in E. apply andb_true_iff. split.
    + apply forallb_forall. intros x Hx. apply E in Hx.
      unfold field_name in Hx. by apply andb_true_iff in Hx as [? _].
    + apply check_seen_true; [done|by intros x _ ?%elem_of_nil|].
      apply forallb_forall. intros x Hx. apply E in Hx.
      unfold field_name in Hx. by apply andb_true_iff in Hx as [_ ?].
  - apply andb_false_iff.
    destruct (forallb (fun name => NamedTuple.isidentifier rt name
                                   && negb (NamedTuple.iskeyword name)) names) eqn:E1;
      [right|by left].
    destruct (NamedTuple.check_seen [] names) eqn:E2; [|done]. exfalso.
    assert (Hall : forallb (field_name rt) names = true); [|by rewrite Hall in E].
    rewrite forallb_forall in *. intros x Hx. unfold field_name.
    rewrite (E1 x Hx). simpl. clear E E1.
    assert (Hgen : forall seen l, NamedTuple.check_seen seen l = true ->
               In x l -> negb (NamedTuple.startswith_underscore x) = true).
    { intros seen l. revert seen. induction l as [|y l IH]; intros seen; simpl; [done|].
      intros [[Hy _]%andb_true_iff Hr]%andb_true_iff [->|Hin]; [done|]. by eapply IH. }
    by eapply Hgen.
Qed.

Lemma combine_keys_values {A} (d : list (pystr * A)) : combine (keys d) (values d) = d.
Proof. induction d as [|[k v] d IH]; simpl; [done|]. by rewrite IH. Qed.

(** X10. [json_object_hook] on a dict, whose keys are distinct as those of a
    dict are.  It raises [ValueError] exactly when a key is not a name that
    [namedtuple] takes: an identifier that is no keyword and does not
    start with an underscore.  With such keys it raises [SyntaxError] when
    two of them are one name for the parser, which reads a name outside
    ASCII in its NFKC form (or when one is [_cls] for it), and otherwise it
    returns an object whose attributes are the items of the dict: every key
    reads its value. *)
Theorem json_object_hook_fields (rt : Runtime) (rawJson : list (pystr * pyval)) :
  NoDup (keys rawJson) ->
  if forallb (field_name rt) (keys rawJson)
  then if NamedTuple.distinct_arguments rt (keys rawJson)
       then exists o,
              json_object_hook rt rawJson = Ok o
              /\ forall name v,
                   dict_get name rawJson = Some v -> getattr_tree o name = Ok v
       else json_object_hook rt rawJson = Raise SyntaxError
  else json_object_hook rt rawJson = Raise ValueError.
Proof.
  intros Hnd. unfold json_object_hook. rewrite valid_names_field_names by done.
  destruct (forallb (field_name rt) (keys rawJson)); [|done].
  destruct (NamedTuple.distinct_arguments rt (keys rawJson)); [|done].
  eexists. split; [reflexivity|]. intros name v Hv. simpl.
  by rewrite combine_keys_values, Hv.
Qed.

(** Two fields that are read by name, and the micro sign next to the letter
    mu, which no class can have for two fields. *)
Lemma json_object_hook_fields_witness :
  (exists o,
      json_object_hook example_runtime
        [(str "transactions", PList []); (str "total", PInt 0)] = Ok o
      /\ getattr_tree o (str "total") = Ok (PInt 0)
      /\ getattr_tree o (str "transactions") = Ok (PList []))
  /\ json_object_hook micro_runtime [([0xB5], PInt 1); ([0x3BC], PInt 2)]
     = Raise SyntaxError.
Proof.
  assert (Hnd : forall a b : pystr, a <> b -> NoDup [a; b]).
  { intros a b Hab. repeat constructor; rewrite ?elem_of_cons, ?elem_of_nil; intuition. }
  split.
  - destruct (json_object_hook_fields example_runtime
                [(str "transactions", PList []); (str "total", PInt 0)]) as (o & Ho & Hget);
      [by apply Hnd|].
    exists o. split; [exact Ho|].
    split; [apply (Hget (str "total"))|apply (Hget (str "transactions"))]; reflexivity.
  - apply (json_object_hook_fields micro_runtime [([0xB5], PInt 1); ([0x3BC], PInt 2)]).
    by apply Hnd.
Defined.

(** * What the encoder writes, the decoder reads: strings *)
(* ===================================================================== *)

Lemma hex_value_hex_digit (d : N) :
  d < 16 -> Decoder.hex_value (Encoder.hex_digit d) = Some d.
Proof.
  intros Hd. unfold Encoder.hex_digit, Decoder.hex_value.
  destruct (N.ltb_spec d 10).
  - replace ((48 <=? 48 + d) && (48 + d <=? 57)) with true; [f_equal; lia|].
    symmetry. apply andb_true_iff. split; apply N.leb_le; lia.
  - replace ((48 <=? 87 + d) && (87 + d <=? 57)) with false.
    2:{ symmetry. apply andb_false_iff. right. apply N.leb_gt. lia. }
    replace ((97 <=? 87 + d) && (87 + d <=? 102)) with true; [f_equal; lia|].
    symmetry. apply andb_true_iff. split; apply N.leb_le; lia.
Qed.

Lemma hex4_hex_digits (n : N) :
  n < 65536 ->
  Decoder.hex4 (Encoder.hex_digit (n / 4096 mod 16)) (Encoder.hex_digit (n / 256 mod 16))
    (Encoder.hex_digit (n / 16 mod 16)) (Encoder.hex_digit (n mod 16)) = Some n.
Proof.
  intros Hn. unfold Decoder.hex4.
  rewrite !hex_value_hex_digit by (apply N.mod_lt; lia). f_equal. divlia.
Qed.

(** The two halves of a code point above the basic plane, and the code
    point back. *)
Lemma surrogates_join (c : N) :
  65536 <= c -> c < 0x110000 ->
  let n := c - 65536 in
  let hi := N.lor 55296 (N.land (N.shiftr n 10) 1023) in
  let lo := N.lor 56320 (N.land n 1023) in
  (55296 <= hi <= 56319) /\ (56320 <= lo <= 57343)
  /\ 0x10000 + N.lor (N.shiftl (hi - 0xD800) 10) (lo - 0xDC00) = c.
Proof.
  intros H1 H2 n hi lo.
  assert (Hn : n < 1048576) by (subst n; lia).
  assert (Hhi : hi = 55296 + n / 1024).
  { subst hi. change 1023 with (N.ones 10). rewrite N.land_ones, N.shiftr_div_pow2.
    change (2 ^ 10) with 1024. rewrite N.mod_small by divlia.
    change 55296 with (54 * 2 ^ 10). rewrite lor_high_low; [done|].
    change (2 ^ 10) with 1024. divlia. }
  assert (Hlo : lo = 56320 + n mod 1024).
  { subst lo. change 1023 with (N.ones 10). rewrite N.land_ones.
    change 56320 with (55 * 2 ^ 10). rewrite lor_high_low; [done|].
    apply N.mod_lt. done. }
  rewrite Hhi, Hlo. split; [divlia|]. split; [divlia|].
  rewrite (N.add_comm 55296), (N.add_comm 56320), !N.add_sub.
  rewrite N.shiftl_mul_pow2, lor_high_low by (apply N.mod_lt; done).
  change (2 ^ 10) with 1024. subst n. divlia.
Qed.

Lemma scanstring_u (h1 h2 h3 h4 : N) (s3 : pystr) :
  Decoder.scanstring (92 :: 117 :: h1 :: h2 :: h3 :: h4 :: s3)
  = match Decoder.hex4 h1 h2 h3 h4 with
    | None => Raise JSONDecodeError
    | Some uni =>
        if (0xD800 <=? uni) && (uni <=? 0xDBFF) then
          match s3 with
          | b :: u :: g1 :: g2 :: g3 :: g4 :: s4 =>
              if (b =? 92) && (u =? 117) then
                match Decoder.hex4 g1 g2 g3 g4 with
                | None => Raise JSONDecodeError
                | Some uni2 =>
                    if (0xDC00 <=? uni2) && (uni2 <=? 0xDFFF) then
                      Decoder.cons_char
                        (0x10000 + N.lor (N.shiftl (uni - 0xD800) 10) (uni2 - 0xDC00))
                        (Decoder.scanstring s4)
                    else Decoder.cons_char uni (Decoder.scanstring s3)
                end
              else Decoder.cons_char uni (Decoder.scanstring s3)
          | _ => Decoder.cons_char uni (Decoder.scanstring s3)
          end
        else Decoder.cons_char uni (Decoder.scanstring s3)
    end.
Proof. reflexivity. Qed.

Lemma u_escape_cons (n : N) (tail : pystr) :
  Encoder.u_escape n ++ tail
  = 92 :: 117 :: Encoder.hex_digit (n / 4096 mod 16) :: Encoder.hex_digit (n / 256 mod 16)
       :: Encoder.hex_digit (n / 16 mod 16) :: Encoder.hex_digit (n mod 16) :: tail.
Proof. reflexivity. Qed.

(** One character, escaped and read back. *)
Lemma scanstring_escape_char (c : N) (tail : pystr) :
  is_scalar c = true ->
  Decoder.scanstring (Encoder.escape_char c ++ tail)
  = Decoder.cons_char c (Decoder.scanstring tail).
Proof.
  intros Hc. unfold Encoder.escape_char.
  destruct (N.eqb_spec c 34) as [->|H34]; [done|].
  destruct (N.eqb_spec c 92) as [->|H92]; [done|].
  destruct (N.eqb_spec c 10) as [->|H10]; [done|].
  destruct (N.eqb_spec c 13) as [->|H13]; [done|].
  destruct (N.eqb_spec c 9) as [->|H9]; [done|].
  destruct (N.eqb_spec c 8) as [->|H8]; [done|].
  destruct (N.eqb_spec c 12) as [->|H12]; [done|].
  destruct ((32 <=? c) && (c <=? 126)) eqn:Eprint.
  - apply andb_true_iff in Eprint as [Hlo _]. apply N.leb_le in Hlo.
    cbn [app Decoder.scanstring].
    rewrite (proj2 (N.eqb_neq c 34) H34), (proj2 (N.eqb_neq c 92) H92).
    by rewrite (proj2 (N.ltb_ge c 32) Hlo).
  - unfold is_scalar in Hc. destruct (N.ltb_spec c 65536) as [Hbmp|Hbmp].
    + rewrite u_escape_cons, scanstring_u, hex4_hex_digits by done.
      replace ((55296 <=? c) && (c <=? 56319)) with false; [done|].
      symmetry. apply andb_false_iff.
      apply orb_true_iff in Hc as [Hc|[Hc _]%andb_true_iff].
      * left. apply N.leb_gt. by apply N.ltb_lt.
      * right. apply N.leb_gt. apply N.ltb_lt in Hc. lia.
    + assert (Hmax : c < 0x110000).
      { apply orb_true_iff in Hc as [Hc|[_ Hc]%andb_true_iff]; apply N.ltb_lt in Hc; lia. }
      destruct (surrogates_join c Hbmp Hmax) as (Hhi & Hlo & Hjoin). cbv zeta in *.
      set (hi := N.lor 55296 _) in *. set (lo := N.lor 56320 _) in *.
      rewrite <- app_assoc, u_escape_cons, scanstring_u, hex4_hex_digits by lia.
      replace ((55296 <=? hi) && (hi <=? 56319)) with true
        by (symmetry; apply andb_true_iff; split; apply N.leb_le; lia).
      rewrite u_escape_cons. cbn [N.eqb Pos.eqb andb].
      rewrite hex4_hex_digits by lia.
      replace ((56320 <=? lo) && (lo <=? 57343)) with true
        by (symmetry; apply andb_true_iff; split; apply N.leb_le; lia).
      by rewrite Hjoin.
Qed.

(** The content of a string, escaped and read back. *)
Lemma scanstring_escaped (s : pystr) (rest : pystr) :
  scalar_str s = true ->
  Decoder.scanstring (List.concat (List.map Encoder.escape_char s) ++ 34 :: rest)
  = Ok (s, rest).
Proof.
  induction s as [|c s IH]; [done|]. intros [Hc Hs]%andb_true_iff.
  cbn [List.map List.concat]. rewrite <- app_assoc, scanstring_escape_char by done.
  by rewrite IH.
Qed.

(** [encode_basestring_ascii] and [scanstring], from the opening quote. *)
Lemma encode_basestring_ascii_cons (s rest : pystr) :
  Encoder.encode_basestring_ascii s ++ rest
  = 34 :: List.concat (List.map Encoder.escape_char s) ++ 34 :: rest.
Proof.
  unfold Encoder.encode_basestring_ascii, dquote. cbn [app]. by rewrite <- app_assoc.
Qed.

(** * What the encoder writes, the decoder reads: numbers *)
(* ===================================================================== *)

(** Linear arithmetic under boolean tests. *)
Ltac blia :=
  rewrite ?orb_true_iff, ?andb_true_iff, ?orb_false_iff, ?andb_false_iff,
    ?N.eqb_eq, ?N.eqb_neq, ?N.leb_le, ?N.leb_gt, ?N.ltb_lt, ?N.ltb_ge in *; lia.

Lemma span_digits_app (s rest : pystr) :
  follow rest = true ->
  Decoder.span_digits (s ++ rest)
  = (fst (Decoder.span_digits s), snd (Decoder.span_digits s) ++ rest).
Proof.
  intros Hf. induction s as [|c s IH]; simpl.
  - destruct rest as [|c rest]; [done|]. simpl in *.
    destruct (Decoder.is_digit c) eqn:Ed; [|done].
    unfold Decoder.is_digit in Ed. blia.
  - destruct (Decoder.is_digit c); [|done].
    rewrite IH. by destruct (Decoder.span_digits s).
Qed.

Lemma match_integer_app (s rest i r : pystr) :
  Decoder.match_integer s = Some (i, r) -> follow rest = true ->
  Decoder.match_integer (s ++ rest) = Some (i, r ++ rest).
Proof.
  intros Hm Hf. unfold Decoder.match_integer in *.
  assert (Hd : forall s1 sign,
             match s1 with
             | [] => None
             | c :: s2 =>
                 if c =? 48 then Some (sign ++ [48], s2)
                 else if Decoder.is_digit c
                      then let (d, r) := Decoder.span_digits s2 in Some (sign ++ c :: d, r)
                      else None
             end = Some (i, r) ->
             match s1 ++ rest with
             | [] => None
             | c :: s2 =>
                 if c =? 48 then Some (sign ++ [48], s2)
                 else if Decoder.is_digit c
                      then let (d, r) := Decoder.span_digits s2 in Some (sign ++ c :: d, r)
                      else None
             end = Some (i, r ++ rest)).
  { intros [|c s2] sign; [done|]. simpl.
    destruct (c =? 48); [by intros [= <- <-]|].
    destruct (Decoder.is_digit c); [|done].
    rewrite span_digits_app by done.
    destruct (Decoder.span_digits s2) as [d r']. by intros [= <- <-]. }
  destruct s as [|c s']; [done|]. simpl.
  destruct (c =? 45); [by apply Hd|]. by apply (Hd (c :: s')).
Qed.

Lemma match_frac_app (s rest : pystr) :
  follow rest = true ->
  Decoder.match_frac (s ++ rest)
  = (fst (Decoder.match_frac s), snd (Decoder.match_frac s) ++ rest).
Proof.
  intros Hf. unfold Decoder.match_frac. destruct s as [|c s1]; simpl.
  - destruct rest as [|c rest]; [done|]. simpl in Hf.
    destruct (c =? 46) eqn:E; [blia|done].
  - destruct (c =? 46); [|done]. rewrite span_digits_app by done.
    destruct (Decoder.span_digits s1) as [[|d ds] r]; done.
Qed.

Lemma match_exp_app (s rest : pystr) :
  follow rest = true ->
  Decoder.match_exp (s ++ rest)
  = (fst (Decoder.match_exp s), snd (Decoder.match_exp s) ++ rest).
Proof.
  intros Hf. unfold Decoder.match_exp. destruct s as [|e s1]; simpl.
  - destruct rest as [|c rest]; [done|]. simpl in Hf.
    destruct ((c =? 101) || (c =? 69)) eqn:E; [blia|done].
  - destruct ((e =? 101) || (e =? 69)); [|done].
    destruct s1 as [|c s']; cbn [app].
    + pose proof (span_digits_app [] rest Hf) as Hs. simpl in Hs.
      destruct rest as [|c rest]; [done|]. simpl in Hf.
      destruct ((c =? 45) || (c =? 43)) eqn:E; [blia|].
      by rewrite Hs.
    + destruct ((c =? 45) || (c =? 43)).
      * rewrite span_digits_app by done.
        destruct (Decoder.span_digits s') as [[|d ds] r]; done.
      * change (c :: s' ++ rest) with ((c :: s') ++ rest).
        rewrite (span_digits_app (c :: s') rest Hf).
        destruct (Decoder.span_digits (c :: s')) as [[|d ds] r]; done.
Qed.

(** A number that is read from a text is read from the text with something
    after it that the encoder writes after a value. *)
Lemma match_number_app (rt : Runtime) (s rest : pystr) (v : pyval) (r : pystr) :
  Decoder.match_number rt s = Some (v, r) -> follow rest = true ->
  Decoder.match_number rt (s ++ rest) = Some (v, r ++ rest).
Proof.
  intros Hm Hf. unfold Decoder.match_number in *.
  destruct (Decoder.match_integer s) as [[i s1]|] eqn:Ei; [|done].
  rewrite (match_integer_app _ _ _ _ Ei Hf), match_frac_app by done.
  destruct (Decoder.match_frac s1) as [frac s2]. cbn [fst snd].
  rewrite match_exp_app by done.
  destruct (Decoder.match_exp s2) as [exp s3]. cbn [fst snd].
  destruct frac, exp; by injection Hm as <- <-.
Qed.

Lemma str_String (a : ascii) (s : string) : str (String a s) = N_of_ascii a :: str s.
Proof. reflexivity. Qed.

Lemma string_of_uint_digits (d : Decimal.uint) :
  forallb Decoder.is_digit (str (DecimalString.NilEmpty.string_of_uint d)) = true.
Proof. induction d; simpl DecimalString.NilEmpty.string_of_uint; rewrite ?str_String; done. Qed.

Lemma span_digits_all (ds : pystr) :
  forallb Decoder.is_digit ds = true -> Decoder.span_digits ds = (ds, []).
Proof.
  induction ds as [|c ds IH]; [done|]. simpl. intros [-> H]%andb_true_iff.
  by rewrite IH.
Qed.

(** [int] of the digits of a decimal numeral, most significant first. *)
Lemma int_of_string_of_uint (d : Decimal.uint) (acc : Z) :
  fold_left (fun acc c => (acc * 10 + Z.of_N (c - 48))%Z)
    (str (DecimalString.NilEmpty.string_of_uint d)) acc
  = (acc * 10 ^ Z.of_N (DecimalPos.Unsigned.usize d)
     + Z.of_N (DecimalPos.Unsigned.of_lu (Decimal.rev d)))%Z.
Proof.
  revert acc.
  induction d; intros acc;
    simpl DecimalString.NilEmpty.string_of_uint; rewrite ?str_String;
    cbn [fold_left DecimalPos.Unsigned.usize];
    [simpl; lia|..];
    unfold Decimal.rev; cbn [Decimal.revapp];
    rewrite IHd, DecimalPos.Unsigned.of_lu_revapp, N2Z.inj_succ, Z.pow_succ_r by lia;
    rewrite N2Z.inj_add, N2Z.inj_mul, N2Z.inj_pow;
    cbn [DecimalPos.Unsigned.of_lu]; change (Z.of_N 10) with 10%Z;
    generalize (10 ^ Z.of_N (DecimalPos.Unsigned.usize d))%Z;
    generalize (Z.of_N (DecimalPos.Unsigned.of_lu (Decimal.rev d)));
    intros L P; simpl (Z.of_N (N_of_ascii _ - 48)); simpl (Z.of_N (_ + 10 * 0));
    simpl (Z.of_N (10 * 0)); ring.
Qed.

(** The numeral of a positive number starts with a digit that is not zero. *)
Lemma to_uint_head (p : positive) :
  match Pos.to_uint p with
  | Decimal.Nil | Decimal.D0 _ => False
  | _ => True
  end.
Proof.
  pose proof (DecimalPos.Unsigned.to_of (Pos.to_uint p)) as H.
  rewrite DecimalPos.Unsigned.of_to in H. change (N.to_uint (N.pos p)) with (Pos.to_uint p) in H.
  pose proof (DecimalPos.Unsigned.to_uint_nonzero p) as Hz.
  pose proof (DecimalPos.Unsigned.to_uint_nonnil p) as Hn.
  destruct (Pos.to_uint p) as [|u| | | | | | | | |]; try done.
  unfold Decimal.unorm in H.
  pose proof (DecimalFacts.nzhead_nonzero (Decimal.D0 u)) as Hh.
  destruct (Decimal.nzhead (Decimal.D0 u)); try discriminate.
  - by injection H as ->.
  - by destruct (Hh u0).
Qed.

Lemma int_of_digits_to_uint (p : positive) :
  Decoder.int_of_digits (str (DecimalString.NilEmpty.string_of_uint (Pos.to_uint p)))
  = Z.pos p.
Proof.
  unfold Decoder.int_of_digits. rewrite int_of_string_of_uint.
  by rewrite <- DecimalPos.Unsigned.of_uint_alt, DecimalPos.Unsigned.of_to.
Qed.

(** The digits of a positive number, as [match_integer] takes them. *)
Lemma string_of_uint_to_uint (p : positive) :
  exists c ds,
    str (DecimalString.NilZero.string_of_uint (Pos.to_uint p)) = c :: ds
    /\ (c =? 45) = false /\ (c =? 48) = false /\ Decoder.is_digit c = true
    /\ Decoder.span_digits ds = (ds, [])
    /\ Decoder.int_of_digits (c :: ds) = Z.pos p.
Proof.
  pose proof (to_uint_head p) as Hh. pose proof (int_of_digits_to_uint p) as Hv.
  destruct (Pos.to_uint p) as [|u|u|u|u|u|u|u|u|u|u]; try done;
    cbn [DecimalString.NilZero.string_of_uint DecimalString.NilEmpty.string_of_uint] in *;
    rewrite str_String in *;
    (eexists _, _; split; [reflexivity|]; repeat (split; [reflexivity|]);
     split; [apply span_digits_all, string_of_uint_digits|exact Hv]).
Qed.

(** An integer, written and read back. *)
Lemma match_number_intstr (rt : Runtime) (z : Z) :
  Decoder.match_number rt (Encoder.intstr z) = Some (PInt z, []).
Proof.
  unfold Encoder.intstr. destruct z as [|p|p]; [reflexivity|..];
    cbn [Z.to_int DecimalString.NilZero.string_of_int];
    destruct (string_of_uint_to_uint p) as (c & ds & E & H45 & H48 & Hd & Hs & Hv);
    rewrite ?str_String, E;
    unfold Decoder.match_number, Decoder.match_integer.
  - rewrite H45, H48, Hd, Hs. cbn [app Decoder.match_frac Decoder.match_exp].
    by rewrite H45, Hv.
  - change (N_of_ascii "-" =? 45) with true. cbn iota.
    rewrite H48, Hd, Hs. cbn [app Decoder.match_frac Decoder.match_exp].
    change (45 =? 45) with true. cbn iota. by rewrite Hv.
Qed.

(** * What the encoder writes, the decoder reads: values *)
(* ===================================================================== *)

Lemma skip_ws_spaces (n : nat) (s : pystr) :
  Decoder.skip_ws (spaces n ++ s) = Decoder.skip_ws s.
Proof. induction n as [|n IH]; [done|]. exact IH. Qed.

Lemma skip_ws_newline_indent (lvl : nat) (s : pystr) :
  Decoder.skip_ws (Encoder.newline_indent lvl ++ s) = Decoder.skip_ws s.
Proof. unfold Encoder.newline_indent. simpl. apply skip_ws_spaces. Qed.

Lemma follow_newline_indent (lvl : nat) (s : pystr) :
  follow (Encoder.newline_indent lvl ++ s) = true.
Proof. reflexivity. Qed.

Section ReadBackHead.
Variable rt : Runtime.
Variable object_hook : option (list (pystr * pyval) -> result pyval).
Variable object_pairs_hook : option (list (pystr * pyval) -> result pyval).

Abbreviation scan_once := (Decoder.scan_once rt object_hook object_pairs_hook).

(** A value starts with a character that is neither whitespace, nor a
    closing bracket, nor a byte order mark. *)
Lemma scan_once_head (fuel : nat) (s : pystr) (v : pyval) (r : pystr) :
  scan_once fuel s = Ok (v, r) ->
  exists c s1, s = c :: s1 /\ Decoder.is_ws c = false /\ (c =? 93) = false
               /\ (c =? 0xFEFF) = false.
Proof.
  destruct fuel as [|fuel]; [done|]. destruct s as [|c s1]; [done|].
  intros Hs. exists c, s1. split; [done|].
  destruct (Decoder.is_ws c || (c =? 93) || (c =? 0xFEFF)) eqn:E.
  - exfalso. unfold Decoder.is_ws in E.
    assert (Hc : c = 32 \/ c = 9 \/ c = 10 \/ c = 13 \/ c = 93 \/ c = 0xFEFF) by blia.
    destruct Hc as [-> | [-> | [-> | [-> | [-> | ->]]]]]; by cbn in Hs.
  - apply orb_false_iff in E as [E ?]. apply orb_false_iff in E as [? ?]. done.
Qed.

Lemma scan_once_skip_ws (fuel : nat) (s : pystr) (v : pyval) (r : pystr) :
  scan_once fuel s = Ok (v, r) -> Decoder.skip_ws s = s.
Proof.
  intros (c & s1 & -> & Hc & _)%scan_once_head. simpl. by rewrite Hc.
Qed.

(** A number at the head of the text is the value there. *)
Lemma scan_once_number (fuel : nat) (s : pystr) (v : pyval) (r : pystr) :
  Decoder.match_number rt s = Some (v, r) -> scan_once (S fuel) s = Ok (v, r).
Proof.
  intros Hm.
  assert (Hc : exists c s1, s = c :: s1 /\ (c = 45 \/ 48 <= c <= 57)).
  { unfold Decoder.match_number, Decoder.match_integer in Hm.
    destruct s as [|c s1]; [done|]. exists c, s1. split; [done|].
    destruct (c =? 45) eqn:E; [left; blia|]. right.
    destruct (c =? 48) eqn:E'; [blia|].
    destruct (Decoder.is_digit c) eqn:Ed; [|done]. unfold Decoder.is_digit in Ed. blia. }
  destruct Hc as (c & s1 & -> & Hc). cbn [Decoder.scan_once].
  assert ((c =? 34) = false) as -> by blia.
  assert ((c =? 123) = false) as -> by blia.
  assert ((c =? 91) = false) as -> by blia.
  cbn [str list_ascii_of_string List.map Decoder.strip_prefix].
  change (N_of_ascii "n") with 110. change (N_of_ascii "t") with 116.
  change (N_of_ascii "f") with 102.
  assert ((110 =? c) = false) as -> by blia.
  assert ((116 =? c) = false) as -> by blia.
  assert ((102 =? c) = false) as -> by blia.
  by rewrite Hm.
Qed.

End ReadBackHead.

Lemma join_length (sep : pystr) (chunks : list pystr) :
  sep <> [] -> (length chunks <= S (length (Encoder.join sep chunks)))%nat.
Proof.
  intros Hsep. induction chunks as [|c [|c2 cs] IH]; [simpl; lia..|].
  change (Encoder.join sep (c :: c2 :: cs)) with (c ++ sep ++ Encoder.join sep (c2 :: cs)).
  rewrite !length_app. destruct sep; [done|]. simpl in *. lia.
Qed.

(** In a sequence that [join] makes, a chunk is followed by the separator
    or by what comes after the sequence. *)
Lemma join_head_follow (sep : pystr) (c : pystr) (cs : list pystr) (tail : pystr) :
  follow (sep ++ tail) = true -> follow tail = true ->
  (forall x, follow (sep ++ x) = follow (sep ++ tail)) ->
  exists rest, Encoder.join sep (c :: cs) ++ tail = c ++ rest /\ follow rest = true.
Proof.
  intros Hs Ht Hx. destruct cs as [|c2 cs].
  - by exists tail.
  - exists (sep ++ Encoder.join sep (c2 :: cs) ++ tail). split.
    + change (Encoder.join sep (c :: c2 :: cs))
        with (c ++ sep ++ Encoder.join sep (c2 :: cs)).
      by rewrite <- !app_assoc.
    + by rewrite Hx.
Qed.

Lemma skip_ws_cons_false (c : N) (s : pystr) :
  Decoder.is_ws c = false -> Decoder.skip_ws (c :: s) = c :: s.
Proof. intros H. simpl. by rewrite H. Qed.

Lemma skip_ws_cons_true (c : N) (s : pystr) :
  Decoder.is_ws c = true -> Decoder.skip_ws (c :: s) = Decoder.skip_ws s.
Proof. intros H. simpl. by rewrite H. Qed.

Lemma key_separator_app (x : pystr) : Encoder.key_separator ++ x = 58 :: 32 :: x.
Proof. reflexivity. Qed.

Lemma item_separator_app (x : pystr) : Encoder.item_separator ++ x = 44 :: x.
Proof. reflexivity. Qed.

Section ReadBackContainers.
(** A scanner that reads back the elements. *)
Variable scan : pystr -> result (pyval * pystr).
Hypothesis scan_skip_ws : forall s v r, scan s = Ok (v, r) -> Decoder.skip_ws s = s.
Variable lvl : nat.

Abbreviation sep := (Encoder.item_separator ++ Encoder.newline_indent (S lvl)).
Abbreviation reads x :=
  (forall rest, follow rest = true ->
                scan (Encoder.iterencode (S lvl) x ++ rest) = Ok (loaded x, rest)).

Lemma array_items_join (l : list pyval) (n : nat) (acc : list pyval) (rest : pystr) :
  l <> [] -> (length l <= n)%nat -> Forall (fun x => reads x) l ->
  Decoder.array_items scan n
    (Encoder.join sep (List.map (Encoder.iterencode (S lvl)) l)
       ++ Encoder.newline_indent lvl ++ 93 :: rest) acc
  = Ok (rev acc ++ List.map loaded l, rest).
Proof.
  revert n acc. induction l as [|x l IH]; [done|]. intros n acc _ Hn Hall.
  destruct n as [|n]; [simpl in Hn; lia|].
  apply List.Forall_cons_iff in Hall as [Hx Hall]. destruct l as [|y l].
  - cbn [List.map Encoder.join Decoder.array_items].
    rewrite Hx by apply follow_newline_indent. rewrite skip_ws_newline_indent.
    cbn [Decoder.skip_ws]. change (Decoder.is_ws 93) with false. cbn iota.
    change (93 =? 93) with true. cbn iota. done.
  - change (List.map (Encoder.iterencode (S lvl)) (x :: y :: l))
      with (Encoder.iterencode (S lvl) x :: List.map (Encoder.iterencode (S lvl)) (y :: l)).
    set (J := List.map (Encoder.iterencode (S lvl)) (y :: l)) in *.
    change (Encoder.join sep (Encoder.iterencode (S lvl) x :: J))
      with (Encoder.iterencode (S lvl) x ++ sep ++ Encoder.join sep J).
    rewrite <- !app_assoc. cbn [Decoder.array_items].
    rewrite item_separator_app, Hx by reflexivity.
    cbn [Decoder.skip_ws]. change (Decoder.is_ws 44) with false. cbn iota.
    change (44 =? 93) with false. change (44 =? 44) with true. cbn iota.
    rewrite skip_ws_newline_indent.
    assert (Hws : Decoder.skip_ws (Encoder.join sep J ++ Encoder.newline_indent lvl ++ 93 :: rest)
                  = Encoder.join sep J ++ Encoder.newline_indent lvl ++ 93 :: rest).
    { subst J. cbn [List.map].
      destruct (join_head_follow sep (Encoder.iterencode (S lvl) y)
                  (List.map (Encoder.iterencode (S lvl)) l)
                  (Encoder.newline_indent lvl ++ 93 :: rest)) as (r' & -> & Hr'); [done..|].
      apply List.Forall_inv in Hall. eapply scan_skip_ws. by apply Hall. }
    rewrite Hws, IH; [|done|simpl in Hn |- *; lia|done].
    cbn [rev List.map]. by rewrite <- !app_assoc.
Qed.

Abbreviation chunk kv :=
  (Encoder.encode_basestring_ascii (fst kv) ++ Encoder.key_separator
     ++ Encoder.iterencode (S lvl) (snd kv)).

Lemma object_pairs_join (d : list (pystr * pyval)) (n : nat)
    (acc : list (pystr * pyval)) (rest s : pystr) :
  d <> [] -> (length d <= n)%nat ->
  Forall (fun kv => scalar_str (fst kv) = true /\ reads (snd kv)) d ->
  Encoder.join sep (List.map (fun kv => chunk kv) d)
    ++ Encoder.newline_indent lvl ++ 125 :: rest = 34 :: s ->
  Decoder.object_pairs scan n s acc
  = Ok (rev acc ++ List.map (fun kv => (fst kv, loaded (snd kv))) d, rest).
Proof.
  revert n acc s. induction d as [|[k x] d IH]; [done|]. intros n acc s _ Hn Hall.
  destruct n as [|n]; [simpl in Hn; lia|].
  apply List.Forall_cons_iff in Hall as [[Hk Hx] Hall]. cbn [fst snd] in Hk, Hx.
  destruct d as [|kv d].
  - cbn [List.map Encoder.join fst snd]. rewrite <- !app_assoc.
    rewrite encode_basestring_ascii_cons, key_separator_app, ?item_separator_app.
    intros E. apply (f_equal (@List.tl N)) in E. unfold List.tl in E. subst s.
    cbn [Decoder.object_pairs]. rewrite scanstring_escaped by done.
    rewrite (skip_ws_cons_false 58) by done. cbn iota.
    change (58 =? 58) with true. cbn iota.
    rewrite (skip_ws_cons_true 32) by done.
    rewrite (scan_skip_ws _ _ _ (Hx _ (follow_newline_indent lvl _))).
    rewrite Hx by apply follow_newline_indent. rewrite skip_ws_newline_indent.
    rewrite (skip_ws_cons_false 125) by done. cbn iota.
    change (125 =? 125) with true. cbn iota. done.
  - change (List.map (fun kv => chunk kv) ((k, x) :: kv :: d))
      with (chunk (k, x) :: List.map (fun kv => chunk kv) (kv :: d)).
    set (J := List.map (fun kv => chunk kv) (kv :: d)) in *.
    change (Encoder.join sep (chunk (k, x) :: J))
      with (chunk (k, x) ++ sep ++ Encoder.join sep J).
    cbn [fst snd]. rewrite <- !app_assoc.
    rewrite encode_basestring_ascii_cons, key_separator_app, ?item_separator_app.
    intros E. apply (f_equal (@List.tl N)) in E. unfold List.tl in E. subst s.
    cbn [Decoder.object_pairs]. rewrite scanstring_escaped by done.
    rewrite (skip_ws_cons_false 58) by done. cbn iota.
    change (58 =? 58) with true. cbn iota.
    rewrite (skip_ws_cons_true 32) by done.
    rewrite (scan_skip_ws _ _ _ (Hx (44 :: _) eq_refl)).
    rewrite Hx by reflexivity.
    rewrite (skip_ws_cons_false 44) by done. cbn iota.
    change (44 =? 125) with false. change (44 =? 44) with true. cbn iota.
    rewrite skip_ws_newline_indent.
    assert (Hq : exists s5, Encoder.join sep J ++ Encoder.newline_indent lvl ++ 125 :: rest
                            = 34 :: s5).
    { subst J. cbn [List.map]. destruct (List.map _ d); eexists; reflexivity. }
    destruct Hq as (s5 & Hq).
    change (Encoder.join (44 :: Encoder.newline_indent (S lvl)) J)
      with (Encoder.join sep J).
    rewrite Hq.
    rewrite (skip_ws_cons_false 34) by done. cbn iota.
    change (34 =? 34) with true. cbn iota.
    rewrite (IH n _ s5); [|done|simpl in Hn |- *; lia|done|exact Hq].
    cbn [rev List.map fst snd]. by rewrite <- !app_assoc.
Qed.

End ReadBackContainers.

Section ReadBackMembers.
Variable rt : Runtime.

Abbreviation scan_members := (Decoder.scan_once rt None (Some Decoder.members_hook)).

Lemma scan_members_list (lvl fuel : nat) (l : list pyval) (rest : pystr) :
  Forall (fun x => forall rest, follow rest = true ->
                     scan_members fuel (Encoder.iterencode (S lvl) x ++ rest)
                     = Ok (loaded x, rest)) l ->
  scan_members (S fuel)
    (Encoder.iterencode_list lvl (List.map (Encoder.iterencode (S lvl)) l) ++ rest)
  = Ok (PList (List.map loaded l), rest).
Proof.
  intros Hall. destruct l as [|x l]; [reflexivity|].
  set (xs := x :: l) in *. unfold Encoder.iterencode_list.
  change (List.map (Encoder.iterencode (S lvl)) xs)
    with (Encoder.iterencode (S lvl) x :: List.map (Encoder.iterencode (S lvl)) l) at 1.
  cbv iota. rewrite <- !app_assoc.
  change (str "[" ++ ?s) with (91 :: s). change (str "]" ++ ?s) with (93 :: s).
  cbn [Decoder.scan_once]. change (91 =? 34) with false. change (91 =? 123) with false.
  change (91 =? 91) with true. cbv iota.
  unfold Decoder.parse_array. rewrite skip_ws_newline_indent.
  pose proof (array_items_join (scan_members fuel) (scan_once_skip_ws rt _ _ fuel)
                lvl xs) as Ha.
  assert (Hj : exists r', Encoder.join (Encoder.item_separator ++ Encoder.newline_indent (S lvl))
                            (List.map (Encoder.iterencode (S lvl)) xs)
                            ++ Encoder.newline_indent lvl ++ 93 :: rest
                          = Encoder.iterencode (S lvl) x ++ r' /\ follow r' = true).
  { by apply join_head_follow. }
  destruct Hj as (r' & Hj & Hr').
  pose proof (List.Forall_inv Hall r' Hr') as Hx. rewrite <- Hj in Hx.
  rewrite (scan_once_skip_ws _ _ _ _ _ _ _ Hx).
  destruct (scan_once_head _ _ _ _ _ _ _ Hx) as (c & s1 & Hc & _ & H93 & _).
  rewrite Hc at 1. rewrite H93.
  rewrite Ha; [done|done| |done].
  rewrite !length_app.
  pose proof (join_length (Encoder.item_separator ++ Encoder.newline_indent (S lvl))
                (List.map (Encoder.iterencode (S lvl)) xs) ltac:(done)) as Hl.
  rewrite length_map in Hl. lia.
Qed.

Lemma scan_members_dict (lvl fuel : nat) (d : list (pystr * pyval)) (rest : pystr) :
  Forall (fun kv => scalar_str (fst kv) = true
                    /\ forall rest, follow rest = true ->
                         scan_members fuel (Encoder.iterencode (S lvl) (snd kv) ++ rest)
                         = Ok (loaded (snd kv), rest)) d ->
  scan_members (S fuel)
    (Encoder.iterencode_dict lvl
       (List.map (fun kv => (fst kv, Encoder.iterencode (S lvl) (snd kv))) d) ++ rest)
  = Ok (PDict (sorted_items (List.map (fun kv => (fst kv, loaded (snd kv))) d)), rest).
Proof.
  intros Hall. destruct d as [|kv d]; [reflexivity|].
  set (xs := kv :: d) in *. unfold Encoder.iterencode_dict.
  change (List.map (fun kv => (fst kv, Encoder.iterencode (S lvl) (snd kv))) xs)
    with ((fst kv, Encoder.iterencode (S lvl) (snd kv))
            :: List.map (fun kv => (fst kv, Encoder.iterencode (S lvl) (snd kv))) d) at 1.
  cbv iota. rewrite !iterencode_dict_items, List.map_map. cbn [fst snd].
  assert (Hp : Permutation (sorted_items xs) xs) by apply sorted_items_perm.
  assert (Hds : sorted_items xs <> []).
  { intros E. rewrite E in Hp. by apply Permutation_nil in Hp. }
  assert (Hall' : Forall (fun kv => scalar_str (fst kv) = true
                    /\ forall rest, follow rest = true ->
                         scan_members fuel (Encoder.iterencode (S lvl) (snd kv) ++ rest)
                         = Ok (loaded (snd kv), rest)) (sorted_items xs)).
  { rewrite List.Forall_forall in Hall |- *. intros x Hx. apply Hall.
    by apply (Permutation_in _ Hp). }
  clear Hall. revert Hds Hall'. generalize (sorted_items xs) as ds. clear Hp xs.
  intros ds Hds Hall.
  rewrite <- !app_assoc.
  change (str "{" ++ ?s) with (123 :: s). change (str "}" ++ ?s) with (125 :: s).
  cbn [Decoder.scan_once]. change (123 =? 34) with false. change (123 =? 123) with true.
  cbv iota. unfold Decoder.parse_object. rewrite skip_ws_newline_indent.
  set (chunks := List.map _ ds).
  assert (Hq : exists s5,
             Encoder.join (Encoder.item_separator ++ Encoder.newline_indent (S lvl)) chunks
               ++ Encoder.newline_indent lvl ++ 125 :: rest = 34 :: s5).
  { subst chunks. destruct ds as [|kv' [|kv'' ds]]; [done|eexists; reflexivity..]. }
  destruct Hq as (s5 & Hq). rewrite Hq.
  rewrite (skip_ws_cons_false 34) by done. cbv iota.
  change (34 =? 125) with false. change (34 =? 34) with true. cbv iota.
  rewrite (object_pairs_join (scan_members fuel) (scan_once_skip_ws rt _ _ fuel)
             lvl ds _ [] rest s5 Hds); [done| |done|exact Hq].
  rewrite !length_app.
  pose proof (join_length (Encoder.item_separator ++ Encoder.newline_indent (S lvl))
                chunks ltac:(done)) as Hl.
  subst chunks. rewrite length_map in Hl.
  apply (f_equal (@length N)) in Hq. rewrite length_app in Hq. lia.
Qed.

(** What the encoder writes for a tree, the scanner reads as the tree. *)
Lemma scan_members_iterencode (t : pyval) (lvl fuel : nat) (rest : pystr) :
  tree_forall scalar_str (float_loads rt) t = true ->
  (depth t <= fuel)%nat -> follow rest = true ->
  scan_members fuel (Encoder.iterencode lvl t ++ rest) = Ok (loaded t, rest).
Proof.
  revert lvl fuel rest.
  induction t as [|b|z|f|s|l IH|fs l IH|d IH|d IH] using pyval_ind';
    intros lvl fuel rest Ht Hd Hf;
    (destruct fuel as [|fuel]; [simpl in Hd; lia|]).
  - reflexivity.
  - by destruct b.
  - apply scan_once_number.
    apply (match_number_app rt _ rest _ [] (match_number_intstr rt z) Hf).
  - destruct f as [| | |r]; try reflexivity.
    simpl in Ht. apply scan_once_number.
    destruct (Decoder.match_number rt r) as [[[] [|? ?]]|] eqn:E; try done.
    apply bool_decide_eq_true in Ht as ->.
    apply (match_number_app rt _ rest _ [] E Hf).
  - cbn [Encoder.iterencode loaded]. rewrite encode_basestring_ascii_cons.
    cbn [Decoder.scan_once]. change (34 =? 34) with true. cbv iota.
    by rewrite scanstring_escaped.
  - apply scan_members_list. cbn [tree_forall depth] in Ht, Hd.
    rewrite forallb_forall in Ht. rewrite List.Forall_forall in IH |- *.
    intros x Hx rest' Hr'. apply (IH x Hx); [by apply Ht| |done].
    pose proof (proj1 (list_max_le (List.map depth l) fuel) ltac:(lia)) as Hm.
    rewrite List.Forall_forall in Hm. apply Hm. by apply List.in_map.
  - apply scan_members_list. cbn [tree_forall depth] in Ht, Hd.
    rewrite forallb_forall in Ht. rewrite List.Forall_forall in IH |- *.
    intros x Hx rest' Hr'. apply (IH x Hx); [by apply Ht| |done].
    pose proof (proj1 (list_max_le (List.map depth l) fuel) ltac:(lia)) as Hm.
    rewrite List.Forall_forall in Hm. apply Hm. by apply List.in_map.
  - apply scan_members_dict. cbn [tree_forall depth] in Ht, Hd.
    rewrite forallb_forall in Ht. rewrite List.Forall_forall in IH |- *.
    intros kv Hkv. destruct (andb_prop _ _ (Ht kv Hkv)) as [Hk Hv]. split; [done|].
    intros rest' Hr'. apply (IH kv Hkv); [done| |done].
    pose proof (proj1 (list_max_le (List.map (fun kv => depth (snd kv)) d) fuel)
                  ltac:(lia)) as Hm.
    rewrite List.Forall_forall in Hm. apply Hm.
    by apply (List.in_map (fun kv => depth (snd kv))).
  - apply scan_members_dict. cbn [tree_forall depth] in Ht, Hd.
    rewrite forallb_forall in Ht. rewrite List.Forall_forall in IH |- *.
    intros kv Hkv. destruct (andb_prop _ _ (Ht kv Hkv)) as [Hk Hv]. split; [done|].
    intros rest' Hr'. apply (IH kv Hkv); [done| |done].
    pose proof (proj1 (list_max_le (List.map (fun kv => depth (snd kv)) d) fuel)
                  ltac:(lia)) as Hm.
    rewrite List.Forall_forall in Hm. apply Hm.
    by apply (List.in_map (fun kv => depth (snd kv))).
Qed.

End ReadBackMembers.

Lemma join_chunk_length (sep : pystr) (chunks : list pystr) (c : pystr) :
  In c chunks -> (length c <= length (Encoder.join sep chunks))%nat.
Proof.
  induction chunks as [|c1 [|c2 cs] IH]; [done| |].
  - intros [->|[]]. done.
  - change (Encoder.join sep (c1 :: c2 :: cs))
      with (c1 ++ sep ++ Encoder.join sep (c2 :: cs)).
    rewrite !length_app. intros [->|Hc]; [lia|]. specialize (IH Hc). lia.
Qed.

Lemma iterencode_list_length (lvl : nat) (chunks : list pystr) (c : pystr) :
  In c chunks -> (S (length c) <= length (Encoder.iterencode_list lvl chunks))%nat.
Proof.
  intros Hc. unfold Encoder.iterencode_list. destruct chunks as [|c1 cs]; [done|].
  rewrite !length_app.
  pose proof (join_chunk_length (Encoder.item_separator ++ Encoder.newline_indent (S lvl))
                _ _ Hc) as H.
  change (length (str "[")) with 1%nat. lia.
Qed.

Lemma iterencode_dict_length (lvl : nat) (items : list (pystr * pystr)) (kv : pystr * pystr) :
  In kv items -> (S (length (snd kv)) <= length (Encoder.iterencode_dict lvl items))%nat.
Proof.
  intros Hkv. unfold Encoder.iterencode_dict. destruct items as [|kv1 items]; [done|].
  rewrite !length_app.
  assert (Hc : In (Encoder.encode_basestring_ascii (fst kv) ++ Encoder.key_separator ++ snd kv)
                 (List.map (fun kv => Encoder.encode_basestring_ascii (fst kv)
                                        ++ Encoder.key_separator ++ snd kv)
                    (sorted_items (kv1 :: items)))).
  { apply (List.in_map (fun kv => Encoder.encode_basestring_ascii (fst kv)
                                    ++ Encoder.key_separator ++ snd kv)).
    apply (Permutation_in _ (Permutation_sym (sorted_items_perm (kv1 :: items))) Hkv). }
  apply (join_chunk_length (Encoder.item_separator ++ Encoder.newline_indent (S lvl))) in Hc.
  rewrite !length_app in Hc. change (length (str "{")) with 1%nat. lia.
Qed.

(** The text of a tree is longer than the tree is deep. *)
Lemma depth_length (t : pyval) (lvl : nat) :
  (depth t <= S (length (Encoder.iterencode lvl t)))%nat.
Proof.
  revert lvl.
  induction t as [|b|z|f|s|l IH|fs l IH|d IH|d IH] using pyval_ind'; intros lvl;
    cbn [depth Encoder.iterencode]; try lia.
  - apply le_n_S, list_max_le, List.Forall_forall. intros n Hn.
    apply List.in_map_iff in Hn as (x & <- & Hx).
    rewrite List.Forall_forall in IH. specialize (IH x Hx (S lvl)).
    pose proof (iterencode_list_length lvl _ _
                  (List.in_map (Encoder.iterencode (S lvl)) _ _ Hx)). lia.
  - apply le_n_S, list_max_le, List.Forall_forall. intros n Hn.
    apply List.in_map_iff in Hn as (x & <- & Hx).
    rewrite List.Forall_forall in IH. specialize (IH x Hx (S lvl)).
    pose proof (iterencode_list_length lvl _ _
                  (List.in_map (Encoder.iterencode (S lvl)) _ _ Hx)). lia.
  - apply le_n_S, list_max_le, List.Forall_forall. intros n Hn.
    apply List.in_map_iff in Hn as (kv & <- & Hkv).
    rewrite List.Forall_forall in IH. specialize (IH kv Hkv (S lvl)).
    pose proof (iterencode_dict_length lvl _ _
                  (List.in_map (fun kv => (fst kv, Encoder.iterencode (S lvl) (snd kv)))
                     _ _ Hkv)) as H.
    cbn [snd] in H. lia.
  - apply le_n_S, list_max_le, List.Forall_forall. intros n Hn.
    apply List.in_map_iff in Hn as (kv & <- & Hkv).
    rewrite List.Forall_forall in IH. specialize (IH kv Hkv (S lvl)).
    pose proof (iterencode_dict_length lvl _ _
                  (List.in_map (fun kv => (fst kv, Encoder.iterencode (S lvl) (snd kv)))
                     _ _ Hkv)) as H.
    cbn [snd] in H. lia.
Qed.

(** [json.loads] with a hook that keeps the members reads the text of a
    tree as the tree. *)
Lemma loads_members_to_json (rt : Runtime) (t : pyval) :
  tree_forall scalar_str (float_loads rt) t = true ->
  Decoder.loads rt None (Some Decoder.members_hook) (to_json t) = Ok (loaded t).
Proof.
  intros Ht. unfold to_json, Encoder.dumps.
  pose proof (scan_members_iterencode rt t 0 (S (length (Encoder.iterencode 0 t))) []
                Ht (depth_length t 0) eq_refl) as Hs.
  rewrite app_nil_r in Hs. unfold Decoder.loads.
  destruct (scan_once_head _ _ _ _ _ _ _ Hs) as (c & s1 & Hc & Hws & _ & Hbom).
  rewrite Hc at 1. rewrite Hbom.
  by rewrite (scan_once_skip_ws _ _ _ _ _ _ _ Hs), Hs.
Qed.

(** * What the client writes, the client reads *)
(* ===================================================================== *)

(** X11. [json_to_object] reads what [Serializer.to_json] writes.  For a
    tree whose strings and keys hold no surrogate, whose floats are read
    back from their [repr], and whose keys are names [namedtuple] takes
    (identifiers that are no keywords and do not start with an underscore,
    no two of an object with the same NFKC form), the text of the tree
    decodes to the tree itself, every object and dict a namedtuple with its
    fields in the order of the keys. *)
Theorem json_to_object_to_json (rt : Runtime) (t : pyval) :
  tree_forall scalar_str (float_loads rt) t = true ->
  names_valid rt (loaded t) = true ->
  json_to_object rt (VStr (to_json t)) = Ok (as_namedtuples (loaded t)).
Proof.
  intros Ht Hn. unfold json_to_object.
  by apply loads_complete; [apply loads_members_to_json|].
Qed.

Lemma json_to_object_to_json_witness :
  json_to_object example_runtime
    (VStr (to_json (PObj [(str "name", PStr [233; 128512; 34]);
                          (str "driverId", PInt (-223));
                          (str "rate", PFloat (FFinite (str "1.5e-07")));
                          (str "sorters", PList [PObj [(str "field", PStr (str "id"));
                                                       (str "DESC", PBool true)]])])))
  = Ok (PTuple [str "driverId"; str "name"; str "rate"; str "sorters"]
          [PInt (-223); PStr [233; 128512; 34]; PFloat (FFinite (str "1.5e-07"));
           PList [PTuple [str "DESC"; str "field"] [PBool true; PStr (str "id")]]]).
Proof. apply (json_to_object_to_json example_runtime); reflexivity. Defined.

Lemma dict_get_sorted_items {A B} (f : A -> B) (d : list (pystr * A)) (name : pystr) :
  NoDup (keys d) ->
  dict_get name (sorted_items (List.map (fun kv => (fst kv, f (snd kv))) d))
  = f <$> dict_get name d.
Proof.
  intros Hnd. rewrite <- (dict_get_on_values f).
  apply dict_get_perm; [|apply sorted_items_perm].
  unfold keys. rewrite sorted_items_perm.
  change (NoDup (keys (List.map (fun kv => (fst kv, f (snd kv))) d))).
  by rewrite keys_map_values.
Qed.

(** X12. An object that went through [to_json] and [json_to_object] has its
    attributes back: when the keys of every object are names that
    [namedtuple] takes and the parser tells apart, each reads the value it
    had, itself read back. *)
Theorem json_to_object_to_json_getattr (rt : Runtime) (d : list (pystr * pyval)) :
  NoDup (keys d) ->
  tree_forall scalar_str (float_loads rt) (PObj d) = true ->
  names_valid rt (loaded (PObj d)) = true ->
  exists o,
    json_to_object rt (VStr (to_json (PObj d))) = Ok o
    /\ forall name v, dict_get name d = Some v ->
                      getattr_tree o name = Ok (as_namedtuples (loaded v)).
Proof.
  intros Hnd Ht Hn. eexists. split.
  - unfold json_to_object. by apply loads_complete; [apply loads_members_to_json|].
  - intros name v Hv. cbn [loaded]. rewrite getattr_tree_as_namedtuples.
    by rewrite dict_get_sorted_items, Hv.
Qed.

Lemma json_to_object_to_json_getattr_witness :
  exists o,
    json_to_object example_runtime
      (VStr (to_json (PObj [(str "page", PInt 1); (str "itemsPerPage", PInt 20)]))) = Ok o
    /\ getattr_tree o (str "page") = Ok (PInt 1).
Proof.
  destruct (json_to_object_to_json_getattr example_runtime
              [(str "page", PInt 1); (str "itemsPerPage", PInt 20)])
    as (o & Ho & Hget); [|reflexivity|reflexivity|].
  - unfold keys. simpl. repeat constructor; rewrite ?elem_of_cons, ?elem_of_nil;
      intros H; intuition discriminate.
  - exists o. split; [exact Ho|]. by apply (Hget (str "page") (PInt 1)).
Defined.

(** X15. The text tells the tree.  Two trees whose strings and keys hold no
    surrogate and whose floats are read back from their [repr] have the
    same text only if they are the same tree, up to what the text does not
    show: the order of the items of a dict, whether a sequence is a list or
    a tuple, and whether a mapping is a dict or an instance. *)
Theorem to_json_injective (rt : Runtime) (t1 t2 : pyval) :
  tree_forall scalar_str (float_loads rt) t1 = true ->
  tree_forall scalar_str (float_loads rt) t2 = true ->
  to_json t1 = to_json t2 -> loaded t1 = loaded t2.
Proof.
  intros H1%loads_members_to_json H2%loads_members_to_json E.
  rewrite E, H2 in H1. by injection H1.
Qed.

Lemma to_json_injective_witness :
  loaded (PObj [(str "page", PInt 1); (str "ids", PTuple [] [PInt 7; PInt 8])])
  = loaded (PDict [(str "ids", PList [PInt 7; PInt 8]); (str "page", PInt 1)]).
Proof. apply (to_json_injective example_runtime); reflexivity. Defined.

(** * The tests, and what importing the module does *)
(* ===================================================================== *)

Lemma appends_bind {A B} (m : M A) (k : A -> M B) :
  appends m -> (forall a, appends (k a)) -> appends (bind m k).
Proof.
  intros Hm Hk w. unfold bind. destruct (Hm w) as (r & Hr).
  destruct (m w) as [[a|e] w1]; cbn [snd] in *.
  - destruct (Hk a w1) as (r' & Hr'). exists (r ++ r'). by rewrite Hr', Hr, app_assoc.
  - by exists r.
Qed.

Lemma appends_same {A} (m : M A) :
  (forall w, trace (snd (m w)) = trace w) -> appends m.
Proof. intros H w. exists []. by rewrite app_nil_r. Qed.

Lemma appends_ret {A} (a : A) : appends (ret a).
Proof. by apply appends_same. Qed.

Lemma appends_raise {A} (e : exn) : appends (@raise A e).
Proof. by apply appends_same. Qed.

Lemma appends_lift {A} (r : result A) : appends (lift r).
Proof. by apply appends_same. Qed.

Lemma appends_print (line : pystr) : appends (print line).
Proof.
  intros w. unfold print. destruct (has_surrogate line); [|by eexists].
  exists []. by rewrite app_nil_r.
Qed.

Lemma appends_getattr (o : value) (name : pystr) : appends (getattr o name).
Proof.
  apply appends_same. intros w. unfold getattr.
  destruct o; try done. destruct (heap w !! l) as [[c d|]|]; try done.
  by destruct (dict_get name d).
Qed.

Lemma appends_setattr (o : value) (name : pystr) (v : value) : appends (setattr o name v).
Proof.
  apply appends_same. intros w. unfold setattr.
  destruct o; try done. by destruct (heap w !! l) as [[c d|]|].
Qed.

Lemma appends_list_append (o x : value) : appends (list_append o x).
Proof.
  apply appends_same. intros w. unfold list_append.
  destruct o; try done. by destruct (heap w !! l) as [[c d|]|].
Qed.

Lemma appends_alloc (c : cell) : appends (alloc c).
Proof. by apply appends_same. Qed.

Lemma appends_new (cls : pystr) (init : value -> M unit) :
  (forall self, appends (init self)) -> appends (new cls init).
Proof.
  intros H. unfold new. apply appends_bind; [apply appends_alloc|]. intros self.
  apply appends_bind; [apply H|]. intros _. apply appends_ret.
Qed.

Lemma appends_for_each {A} (xs : list A) (body : A -> M unit) :
  (forall x, appends (body x)) -> appends (for_each xs body).
Proof.
  intros H. induction xs as [|x xs IH]; [apply appends_ret|].
  apply appends_bind; [apply H|]. by intros _.
Qed.

Create HintDb appends.
#[global] Hint Resolve appends_ret appends_raise appends_lift appends_print appends_getattr
  appends_setattr appends_list_append appends_alloc appends_for_each : appends.

Ltac appends_steps :=
  repeat first
    [ progress eauto with appends
    | apply appends_bind
    | apply appends_new
    | match goal with |- appends (if ?b then _ else _) => destruct b end
    | match goal with |- forall _, appends _ => intro end ].

Lemma appends_call_to_json (o : value) : appends (call_to_json o).
Proof.
  apply appends_same. intros w. unfold call_to_json, Serializer.to_json.
  destruct o; try done. destruct (heap w !! l) as [[c d|]|]; try done.
  destruct (dict_get _ d); [done|]. destruct (bool_decide _); [|done].
  by destruct (tree_of w (VRef l)).
Qed.

Lemma appends_str_add (a : pystr) (v : value) : appends (str_add a v).
Proof. destruct v; apply appends_same; done. Qed.

Lemma appends_as_str (v : value) : appends (as_str v).
Proof. destruct v; apply appends_same; done. Qed.

Lemma appends_requests_post_text (url body : pystr) (headers : list (pystr * pystr)) :
  appends (requests_post_text url body headers).
Proof. intros w. by eexists. Qed.

Lemma appends_str_uuid4 : appends str_uuid4.
Proof. by apply appends_same. Qed.

Lemma appends_datetime_now_isoformat : appends datetime_now_isoformat.
Proof. by apply appends_same. Qed.

#[global] Hint Resolve appends_call_to_json appends_str_add appends_as_str
  appends_requests_post_text appends_str_uuid4 appends_datetime_now_isoformat : appends.

Lemma appends_post_http_request (httpUrl httpBody hmac : value) :
  appends (post_http_request httpUrl httpBody hmac).
Proof. unfold post_http_request. appends_steps. Qed.

Lemma appends_fetch (a : ActionType) (clientConfig reportRequest : value) :
  appends (fetch a clientConfig reportRequest).
Proof.
  unfold fetch, GatewayRequest.new, GatewayRequest.__init__, process_gateway_request.
  appends_steps; try apply appends_post_http_request; by apply appends_same.
Qed.

#[global] Hint Resolve appends_post_http_request appends_fetch : appends.

Lemma appends_test_fetch_driver_trip_summary (builtin_str : pyval -> pystr)
    (clientConfig : value) :
  appends (test_fetch_driver_trip_summary builtin_str clientConfig).
Proof.
  unfold test_fetch_driver_trip_summary, DriverTripSummaryReportRequest.new,
    DriverTripSummaryReportRequest.__init__, DriverTripTransactionReportRequest.__init__,
    BaseReportRequest.__init__, fetch_driver_trip_summary.
  appends_steps.
Qed.

Lemma bind_run {A B} (m : M A) (k : A -> M B) (w w' : World) (a : A) :
  m w = (Ok a, w') -> bind m k w = k a w'.
Proof. intros H. unfold bind. by rewrite H. Qed.

Lemma Sorter_new_run (field DESC : value) (h : gmap loc cell) (e : Env) (n : nat)
    (t : list event) :
  exists l, h !! l = None /\
    Sorter.new field DESC (mkW h e n t)
    = (Ok (VRef l),
       mkW (<[l := Instance (str "Sorter") [(str "field", field); (str "DESC", DESC)]]> h)
           e n t).
Proof.
  unfold Sorter.new.
  destruct (new_run (str "Sorter") (fun self => Sorter.__init__ self field DESC) h e n t)
    as (l & Hl & ->).
  exists l. split; [done|]. unfold Sorter.__init__.
  step_setattr. rewrite bind_setattr_self. reflexivity.
Qed.

Lemma ClientConfig_new_run (serviceEndpoint hmacSecret authToken csrfToken : value)
    (h : gmap loc cell) (e : Env) (n : nat) (t : list event) :
  exists l, h !! l = None /\
    ClientConfig.new serviceEndpoint hmacSecret authToken csrfToken (mkW h e n t)
    = (Ok (VRef l),
       mkW (<[l := Instance (str "ClientConfig")
                     [(str "serviceEndpoint", serviceEndpoint);
                      (str "hmacSecret", hmacSecret);
                      (str "authToken", authToken);
                      (str "csrfToken", csrfToken)]]> h) e n t).
Proof.
  unfold ClientConfig.new.
  destruct (new_run (str "ClientConfig")
              (fun self => ClientConfig.__init__ self serviceEndpoint hmacSecret
                             authToken csrfToken) h e n t) as (l & Hl & ->).
  exists l. split; [done|]. unfold ClientConfig.__init__.
  do 3 step_setattr. rewrite bind_setattr_self. reflexivity.
Qed.

Lemma size_two (h : gmap loc cell) (a b : loc) (x y : cell) :
  h !! a = Some x -> h !! b = Some y -> a <> b -> (2 <= size h)%nat.
Proof.
  intros Ha Hb Hne. rewrite <- (insert_delete_id h a x Ha).
  rewrite map_size_insert_None by apply lookup_delete_eq.
  assert (delete a h !! b = Some y) as H%size_pos_lookup by by rewrite lookup_delete_ne.
  lia.
Qed.

Lemma snapshot_singleton_list (n : nat) (h : gmap loc cell) (l : loc) (v : value)
    (t : pyval) :
  h !! l = Some (ListObj [v]) -> snapshot n h v = Some t ->
  snapshot (S n) h (VRef l) = Some (PList [t]).
Proof. intros Hl Hv. cbn [snapshot]. rewrite Hl. cbn. by rewrite Hv. Qed.

Lemma bind_same_run {A B} (m m' : M A) (k : A -> M B) (w w' : World) :
  m w = m' w' -> bind m k w = bind m' k w'.
Proof. intros H. unfold bind. by rewrite H. Qed.

(** [test_fetch_driver_trip_transaction] up to its call of the client: the
    request is built in new objects. *)
Lemma test_fetch_driver_trip_transaction_setup (builtin_str : pyval -> pystr)
    (clientConfig : value) (h : gmap loc cell) (e : Env) (n : nat) (t : list event) :
  exists l h1,
    h ⊆ h1
    /\ tree_of (mkW h1 e n t) (VRef l) = Some trip_transaction_test_request
    /\ test_fetch_driver_trip_transaction builtin_str clientConfig (mkW h e n t)
       = bind (fetch_driver_trip_transaction clientConfig (VRef l))
           (fun reportResponse =>
              let* transactions := lift (getattr_tree reportResponse (str "transactions")) in
              let* n := lift (len transactions) in
              if (n =? 0)%nat then print (str "No driver trip transaction fetched !!!")
              else
                let* transactions :=
                  lift (getattr_tree reportResponse (str "transactions")) in
                let* items := lift (iter transactions) in
                for_each items (fun transaction => print (builtin_str transaction)))
           (mkW h1 e n t).
Proof.
  unfold test_fetch_driver_trip_transaction, DriverTripTransactionReportRequest.new.
  destruct (new_run (str "DriverTripTransactionReportRequest")
              DriverTripTransactionReportRequest.__init__ h e n t) as (l & Hl & Hnew).
  rewrite (bind_same_run _ _ _ _ _ Hnew), bind_bind. clear Hnew.
  match goal with
  | |- context [bind (DriverTripTransactionReportRequest.__init__ (VRef l)) ?k0 ?w0] =>
      destruct (DriverTripTransactionReportRequest_init_run l
                  (str "DriverTripTransactionReportRequest") [] h e n t k0)
        as (ls & lt & lc & Hne & Hg & ->)
  end.
  rewrite bind_ret. do 4 step_setattr.
  rewrite DriverTripTransactionReportRequest_fields_nil.
  match goal with
  | |- context [Instance ?c ?d] =>
      let d' := eval vm_compute in d in change (Instance c d) with (Instance c d')
  end.
  match goal with
  | |- context [bind (Sorter.new ?f ?D) ?k0 (mkW ?h0 e n t)] =>
      destruct (Sorter_new_run f D h0 e n t) as (lso & Hlso & Hs);
      rewrite (bind_run _ k0 _ _ _ Hs); clear Hs
  end.
  fresh_facts.
  match goal with
  | |- context [bind (getattr (VRef l) ?a) ?k0 ?w0] =>
      rewrite (bind_run (getattr (VRef l) a) k0 w0 w0 (VRef ls))
        by (unfold getattr; cbn [heap]; lookup_layers; reflexivity)
  end.
  match goal with
  | |- context [bind (list_append (VRef ls) ?x) ?k0 (mkW ?h0 e n t)] =>
      rewrite (bind_run (list_append (VRef ls) x) k0 (mkW h0 e n t)
                 (mkW (<[ls := ListObj [x]]> h0) e n t) tt)
        by (unfold list_append; cbn [heap]; lookup_layers; reflexivity)
  end.
  eexists l, _. split; [|split]. 3: reflexivity.
  - apply map_subseteq_spec. intros i x Hi.
    rewrite !lookup_insert_ne by congruence. done.
  - apply (tree_of_fuel 3).
    + eapply snapshot_instance; [cbn [heap]; lookup_layers; reflexivity|].
      unfold trip_transaction_test_request. cbn [heap].
      repeat first
        [ apply List.Forall2_nil
        | apply List.Forall2_cons;
          [ split; [reflexivity|];
            first [ reflexivity
                  | apply snapshot_empty_list; lookup_layers; reflexivity
                  | eapply snapshot_singleton_list; [lookup_layers; reflexivity|];
                    eapply snapshot_instance; [lookup_layers; reflexivity|];
                    repeat constructor ] | ] ].
    + cbn [heap].
      match goal with
      | |- (3 <= S (size ?h1))%nat =>
          assert (2 <= size h1)%nat; [|lia];
          apply (size_two h1 ls lso (ListObj [VRef lso])
                   (Instance (str "Sorter") [(str "field", VStr (str "transactionId"));
                                             (str "DESC", VBool true)]));
          [lookup_layers; reflexivity..|done]
      end.
Qed.

#[global] Hint Resolve appends_test_fetch_driver_trip_summary : appends.

(** X13. Importing the module runs two of its tests against the UAT
    gateway.  Whatever the environment, the import prints a heading and
    posts, to the UAT endpoint and under the HMAC of the UAT secret, the
    envelope of a trip transaction request for driver 223 over the year
    2019, sorted by [transactionId].  When the transport raises, the import
    fails with that exception and nothing more is printed or sent. *)
Theorem module_body_first_request (builtin_str : pyval -> pystr) (w : World) :
  let url := str "http://146.148.110.253:8080/proxy/finance/reporting" in
  let body := to_json (envelope_tree (ActionType_value DRIVER_TRIP_TRANSACTION)
                         (uuid4 (env w) (S (calls w)))
                         (now_isoformat (env w) (S (S (calls w))))
                         trip_transaction_test_request) in
  let sig := Codec.hexlify (HMAC.hmac_sha256 (str "keep-this-secret") body) in
  let sent :=
    [EPrint (10 :: str "#################### Test test_fetch_driver_profile #################");
     EPrint (str "Http url: " ++ url);
     EPrint (str "Http header: HMAC: " ++ sig);
     EPrint (str "Http body: " ++ body);
     EPost url body (http_headers sig)] in
  match requests_post (env w) (6 + calls w) url body (http_headers sig) with
  | Raise e =>
      fst (module_body builtin_str w) = Raise e
      /\ trace (snd (module_body builtin_str w)) = trace w ++ sent
  | Ok _ => exists rest, trace (snd (module_body builtin_str w)) = trace w ++ sent ++ rest
  end.
Proof.
  intros url body sig sent. destruct w as [h e n t]. cbn [env calls trace] in *.
  remember (module_body builtin_str (mkW h e n t)) as R eqn:ER.
  unfold module_body, build_uat_client_config in ER.
  destruct (ClientConfig_new_run (VStr url) (VStr (str "keep-this-secret")) VNone VNone
              h e n t) as (l0 & Hl0 & Hc).
  rewrite (bind_run _ _ _ _ _ Hc) in ER. clear Hc.
  unfold bind at 1 in ER. unfold print at 1, log in ER.
  change (has_surrogate (10 :: str "#################### Test test_fetch_driver_profile #################"))
    with false in ER.
  cbv iota in ER. cbn [heap env calls trace] in ER.
  set (h0 := <[l0 := _]> h) in ER.
  set (t1 := t ++ [_]) in ER.
  destruct (test_fetch_driver_trip_transaction_setup builtin_str (VRef l0) h0 e (S n) t1)
    as (l & h1 & Hsub & Htree & Hrun).
  rewrite (bind_same_run _ _ _ _ _ Hrun), bind_bind in ER. clear Hrun.
  assert (Hcfg : h1 !! l0 = Some (Instance (str "ClientConfig")
                                    [(str "serviceEndpoint", VStr url);
                                     (str "hmacSecret", VStr (str "keep-this-secret"));
                                     (str "authToken", VNone);
                                     (str "csrfToken", VNone)])).
  { eapply lookup_weaken; [|exact Hsub]. apply lookup_insert_eq. }
  destruct (fetch_run DRIVER_TRIP_TRANSACTION (VRef l0) (VRef l) (mkW h1 e (S n) t1)
              (str "keep-this-secret") url (str "keep-this-secret")
              trip_transaction_test_request) as (lg & h' & _ & _ & Hf);
    [by unfold getattr; cbn [heap]; rewrite Hcfg
    |by unfold getattr; cbn [heap]; rewrite Hcfg
    |reflexivity|reflexivity|exact Htree|reflexivity|].
  cbn [env calls trace] in Hf. fold body sig in Hf.
  unfold fetch_driver_trip_transaction, bind at 1 in ER. rewrite Hf in ER. clear Hf.
  change (5 + S n)%nat with (6 + n)%nat in ER.
  destruct (requests_post e (6 + n) url body (http_headers sig)) as [response|ex].
  - destruct (has_surrogate response).
    { rewrite ER. cbn [snd trace]. subst t1. exists []. by rewrite <- !app_assoc. }
    match type of ER with
    | context [match ?res with Ok _ => _ | Raise _ => _ end] => destruct res as [r|ex]
    end.
    + match type of ER with
      | _ = bind ?m ?K ?w2 =>
          destruct (appends_bind m K ltac:(appends_steps) ltac:(intros; appends_steps) w2)
            as (rest & Hrest)
      end.
      rewrite ER, Hrest. cbn [trace]. subst t1. eexists. rewrite <- !app_assoc. reflexivity.
    + rewrite ER. cbn [snd trace]. subst t1. eexists. rewrite <- !app_assoc. reflexivity.
  - rewrite ER. cbn [fst snd trace]. subst t1. split; [reflexivity|].
    by rewrite <- !app_assoc.
Qed.

(** A loop that prints goes as far as the first line that cannot be
    printed. *)
Lemma for_each_print (f : pyval -> pystr) (xs : list pyval) (w : World) :
  for_each xs (fun x => print (f x)) w
  = (if forallb (fun x => negb (has_surrogate (f x))) xs
     then Ok tt else Raise UnicodeEncodeError,
     mkW (heap w) (env w) (length (printable_prefix f xs) + calls w)
       (trace w ++ List.map (fun x => EPrint (f x)) (printable_prefix f xs))).
Proof.
  revert w. induction xs as [|x xs IH]; intros [h e n t].
  - cbn [for_each ret List.map length heap env calls trace printable_prefix forallb].
    by rewrite app_nil_r.
  - cbn [for_each printable_prefix forallb]. unfold bind, print at 1, log.
    destruct (has_surrogate (f x)).
    + cbn [negb andb List.map length heap env calls trace]. by rewrite app_nil_r.
    + rewrite IH. cbn [negb andb heap env calls trace List.map length].
      rewrite <- app_assoc. do 2 f_equal. lia.
Qed.

Lemma len_iter (o : pyval) :
  match iter o with
  | Ok xs => len o = Ok (length xs)
  | Raise _ => len o = Raise TypeError
  end.
Proof. destruct o; cbn [iter len]; by rewrite ?length_map. Qed.



(** * Requests do not share their sorters *)
(* ===================================================================== *)

Lemma BaseReportRequest_new_run (h : gmap loc cell) (e : Env) (n : nat) (t : list event) :
  exists l ls,
    h !! l = None /\ ls <> l /\ h !! ls = None /\
    BaseReportRequest.new (mkW h e n t)
    = (Ok (VRef l),
       mkW (<[l := Instance (str "BaseReportRequest")
                     (BaseReportRequest_fields (VRef ls) [])]>
              (<[ls := ListObj []]> h)) e n t).
Proof.
  unfold BaseReportRequest.new.
  destruct (new_run (str "BaseReportRequest") BaseReportRequest.__init__ h e n t)
    as (l & Hl & ->).
  step_base l h e n t. cbn beta. by eexists l, _.
Qed.

(** X16. Every request has a list of sorters of its own.  Of two requests
    built one after the other, the one a sorter is appended to has that
    sorter, and the other still has none. *)
Theorem sorters_not_shared (field : pystr) (DESC : bool) (w : World) :
  exists r1 r2 w',
    (let* r1 := BaseReportRequest.new in
     let* r2 := BaseReportRequest.new in
     let* sorter := Sorter.new (VStr field) (VBool DESC) in
     let* sorters := getattr r1 (str "sorters") in
     list_append sorters sorter ;;
     ret (r1, r2)) w = (Ok (r1, r2), w')
    /\ tree_of w' r1
       = Some (PObj [(str "fromStaff", PBool false); (str "fromPortal", PBool false);
                     (str "pagingEnabled", PBool true); (str "pageSize", PInt 10);
                     (str "pageIndex", PInt 0); (str "exportEnabled", PBool false);
                     (str "sorters", PList [PObj [(str "field", PStr field);
                                                  (str "DESC", PBool DESC)]])])
    /\ tree_of w' r2 = Some (PObj BaseReportRequest_defaults).
Proof.
  destruct w as [h e n t].
  destruct (BaseReportRequest_new_run h e n t) as (l1 & ls1 & Hl1 & Hne1 & Hls1 & H1).
  rewrite (bind_run _ _ _ _ _ H1). clear H1.
  match goal with
  | |- context [bind BaseReportRequest.new ?k (mkW ?hA e n t)] =>
      destruct (BaseReportRequest_new_run hA e n t) as (l2 & ls2 & Hl2 & Hne2 & Hls2 & H2);
      rewrite (bind_run _ k _ _ _ H2); clear H2
  end.
  match goal with
  | |- context [bind (Sorter.new ?f ?D) ?k (mkW ?hB e n t)] =>
      destruct (Sorter_new_run f D hB e n t) as (lso & Hlso & Hs);
      rewrite (bind_run _ k _ _ _ Hs); clear Hs
  end.
  fresh_facts. rewrite !BaseReportRequest_fields_nil.
  match goal with
  | |- context [bind (getattr (VRef l1) ?a) ?k ?w0] =>
      rewrite (bind_run (getattr (VRef l1) a) k w0 w0 (VRef ls1))
        by (unfold getattr; cbn [heap]; lookup_layers; reflexivity)
  end.
  match goal with
  | |- context [bind (list_append (VRef ls1) ?x) ?k (mkW ?h0 e n t)] =>
      rewrite (bind_run (list_append (VRef ls1) x) k (mkW h0 e n t)
                 (mkW (<[ls1 := ListObj [x]]> h0) e n t) tt)
        by (unfold list_append; cbn [heap]; lookup_layers; reflexivity)
  end.
  eexists (VRef l1), (VRef l2), _. split; [reflexivity|]. split.
  - apply (tree_of_fuel 3).
    + eapply snapshot_instance; [cbn [heap]; lookup_layers; reflexivity|]. cbn [heap].
      repeat first
        [ apply List.Forall2_nil
        | apply List.Forall2_cons;
          [ split; [reflexivity|];
            first [ reflexivity
                  | eapply snapshot_singleton_list; [lookup_layers; reflexivity|];
                    eapply snapshot_instance; [lookup_layers; reflexivity|];
                    repeat constructor ] | ] ].
    + cbn [heap].
      match goal with
      | |- (3 <= S (size ?h1))%nat =>
          assert (2 <= size h1)%nat; [|lia];
          apply (size_two h1 ls1 lso (ListObj [VRef lso])
                   (Instance (str "Sorter") [(str "field", VStr field);
                                             (str "DESC", VBool DESC)]));
          [lookup_layers; reflexivity..|done]
      end.
  - eapply tree_of_instance; [cbn [heap]; lookup_layers; reflexivity|].
    cbn [heap]. unfold BaseReportRequest_defaults. tree_fields.
Qed.
